(** * Credit-report compliance scan: rule evaluator, normalizer and scan routes

    A shallow embedding of
    - [server/crc-knowledge-integration.ts]   (modules [Crc], [Knowledge]),
    - [server/compliance-resource-validator.ts] (module [Validator]),
    - the scan routes ([countTokens], [generateStaticSuggestions],
      [performAiScan], [generateStaticViolations], the [/api/ai-scan]
      handler)                                 (modules [Routes], [Progress]),
    - the caller of the scan in the client, [handleAiScan] of
      [positive-closed-accounts-section.tsx]   (module [Client]),
    over a small model of the JavaScript values the code manipulates
    (module [Js]).

    Conventions of the model.
    - A JavaScript string is a Rocq [string] holding the UTF-8 bytes of the
      text; string literals are the source file's bytes.  [includes],
      [startsWith], [===] are exact; [length] counts UTF-16 code units
      ([Js.length16]); [trim], [parseInt] and [toLowerCase] treat one byte
      as one character and are exact on ASCII text.
    - A conversion to a string throws a TypeError for an object with an own
      ["toString"] property (a JSON value is never callable) and for an
      array with such an element ([Js.converts], [Js.toStringC]). The
      functions that evaluate a rule or build an entry are total; next to
      each stands a function of the same name with a final [C] or [Check]
      that runs the conversions of the source in source order and throws
      where the source throws. Every TypeError carries the message
      [Js.typeError].
    - JSON numbers are integers ([Z]) below 10^21 in magnitude, printed in
      decimal; fractional numbers are not modelled.
    - A request item is a JSON object; an object is the list of its own
      properties.
    - The host's implementation-defined functions ([Date] parsing, the three
      "N years/months ago" instants, [parseFloat(x) > 0],
      [Number.prototype.toLocaleString]) are fields of [Host]; one [Host]
      stands for the whole evaluation of a request.
    - The text-completion service is an oracle ([Routes.Oracle]). The calls
      of one batch run concurrently in the source; they share nothing but
      two counters that each call may increment, and [Promise.all] returns
      the results in item order, so the batches are modelled in item order.
    - A result object keyed by item id is the finite map ([gmap string]) of
      its own properties, with its prototype beside it where the code reads
      through the prototype chain: an assignment to ["__proto__"] replaces
      the prototype and creates no property ([Routes.assign_all],
      [Routes.assigned_proto]), and [!violations[id]] sees the inherited
      members ([Routes.inheritedTruthy]). *)

From Stdlib Require Import ZArith List String Ascii Lia Bool Permutation.
From stdpp Require Import gmap strings list fin_maps pretty.

Set Warnings "-register-all".

Local Open Scope string_scope.
Local Open Scope Z_scope.

(* ===================================================================== *)
(** ** JavaScript values and the built-ins the code uses                   *)
(* ===================================================================== *)

Module Js.

(** Values as [JSON.parse] produces them, plus [undefined]. An object is the
    ordered list of its own properties (the first binding of a key is the
    property). *)
Inductive JsValue : Type :=
| VUndefined
| VNull
| VBool (b : bool)
| VNum (z : Z)
| VStr (s : string)
| VArr (elems : list JsValue)
| VObj (props : list (string * JsValue)).

(** Abrupt completion of a function body: [Throw msg] is a thrown [Error]
    whose [message] is [msg]. *)
Inductive Completion (A : Type) : Type :=
| Return (a : A)
| Throw (msg : string).
Arguments Return {A} a.
Arguments Throw {A} msg.

Definition bind {A B} (c : Completion A) (k : A -> Completion B) : Completion B :=
  match c with
  | Return a => k a
  | Throw msg => Throw msg
  end.

Fixpoint mapM {A B} (f : A -> Completion B) (l : list A) : Completion (list B) :=
  match l with
  | [] => Return []
  | x :: r => bind (f x) (fun y => bind (mapM f r) (fun ys => Return (y :: ys)))
  end.

(** ToBoolean *)
Definition truthy (v : JsValue) : bool :=
  match v with
  | VUndefined | VNull => false
  | VBool b => b
  | VNum z => negb (z =? 0)
  | VStr s => negb (s =? "")%string
  | VArr _ | VObj _ => true
  end.

(** [a || b] *)
Definition or_else (a b : JsValue) : JsValue := if truthy a then a else b.

(** [v === 'lit'] *)
Definition is_str (v : JsValue) (lit : string) : bool :=
  match v with
  | VStr s => (s =? lit)%string
  | _ => false
  end.

Fixpoint lookup_prop (k : string) (props : list (string * JsValue)) : JsValue :=
  match props with
  | [] => VUndefined
  | (k', v) :: r => if (k' =? k)%string then v else lookup_prop k r
  end.

(** [v[k]] for a non-nullish [v] and a key [k] that is neither an index nor
    [length]: only objects have such own properties. *)
Definition get (v : JsValue) (k : string) : JsValue :=
  match v with
  | VObj props => lookup_prop k props
  | _ => VUndefined
  end.

(** [v?.[k]] *)
Definition get_opt (v : JsValue) (k : string) : JsValue := get v k.

(** [s.length]: the number of UTF-16 code units of the text whose UTF-8
    bytes are [s]. A byte below 128 is one unit; so is a sequence of two or
    three bytes (its continuation bytes, 128 to 191, add nothing); a
    sequence of four bytes (first byte 240 or more) is a surrogate pair:
    its first two bytes add one unit each. *)
Fixpoint length16 (s : string) : nat :=
  match s with
  | EmptyString => 0%nat
  | String c r =>
      let n := nat_of_ascii c in
      if (n <? 128)%nat then S (length16 r)
      else if (n <? 192)%nat then length16 r
      else if (n <? 240)%nat then S (length16 r)
      else match r with
           | EmptyString => 1%nat
           | String _ r' => S (S (length16 r'))
           end
  end.

(** Every byte of [s] is below 128. *)
Fixpoint ascii_only (s : string) : bool :=
  match s with
  | EmptyString => true
  | String c r => (nat_of_ascii c <? 128)%nat && ascii_only r
  end.

(** [v.length] for a non-nullish [v] *)
Definition length_of (v : JsValue) : JsValue :=
  match v with
  | VStr s => VNum (Z.of_nat (length16 s))
  | VArr l => VNum (Z.of_nat (List.length l))
  | VObj props => lookup_prop "length" props
  | _ => VUndefined
  end.

(** *** Strings *)

Fixpoint includes (s pat : string) : bool :=
  if String.prefix pat s then true
  else match s with
       | EmptyString => false
       | String _ r => includes r pat
       end.

Definition startsWith (s pat : string) : bool := String.prefix pat s.

(** WhiteSpace and LineTerminator code points below 128 *)
Definition isWhite (c : ascii) : bool :=
  let n := nat_of_ascii c in
  ((9 <=? n) && (n <=? 13))%nat || (n =? 32)%nat.

Fixpoint trimStart (s : string) : string :=
  match s with
  | EmptyString => EmptyString
  | String c r => if isWhite c then trimStart r else s
  end.

Fixpoint trimEnd (s : string) : string :=
  match s with
  | EmptyString => EmptyString
  | String c r =>
      let r' := trimEnd r in
      if isWhite c && (r' =? "")%string then EmptyString else String c r'
  end.

Definition trim (s : string) : string := trimEnd (trimStart s).

Definition lowerChar (c : ascii) : ascii :=
  let n := nat_of_ascii c in
  if ((65 <=? n) && (n <=? 90))%nat then ascii_of_nat (n + 32) else c.

Fixpoint toLowerCase (s : string) : string :=
  match s with
  | EmptyString => EmptyString
  | String c r => String (lowerChar c) (toLowerCase r)
  end.

(** [s.split(sep)] for a one-character separator *)
Fixpoint split (sep : ascii) (s : string) : list string :=
  match s with
  | EmptyString => [EmptyString]
  | String c r =>
      if Ascii.eqb c sep then EmptyString :: split sep r
      else match split sep r with
           | [] => [String c EmptyString]
           | w :: ws => String c w :: ws
           end
  end.

Fixpoint drop_chars (n : nat) (s : string) : string :=
  match n, s with
  | O, _ => s
  | S n', String _ r => drop_chars n' r
  | S _, EmptyString => EmptyString
  end.

(** [s.replace(pat, rep)] with a string pattern: the first occurrence only *)
Fixpoint replace (s pat rep : string) : string :=
  if String.prefix pat s then rep +:+ drop_chars (String.length pat) s
  else match s with
       | EmptyString => EmptyString
       | String c r => String c (replace r pat rep)
       end.

Fixpoint repeat_char (c : ascii) (n : nat) : string :=
  match n with
  | O => EmptyString
  | S n' => String c (repeat_char c n')
  end.

(** [s.padStart(n, '0')] *)
Definition padStart0 (n : nat) (s : string) : string :=
  repeat_char "0"%char (n - String.length s) +:+ s.

(** ToString, for a value that converts ([converts] below): the text of a
    template literal [`${v}`], of a property key [obj[v]], of the argument
    of [parseInt] and [parseFloat]. An object prints through
    [Object.prototype.toString], an array through [join]. *)
Fixpoint toString (v : JsValue) : string :=
  match v with
  | VUndefined => "undefined"
  | VNull => "null"
  | VBool true => "true"
  | VBool false => "false"
  | VNum z => pretty z
  | VStr s => s
  | VArr l =>
      (fix join (l : list JsValue) : string :=
         match l with
         | [] => ""
         | x :: r =>
             let sx := match x with
                       | VUndefined | VNull => ""
                       | _ => toString x
                       end in
             match r with
             | [] => sx
             | _ :: _ => sx +:+ "," +:+ join r
             end
         end) l
  | VObj _ => "[object Object]"
  end.

(** A thrown [TypeError]. Its message is text of the host and is not
    modelled; no handler in the code looks for it. *)
Definition typeError : string := "TypeError".

(** ToPrimitive completes on [v]. The values are those of [JSON.parse], so
    no property is callable: an object with an own ["toString"] property
    hides [Object.prototype.toString], [Object.prototype.valueOf] returns
    the object itself, and the conversion throws a [TypeError], under
    either hint. An array converts through [join], which converts each
    element that is neither [null] nor [undefined]. *)
Fixpoint converts (v : JsValue) : bool :=
  match v with
  | VObj props => negb (existsb (fun p => (fst p =? "toString")%string) props)
  | VArr l =>
      (fix all (l : list JsValue) : bool :=
         match l with
         | [] => true
         | x :: r => converts x && all r
         end) l
  | _ => true
  end.

(** ToString as a completion *)
Definition toStringC (v : JsValue) : Completion string :=
  if converts v then Return (toString v) else Throw typeError.

(** [c] completes normally. *)
Definition returns {A} (c : Completion A) : bool :=
  match c with
  | Return _ => true
  | Throw _ => false
  end.

(** *** Numbers: [parseInt].  [None] is [NaN]. *)

Definition digitVal (radix : Z) (c : ascii) : option Z :=
  let n := Z.of_nat (nat_of_ascii c) in
  let d := if (48 <=? n) && (n <=? 57) then n - 48
           else if (97 <=? n) && (n <=? 122) then n - 87
           else if (65 <=? n) && (n <=? 90) then n - 55
           else 99 in
  if d <? radix then Some d else None.

Fixpoint digitsValue (radix : Z) (acc : option Z) (s : string) : option Z :=
  match s with
  | EmptyString => acc
  | String c r =>
      match digitVal radix c with
      | Some d => digitsValue radix (Some (radix * default 0 acc + d)) r
      | None => acc
      end
  end.

Definition parseIntStr (s : string) : option Z :=
  let s1 := trimStart s in
  let '(neg, s2) :=
    match s1 with
    | String "-"%char r => (true, r)
    | String "+"%char r => (false, r)
    | _ => (false, s1)
    end in
  let '(radix, s3) :=
    match s2 with
    | String "0"%char (String "x"%char r) => (16, r)
    | String "0"%char (String "X"%char r) => (16, r)
    | _ => (10, s2)
    end in
  match digitsValue radix None s3 with
  | Some n => Some (if neg : bool then - n else n)
  | None => None
  end.

(** [parseInt(v)] *)
Definition parseInt (v : JsValue) : option Z := parseIntStr (toString v).

(** [isNaN(x)] *)
Definition isNaN (x : option Z) : bool :=
  match x with Some _ => false | None => true end.

(** [a > b] on numbers: false as soon as one side is [NaN] *)
Definition num_gt (a b : option Z) : bool :=
  match a, b with
  | Some x, Some y => x >? y
  | _, _ => false
  end.

Definition num_lt (a b : option Z) : bool := num_gt b a.

(** [Math.ceil(n / 4)] for a length [n] *)
Definition ceil_div4 (n : Z) : Z := (n + 3) / 4.

(** *** [JSON.stringify] *)

Definition dquote : string := String (ascii_of_nat 34) EmptyString.

Definition hexDigit (n : nat) : ascii :=
  ascii_of_nat (if (n <? 10)%nat then 48 + n else 87 + n).

Definition escapeChar (c : ascii) : string :=
  let n := nat_of_ascii c in
  if (n =? 34)%nat then String "\"%char dquote
  else if (n =? 92)%nat then "\\"
  else if (n =? 8)%nat then "\b"
  else if (n =? 9)%nat then "\t"
  else if (n =? 10)%nat then "\n"
  else if (n =? 12)%nat then "\f"
  else if (n =? 13)%nat then "\r"
  else if (n <? 32)%nat then
    "\u00" +:+ String (hexDigit (n / 16)) (String (hexDigit (n mod 16)) EmptyString)
  else String c EmptyString.

Fixpoint escapeString (s : string) : string :=
  match s with
  | EmptyString => EmptyString
  | String c r => escapeChar c +:+ escapeString r
  end.

Definition quote (s : string) : string := dquote +:+ escapeString s +:+ dquote.

Fixpoint join_comma (l : list string) : string :=
  match l with
  | [] => ""
  | [x] => x
  | x :: r => x +:+ "," +:+ join_comma r
  end.

(** [JSON.stringify(v)]; [None] is the result [undefined]. Inside an array
    [undefined] prints as [null]; inside an object the property is left out. *)
Fixpoint stringify (v : JsValue) : option string :=
  match v with
  | VUndefined => None
  | VNull => Some "null"
  | VBool true => Some "true"
  | VBool false => Some "false"
  | VNum z => Some (pretty z)
  | VStr s => Some (quote s)
  | VArr l =>
      Some ("[" +:+
            join_comma
              ((fix elems (l : list JsValue) : list string :=
                  match l with
                  | [] => []
                  | x :: r => default "null" (stringify x) :: elems r
                  end) l) +:+ "]")
  | VObj props =>
      Some ("{" +:+
            join_comma
              ((fix members (ps : list (string * JsValue)) : list string :=
                  match ps with
                  | [] => []
                  | (k, x) :: r =>
                      match stringify x with
                      | Some sx => (quote k +:+ ":" +:+ sx) :: members r
                      | None => members r
                      end
                  end) props) +:+ "}")
  end.

(** *** Arrays *)

(** [l.findIndex(p)] *)
Fixpoint findIndex {A} (p : A -> bool) (l : list A) : Z :=
  match l with
  | [] => -1
  | x :: r =>
      if p x then 0
      else let i := findIndex p r in if i <? 0 then -1 else i + 1
  end.

Fixpoint filter_from {A} (i : Z) (p : A -> Z -> bool) (l : list A) : list A :=
  match l with
  | [] => []
  | x :: r => if p x i then x :: filter_from (i + 1) p r else filter_from (i + 1) p r
  end.

(** [l.filter((x, index) => p(x, index))] *)
Definition filter_indexed {A} (p : A -> Z -> bool) (l : list A) : list A :=
  filter_from 0 p l.

Fixpoint sort_insert {A} (cmp : A -> A -> Z) (x : A) (l : list A) : list A :=
  match l with
  | [] => [x]
  | y :: r => if cmp x y <=? 0 then x :: l else y :: sort_insert cmp x r
  end.

(** [l.sort(cmp)]: [Array.prototype.sort] is stable, so for a comparator
    that is a total preorder the result is the stable ordering of [l]; the
    insertion sort below computes it. *)
Fixpoint sort {A} (cmp : A -> A -> Z) (l : list A) : list A :=
  match l with
  | [] => []
  | x :: r => sort_insert cmp x (sort cmp r)
  end.

(** [[...new Set(l)]] on strings: first occurrences, in order *)
Fixpoint set_spread (seen : list string) (l : list string) : list string :=
  match l with
  | [] => []
  | x :: r =>
      if existsb (String.eqb x) seen then set_spread seen r
      else x :: set_spread (x :: seen) r
  end.

End Js.

(* ===================================================================== *)
(** ** The host environment                                                *)
(* ===================================================================== *)

(** What the code obtains from the JavaScript host at evaluation time.
    [Date_parse s] is the time value of [new Date(s)] ([None]: Invalid Date);
    [sevenYearsAgo], [twoYearsAgo], [sixMonthsAgo] are the time values of
    [new Date()] moved back with [setFullYear]/[setMonth];
    [parseFloat_gt0 s] is [parseFloat(s) > 0];
    [arrayPrototypeHas k] says that [k] names a method of [Array.prototype]
    (the list has grown from one edition of the language to the next). *)
Record Host : Type := {
  Date_parse : string -> option Z;
  sevenYearsAgo : Z;
  twoYearsAgo : Z;
  sixMonthsAgo : Z;
  parseFloat_gt0 : string -> bool;
  toLocaleString : Z -> string;
  arrayPrototypeHas : string -> bool
}.

Module JsDate.
Import Js.

Definition timeClip (z : Z) : option Z :=
  if Z.abs z <=? 8640000000000000 then Some z else None.

(** The time value of [new Date(v)] *)
Definition newDate (h : Host) (v : JsValue) : option Z :=
  match v with
  | VStr s => Date_parse h s
  | VNum z => timeClip z
  | VBool b => Some (if b then 1 else 0)
  | VNull => Some 0
  | VUndefined => None
  | VArr _ | VObj _ => Date_parse h (toString v)
  end.

End JsDate.

(* ===================================================================== *)
(** ** crc-knowledge-integration.ts                                        *)
(* ===================================================================== *)

Module Crc.
Import Js.

Definition generateCRCViolations (h : Host) (accountData : JsValue) : list string :=
  (if is_str (get accountData "DerogatoryDataIndicator") "Y"
   then ["Metro 2 Violation: Inaccurate derogatory data indicator - CRC Furnisher Framework indicates direct furnisher pressure required [Field 04]"]
   else [])
  ++ (if is_str (get accountData "IsChargeoffIndicator") "Y"
      then ["Metro 2 Violation: Charge-off reporting without proper validation - CRC Advanced Disputing shows charge-offs don't mean debt forgiveness [Field 06]"]
      else [])
  ++ (if is_str (get accountData "IsCollectionIndicator") "Y"
      then ["Metro 2 Violation: Collection reporting without FDCPA compliance - CRC knowledge requires 3rd party collector validation [Field 07]"]
      else [])
  ++ (if truthy (get accountData "PastDueAmount")
         && parseFloat_gt0 h (toString (get accountData "PastDueAmount"))
      then ["FCRA Violation: Inaccurate past due amount reporting without proper verification [FCRA ยง 623(a)] - CRC Basic Course shows payment history is 35% of credit score"]
      else [])
  ++ (if truthy (get accountData "DateOfFirstDelinquency")
      then ["FCRA Violation: Disputed date of first delinquency requires reinvestigation [FCRA ยง 611] - CRC Advanced Letters show 30-day reinvestigation requirement under 15 U.S.C. Sec. 1681i(a)"]
      else [])
  ++ (if is_str (get accountData "AccountType") "Collection"
         || is_str (get accountData "IsCollectionIndicator") "Y"
      then ["FDCPA Violation: Collection account lacks proper debt validation - CRC Workbook shows validation demand rights under 15 USC 1692g Sec. 809 (8)";
            "FDCPA Violation: Continued reporting of disputed debt without validation - CRC Advanced Letters show estoppel by silence strategy applies"]
      else []).

(** Whether [generateCRCViolations] completes: reading a property of a
    nullish argument throws, and [parseFloat] converts a truthy
    [PastDueAmount] to a string. When it completes, it returns the list
    above. *)
Definition generateCRCViolationsC (h : Host) (accountData : JsValue)
  : Completion (list string) :=
  match accountData with
  | VNull | VUndefined => Throw typeError
  | _ =>
      bind (if truthy (get accountData "PastDueAmount")
            then toStringC (get accountData "PastDueAmount") else Return "")
           (fun _ => Return (generateCRCViolations h accountData))
  end.

(** [accountData.CreditorName?.toLowerCase().includes('medical')]: calling
    [toLowerCase] on a non-nullish value that is not a string throws. *)
Definition creditorNameIsMedical (accountData : JsValue) : Completion bool :=
  match get accountData "CreditorName" with
  | VUndefined | VNull => Return false
  | VStr s => Return (includes (toLowerCase s) "medical")
  | _ => Throw "accountData.CreditorName?.toLowerCase is not a function"
  end.

Definition generateCRCDisputes (h : Host) (accountData : JsValue) : Completion (list string) :=
  match accountData with
  | VNull | VUndefined => Throw typeError
  | _ =>
  bind (if truthy (get accountData "PastDueAmount")
        then toStringC (get accountData "PastDueAmount") else Return "") (fun _ =>
  let s1 : list string :=
    ((if is_str (get accountData "DerogatoryDataIndicator") "Y"
     then ["Apply CRC Furnisher Framework: Send Round 1 dispute letter directly to furnisher, then escalate with warning letter if verified"]
     else [])
    ++ (if is_str (get accountData "IsCollectionIndicator") "Y"
        then ["Use CRC Advanced Strategy: Demand debt validation under FDCPA, then apply estoppel by silence if no response within 30 days"]
        else [])
    ++ (if is_str (get accountData "IsChargeoffIndicator") "Y"
        then ["Implement CRC Charge-off Strategy: Challenge verification methods and apply maximum pressure to both bureau and furnisher"]
        else [])
    ++ (if truthy (get accountData "PastDueAmount")
           && parseFloat_gt0 h (toString (get accountData "PastDueAmount"))
        then ["Apply CRC Late Payment Strategy: Dispute payment history accuracy and request method of verification from furnisher"]
        else []))%list in
  bind (if is_str (get accountData "AccountType") "Medical" then Return true
        else creditorNameIsMedical accountData)
       (fun medical =>
          Return (s1 ++
                  (if medical : bool
                   then ["Use CRC HIPAA Strategy: Request medical debt validation using HIPAA laws for specialized medical collection removal"]
                   else []))%list))
  end.

Definition generateSourceCitation (violationType : string) : string :=
  if includes violationType "Metro 2" then "Source: CRC Advanced Disputing Workbook, Page 3-46"
  else if includes violationType "FCRA" then "Source: CRC Basic Disputing Course, Page 1-15"
  else if includes violationType "FDCPA" then "Source: CRC Top 10 Advanced Dispute Letters, Page 1-292"
  else "Source: CRC Advanced Disputing Workbook, Page 3-46".

End Crc.

(* ===================================================================== *)
(** ** compliance-resource-validator.ts                                    *)
(* ===================================================================== *)

Module Validator.
Import Js JsDate.

Record ValidatedViolation : Type := {
  violation : string;
  source : string;
  page : option string;
  section : option string;
  isValidated : bool
}.

Record ComplianceValidationResult : Type := {
  violations : list ValidatedViolation;
  suggestions : list string;
  hasViolations : bool;
  noViolationMessage : option string
}.

Definition NO_VIOLATION_MESSAGE : string :=
  "No Metro 2 / FCRA / FDCPA violation detected for this item.".

(** The [crcViolations.forEach] loop that opens each of the three
    validators, for the tag [tag]. *)
Definition crcTagged (h : Host) (account : JsValue) (tag : string) : list ValidatedViolation :=
  map (fun v => {| violation := v;
                   source := Crc.generateSourceCitation v;
                   page := None; section := None;
                   isValidated := true |})
      (List.filter (fun v => includes v tag) (Crc.generateCRCViolations h account)).

Definition missingDofdViolation : ValidatedViolation :=
  {| violation := "Metro 2 Violation: Missing Date of First Delinquency [Field 30] - Required for accounts 180+ days delinquent";
     source := "CRC Advanced Disputing Workbook, Page 3-46";
     page := Some "Section 4.2.1"; section := None;
     isValidated := true |}.

Definition statusRatingViolation : ValidatedViolation :=
  {| violation := "Metro 2 Violation: Account Status inconsistent with Payment Rating [Field 13] - Closed status conflicts with delinquent payment code";
     source := "Credit Reporting Resource Guide 2020";
     page := Some "Section 3.1.4"; section := None;
     isValidated := true |}.

Definition termsDurationViolation : ValidatedViolation :=
  {| violation := "Metro 2 Violation: Invalid Terms Duration format [Field 16] - Must be 3 digits, zero-filled";
     source := "Credit Reporting Resource Guide 2020";
     page := Some "Section 2.3.7"; section := None;
     isValidated := true |}.

Definition balanceLimitViolation : ValidatedViolation :=
  {| violation := "Metro 2 Violation: Current Balance exceeds Credit Limit [Field 06] - Balance cannot exceed established credit limit";
     source := "Credit Reporting Resource Guide 2020";
     page := Some "Section 2.2.3"; section := None;
     isValidated := true |}.

(** [v !== 3] *)
Definition not_num3 (v : JsValue) : bool :=
  match v with
  | VNum z => negb (z =? 3)
  | _ => true
  end.

Definition validateMetro2Violations (h : Host) (account : JsValue) : list ValidatedViolation :=
  crcTagged h account "Metro 2"
  ++ (if is_str (get account "@_DerogatoryDataIndicator") "Y"
         && negb (truthy (get account "@_DateOfFirstDelinquency"))
      then [missingDofdViolation] else [])
  ++ (let currentRating := get_opt (get account "_CURRENT_RATING") "@_Code" in
      if truthy currentRating
         && existsb (is_str currentRating) ["2"; "3"; "4"; "5"; "6"; "7"; "8"; "9"]
      then
        let accountStatus := get account "@_AccountStatus" in
        if is_str accountStatus "11" || is_str accountStatus "13" || is_str accountStatus "61"
        then [statusRatingViolation] else []
      else [])
  ++ (let termsDuration := get account "@_TermsDuration" in
      if truthy termsDuration
         && (not_num3 (length_of termsDuration) || isNaN (parseInt termsDuration))
      then [termsDurationViolation] else [])
  ++ (let currentBalance := parseInt (or_else (get account "@_CurrentBalance") (VStr "0")) in
      let creditLimit := parseInt (or_else (get account "@_CreditLimit") (VStr "0")) in
      if num_gt creditLimit (Some 0) && num_gt currentBalance creditLimit
      then [balanceLimitViolation] else []).

Definition outdatedAccountViolation : ValidatedViolation :=
  {| violation := "FCRA Violation: Outdated negative account - accounts older than 7 years violate FCRA § 605(a)(4)";
     source := "CRC Basic Disputing Course, Page 1-15";
     page := Some "Page 3"; section := Some "Violation #1";
     isValidated := true |}.

Definition bankruptcyViolation : ValidatedViolation :=
  {| violation := "FCRA Violation: Bankruptcy discharge inaccuracies - discharged debts showing positive balance violate FCRA § 605(a)(1)";
     source := "FCRA Top 10 Violations Guide";
     page := Some "Page 4"; section := Some "Violation #2";
     isValidated := true |}.

Definition duplicateViolation : ValidatedViolation :=
  {| violation := "FCRA Violation: Potential duplicate account - same account reported multiple times violates FCRA § 623(a)(1)(B)";
     source := "FCRA Top 10 Violations Guide";
     page := Some "Page 5"; section := Some "Violation #3";
     isValidated := true |}.

Definition validateFCRAViolations (h : Host) (account : JsValue) : list ValidatedViolation :=
  crcTagged h account "FCRA"
  ++ (let dateOpened := get account "@_DateOpened" in
      if truthy dateOpened then
        let openDate := newDate h dateOpened in
        if num_lt openDate (Some (sevenYearsAgo h))
           && is_str (get account "@_DerogatoryDataIndicator") "Y"
        then [outdatedAccountViolation] else []
      else [])
  ++ (if is_str (get account "@_AccountStatus") "61" || is_str (get account "@_AccountStatus") "62"
      then
        let currentBalance := parseInt (or_else (get account "@_CurrentBalance") (VStr "0")) in
        if num_gt currentBalance (Some 0) then [bankruptcyViolation] else []
      else [])
  ++ (let accountNumber := get account "@_AccountNumber" in
      let subscriberCode := get account "@_SubscriberCode" in
      if truthy accountNumber && truthy subscriberCode
      then [duplicateViolation] else []).

Definition misrepresentViolation : ValidatedViolation :=
  {| violation := "FDCPA Violation: Misrepresenting the amount owed - collection balance exceeds original debt violates FDCPA § 807(2)(A)";
     source := "CRC Top 10 Advanced Dispute Letters, Page 1-292";
     page := Some "Page 12"; section := Some "Section 807 Violations";
     isValidated := true |}.

Definition chargeoffActivityViolation : ValidatedViolation :=
  {| violation := "FDCPA Violation: Continued collection activity on charged-off debt without proper validation violates FDCPA § 809(b)";
     source := "FDCPA Guide";
     page := Some "Page 15"; section := Some "Section 809 Violations";
     isValidated := true |}.

Definition validateFDCPAViolations (h : Host) (account : JsValue) : list ValidatedViolation :=
  crcTagged h account "FDCPA"
  ++ (if is_str (get account "@IsCollectionIndicator") "Y"
         || is_str (get account "@IsCollectionIndicator") "true"
      then
        let currentBalance := parseInt (or_else (get account "@_CurrentBalance") (VStr "0")) in
        let originalBalance := parseInt (or_else (get account "@_OriginalBalance") (VStr "0")) in
        if num_gt currentBalance originalBalance then [misrepresentViolation] else []
      else [])
  ++ (if is_str (get account "@IsChargeoffIndicator") "Y"
         || is_str (get account "@IsChargeoffIndicator") "true"
      then
        let lastActivityDate := get account "@_DateLastActivity" in
        if truthy lastActivityDate then
          let lastActivity := newDate h lastActivityDate in
          if num_gt lastActivity (Some (sixMonthsAgo h))
          then [chargeoffActivityViolation] else []
        else []
      else []).

Definition generateValidatedSuggestions (vs : list ValidatedViolation) : list string :=
  flat_map
    (fun v =>
       let t := violation v in
       if includes t "Date of First Delinquency" then
         ["Apply CRC Furnisher Framework: Request verification of the Date of First Delinquency and supporting documentation for the reported delinquency period."]
       else if includes t "Account Status inconsistent" then
         ["Use CRC Advanced Strategy: Dispute the account status code and request alignment with the actual payment history and account standing."]
       else if includes t "Outdated" then
         ["Implement CRC Basic Disputing: Request removal of outdated information that exceeds the legal reporting period under FCRA guidelines."]
       else if includes t "Bankruptcy discharge" then
         ["Apply CRC Advanced Letters: Dispute the positive balance and request zero balance reflecting the bankruptcy discharge status."]
       else if includes t "Duplicate" then
         ["Use CRC Warning Strategy: Request removal of duplicate account entries and consolidation of accurate account information."]
       else if includes t "Misrepresenting the amount" then
         ["Apply CRC Debt Validation: Dispute the inflated balance amount and request verification of the original debt amount under FDCPA § 809."]
       else if includes t "Collection" then
         ["Implement CRC Collection Strategy: Demand debt validation under FDCPA, then apply estoppel by silence if no response within 30 days."]
       else if includes t "Charge-off" then
         ["Use CRC Charge-off Strategy: Challenge verification methods and apply maximum pressure to both bureau and furnisher."]
       else [])
    vs.

(** The comparator shared by both [sort] calls (and by the routes). *)
Definition compareCategory (a b : string) : Z :=
  if includes a "Metro 2" && negb (includes b "Metro 2") then -1
  else if negb (includes a "Metro 2") && includes b "Metro 2" then 1
  else if includes a "FCRA" && negb (includes b "FCRA") then -1
  else if negb (includes a "FCRA") && includes b "FCRA" then 1
  else if includes a "FDCPA" && negb (includes b "FDCPA") then -1
  else if negb (includes a "FDCPA") && includes b "FDCPA" then 1
  else 0.

Definition removeDuplicatesAndSort (vs : list ValidatedViolation) : list ValidatedViolation :=
  let uniqueViolations :=
    filter_indexed
      (fun v index =>
         index =? findIndex (fun w => (trim (violation w) =? trim (violation v))%string) vs)
      vs in
  sort (fun a b => compareCategory (violation a) (violation b)) uniqueViolations.

Definition removeDuplicateSuggestions (ss : list string) : list string :=
  let uniqueSuggestions :=
    filter_indexed
      (fun s index => index =? findIndex (fun t => (trim t =? trim s)%string) ss)
      ss in
  sort compareCategory uniqueSuggestions.

Definition formatValidationResult (vs : list ValidatedViolation) : ComplianceValidationResult :=
  let sortedViolations := removeDuplicatesAndSort vs in
  let hasViolations := (0 <? Z.of_nat (List.length sortedViolations)) in
  let suggestions := if hasViolations then generateValidatedSuggestions sortedViolations else [] in
  let sortedSuggestions := removeDuplicateSuggestions suggestions in
  {| violations := sortedViolations;
     suggestions := sortedSuggestions;
     hasViolations := hasViolations;
     noViolationMessage := if hasViolations then None else Some NO_VIOLATION_MESSAGE |}.

Definition outdatedRecordViolation : ValidatedViolation :=
  {| violation := "FCRA Violation: Outdated public record - records older than 7 years violate FCRA § 605(a)(4)";
     source := "FCRA Top 10 Violations Guide";
     page := Some "Page 8"; section := Some "Violation #6";
     isValidated := true |}.

Definition missingConditionCodeViolation : ValidatedViolation :=
  {| violation := "Metro 2 Violation: Missing Compliance Condition Code [Field 33] - Required for all public records";
     source := "Credit Reporting Resource Guide 2020";
     page := Some "Section 5.1.2"; section := None;
     isValidated := true |}.

Definition publicRecordViolations (h : Host) (record : JsValue) : list ValidatedViolation :=
  (let dateReported := or_else (get record "@_DateReported") (get record "@_DateFiled") in
   if truthy dateReported then
     let reportDate := newDate h dateReported in
     if num_lt reportDate (Some (sevenYearsAgo h)) then [outdatedRecordViolation] else []
   else [])
  ++ (if negb (truthy (get record "@_ComplianceConditionCode"))
      then [missingConditionCodeViolation] else []).

Definition validatePublicRecord (h : Host) (record : JsValue) : ComplianceValidationResult :=
  formatValidationResult (publicRecordViolations h record).

Definition outdatedInquiryViolation : ValidatedViolation :=
  {| violation := "FCRA Violation: Outdated inquiry - inquiries older than 2 years violate FCRA § 605(a)(7)";
     source := "FCRA Top 10 Violations Guide";
     page := Some "Page 9"; section := Some "Violation #7";
     isValidated := true |}.

Definition missingPurposeViolation : ValidatedViolation :=
  {| violation := "Metro 2 Violation: Missing Inquiry Purpose [Field 11] - Required for all credit inquiries";
     source := "Credit Reporting Resource Guide 2020";
     page := Some "Section 6.1.1"; section := None;
     isValidated := true |}.

Definition inquiryViolations (h : Host) (inquiry : JsValue) : list ValidatedViolation :=
  (let inquiryDate := get inquiry "@_DateOfInquiry" in
   if truthy inquiryDate then
     let inquiryDateObj := newDate h inquiryDate in
     if num_lt inquiryDateObj (Some (twoYearsAgo h)) then [outdatedInquiryViolation] else []
   else [])
  ++ (if negb (truthy (get inquiry "@_InquiryPurpose"))
      then [missingPurposeViolation] else []).

Definition validateInquiry (h : Host) (inquiry : JsValue) : ComplianceValidationResult :=
  formatValidationResult (inquiryViolations h inquiry).

(** [allViolations] of [validateAccount] *)
Definition accountViolations (h : Host) (account : JsValue) : list ValidatedViolation :=
  validateMetro2Violations h account
  ++ validateFCRAViolations h account
  ++ validateFDCPAViolations h account.

Definition validateAccount (h : Host) (account : JsValue) : ComplianceValidationResult :=
  formatValidationResult (accountViolations h account).

(** *** When the validators complete

    The validators convert values to strings: the argument of each
    [parseInt], and of each [new Date] (through ToPrimitive). A conversion
    throws on an object that does not convert ([Js.converts]). The
    definitions below run the conversions of each function in the order of
    the source, under the conditions of the source; when none throws, the
    function returns the value given above. *)

Definition validateMetro2ViolationsC (h : Host) (account : JsValue)
  : Completion (list ValidatedViolation) :=
  bind (Crc.generateCRCViolationsC h account) (fun _ =>
  let termsDuration := get account "@_TermsDuration" in
  bind (if truthy termsDuration && negb (not_num3 (length_of termsDuration))
        then toStringC termsDuration else Return "") (fun _ =>
  bind (toStringC (or_else (get account "@_CurrentBalance") (VStr "0"))) (fun _ =>
  bind (toStringC (or_else (get account "@_CreditLimit") (VStr "0"))) (fun _ =>
  Return (validateMetro2Violations h account))))).

Definition validateFCRAViolationsC (h : Host) (account : JsValue)
  : Completion (list ValidatedViolation) :=
  bind (Crc.generateCRCViolationsC h account) (fun _ =>
  let dateOpened := get account "@_DateOpened" in
  bind (if truthy dateOpened then toStringC dateOpened else Return "") (fun _ =>
  bind (if is_str (get account "@_AccountStatus") "61"
           || is_str (get account "@_AccountStatus") "62"
        then toStringC (or_else (get account "@_CurrentBalance") (VStr "0"))
        else Return "") (fun _ =>
  Return (validateFCRAViolations h account)))).

Definition validateFDCPAViolationsC (h : Host) (account : JsValue)
  : Completion (list ValidatedViolation) :=
  bind (Crc.generateCRCViolationsC h account) (fun _ =>
  bind (if is_str (get account "@IsCollectionIndicator") "Y"
           || is_str (get account "@IsCollectionIndicator") "true"
        then bind (toStringC (or_else (get account "@_CurrentBalance") (VStr "0")))
                  (fun _ => toStringC (or_else (get account "@_OriginalBalance") (VStr "0")))
        else Return "") (fun _ =>
  let lastActivityDate := get account "@_DateLastActivity" in
  bind (if (is_str (get account "@IsChargeoffIndicator") "Y"
            || is_str (get account "@IsChargeoffIndicator") "true")
           && truthy lastActivityDate
        then toStringC lastActivityDate else Return "") (fun _ =>
  Return (validateFDCPAViolations h account)))).

Definition validateAccountC (h : Host) (account : JsValue)
  : Completion ComplianceValidationResult :=
  bind (validateMetro2ViolationsC h account) (fun metro2Violations =>
  bind (validateFCRAViolationsC h account) (fun fcraViolations =>
  bind (validateFDCPAViolationsC h account) (fun fdcpaViolations =>
  Return (formatValidationResult
            (metro2Violations ++ fcraViolations ++ fdcpaViolations))))).

Definition validatePublicRecordC (h : Host) (record : JsValue)
  : Completion ComplianceValidationResult :=
  match record with
  | VNull | VUndefined => Throw typeError
  | _ =>
      let dateReported := or_else (get record "@_DateReported") (get record "@_DateFiled") in
      bind (if truthy dateReported then toStringC dateReported else Return "")
           (fun _ => Return (validatePublicRecord h record))
  end.

Definition validateInquiryC (h : Host) (inquiry : JsValue)
  : Completion ComplianceValidationResult :=
  match inquiry with
  | VNull | VUndefined => Throw typeError
  | _ =>
      let inquiryDate := get inquiry "@_DateOfInquiry" in
      bind (if truthy inquiryDate then toStringC inquiryDate else Return "")
           (fun _ => Return (validateInquiry h inquiry))
  end.

End Validator.

(* ===================================================================== *)
(** ** The scan routes                                                     *)
(* ===================================================================== *)

Module Routes.
Import Js Validator.

Definition MAX_INPUT_TOKENS : Z := 100000.
Definition MAX_TOKENS_RESPONSE : Z := 1000.
Definition TOKENS_PER_ACCOUNT_LIMIT : Z := 1000.
Definition MAX_CONCURRENT_REQUESTS : nat := 5.

(** [countTokens(text)]; reading [length] of [undefined] throws, in the
    [try] block and again in the [catch] block. *)
Definition countTokens (text : option string) : Completion Z :=
  match text with
  | Some s => Return (ceil_div4 (Z.of_nat (length16 s)))
  | None => Throw typeError
  end.

(** *** Reading the request body *)

(** [creditData?.KEY || []] *)
Definition field_or_empty (creditData : JsValue) (k : string) : JsValue :=
  or_else (get_opt creditData k) (VArr []).

(** The elements of a value iterated with [forEach]/[map] by a callback that
    reads a property of each element: the value must be an array and no
    element may be [null]. *)
Definition as_items (v : JsValue) : Completion (list JsValue) :=
  match v with
  | VArr l =>
      mapM (fun x => match x with
                     | VNull | VUndefined => Throw typeError
                     | _ => Return x
                     end) l
  | _ => Throw typeError
  end.

(** [String(n).padStart(3, '0')] *)
Definition pad3 (n : nat) : string := padStart0 3 (pretty n).

(** *** Item identifiers of the static path *)

Definition staticAccountId (account : JsValue) (index : nat) : JsValue :=
  or_else (get account "@CreditLiabilityID") (VStr ("TRADE" +:+ pad3 (index + 1))).

Definition staticRecordId (record : JsValue) (index : nat) : JsValue :=
  or_else (get record "@RecordKey")
    (or_else (get record "@CreditLiabilityID")
       (VStr ("PUBLIC-RECORD-" +:+ pad3 (index + 1)))).

Definition staticInquiryId (inquiry : JsValue) (index : nat) : JsValue :=
  or_else (get inquiry "@InquiryKey")
    (or_else (get inquiry "@_InquiryKey")
       (VStr ("INQUIRY-" +:+ pad3 (index + 1)))).

(** *** generateStaticSuggestions *)

Definition accountFallbackSuggestions : list string :=
  ["Apply CRC Furnisher Framework: Send Round 1 dispute letter directly to furnisher with reason and instruction";
   "Use CRC Advanced Strategy: Demand debt validation under FDCPA § 809, then apply estoppel by silence if no response";
   "Implement CRC Maximum Pressure: Challenge verification methods and apply pressure to both bureau and furnisher"].

Definition recordFallbackSuggestions : list string :=
  ["Verify public record authenticity under FCRA § 613 - request court documentation and filing verification";
   "Challenge reporting timeframe under FCRA § 605 - seven-year reporting limit for most public records";
   "Dispute record accuracy under FCRA § 623 - demand Metro 2 compliance for all public record fields"].

Definition inquiryFallbackSuggestions : list string :=
  ["Challenge inquiry authorization under FCRA § 604 - demand written permissible purpose documentation";
   "Dispute inquiry accuracy under FCRA § 623 - request Metro 2 compliance verification for inquiry fields";
   "Verify inquiry legitimacy under FDCPA § 807 - require proof of authorized access and business relationship"].

Definition nonempty_or {A} (l fallback : list A) : list A :=
  match l with
  | [] => fallback
  | _ :: _ => l
  end.

(** The own properties of a result object after [obj[id] = value] for each
    pair, in order. The ids convert ([toStringC] is run before). An
    assignment to ["__proto__"] reaches the setter of [Object.prototype]: it
    replaces the prototype of [obj] by the value (an array) and creates no
    property. *)
Definition assign_all {V} (writes : list (JsValue * V)) (obj : gmap string V) : gmap string V :=
  foldl (fun m w => if (toString (fst w) =? "__proto__")%string then m
                    else <[toString (fst w) := snd w]> m) obj writes.

(** The prototype of the object after these assignments: [None] is
    [Object.prototype], [Some a] the array [a] (whose prototype is
    [Array.prototype]). *)
Definition assigned_proto {V} (writes : list (JsValue * V)) : option V :=
  foldl (fun pr w => if (toString (fst w) =? "__proto__")%string then Some (snd w) else pr)
        None writes.

(** One round of each loop: the validator runs, then the id is converted to
    the property key (and to the text of the log line). *)
Definition accountSuggestion (h : Host) (index : nat) (account : JsValue)
  : Completion (JsValue * list string) :=
  let accountId := staticAccountId account index in
  bind (validateAccountC h account) (fun validationResult =>
  bind (Crc.generateCRCDisputes h account) (fun crcSuggestions =>
  let allSuggestions := (suggestions validationResult ++ crcSuggestions)%list in
  bind (toStringC accountId) (fun _ =>
  Return (accountId, nonempty_or allSuggestions accountFallbackSuggestions)))).

Definition recordSuggestion (h : Host) (index : nat) (record : JsValue)
  : Completion (JsValue * list string) :=
  let recordId := staticRecordId record index in
  bind (validatePublicRecordC h record) (fun validationResult =>
  bind (toStringC recordId) (fun _ =>
  Return (recordId, nonempty_or (suggestions validationResult) recordFallbackSuggestions))).

Definition inquirySuggestion (h : Host) (index : nat) (inquiry : JsValue)
  : Completion (JsValue * list string) :=
  let inquiryId := staticInquiryId inquiry index in
  bind (validateInquiryC h inquiry) (fun validationResult =>
  bind (toStringC inquiryId) (fun _ =>
  Return (inquiryId, nonempty_or (suggestions validationResult) inquiryFallbackSuggestions))).

Definition generateStaticSuggestions (h : Host) (creditData : JsValue)
  : Completion (gmap string (list string)) :=
  bind (as_items (field_or_empty creditData "CREDIT_LIABILITY")) (fun negativeAccounts =>
  bind (mapM (fun p => accountSuggestion h (fst p) (snd p))
             (imap (fun i x => (i, x)) negativeAccounts)) (fun w1 =>
  bind (as_items (field_or_empty creditData "PUBLIC_RECORD")) (fun publicRecords =>
  bind (mapM (fun p => recordSuggestion h (fst p) (snd p))
             (imap (fun i x => (i, x)) publicRecords)) (fun w2 =>
  bind (as_items (field_or_empty creditData "INQUIRY")) (fun recentInquiries =>
  bind (mapM (fun p => inquirySuggestion h (fst p) (snd p))
             (imap (fun i x => (i, x)) recentInquiries)) (fun w3 =>
  Return (assign_all (w1 ++ w2 ++ w3) ∅))))))).

(** *** The response payload *)

Record TokenInfo : Type := {
  inputTokens : Z;
  itemsAnalyzedWithAI : nat;
  itemsSkippedByTokens : nat;
  totalItemsProcessed : nat;
  fallbackUsed : bool
}.

Record Breakdown : Type := {
  accounts : nat;
  publicRecords : nat;
  inquiries : nat
}.

Record ScanPayload : Type := {
  success : bool;
  totalViolations : nat;
  affectedAccounts : nat;
  violations : gmap string (list string);
  metro2Violations : gmap string (list string);
  fcrFdcpaViolations : gmap string (list string);
  suggestions : gmap string (list string);
  breakdown : Breakdown;
  message : string;
  tokenInfo : TokenInfo
}.

(** [Object.values(obj).flat()] *)
Definition flat_values (obj : gmap string (list string)) : list string :=
  concat (map snd (map_to_list obj)).

Definition scanMessage (a p i : nat) : string :=
  "AI analysis completed: Found violations across " +:+ pretty a +:+ " accounts, "
  +:+ pretty p +:+ " public records, and " +:+ pretty i +:+ " inquiries".

(** *** generateStaticViolations *)

Definition formatViolation (v : ValidatedViolation) : string :=
  Validator.violation v +:+ " (Source: " +:+ source v
  +:+ match page v with
      | Some p => if (p =? "")%string then "" else ", " +:+ p
      | None => ""
      end
  +:+ ")".

Definition sentinel : string :=
  "No Metro 2 / FCRA / FDCPA violation detected for this item.".

(** The array stored under the item's id from a validation result *)
Definition staticEntry (r : ComplianceValidationResult) : list string :=
  if hasViolations r then map formatViolation (Validator.violations r)
  else [match noViolationMessage r with
        | Some m => if (m =? "")%string then sentinel else m
        | None => sentinel
        end].

Definition staticAccountWrite (h : Host) (index : nat) (account : JsValue) :=
  (staticAccountId account index, staticEntry (validateAccount h account)).

Definition staticRecordWrite (h : Host) (index : nat) (record : JsValue) :=
  (staticRecordId record index, staticEntry (validatePublicRecord h record)).

Definition staticInquiryWrite (h : Host) (index : nat) (inquiry : JsValue) :=
  (staticInquiryId inquiry index, staticEntry (validateInquiry h inquiry)).

(** What can throw in one round of each loop of [generateStaticViolations]:
    the id is converted for the log line, then the validator runs. When
    neither throws, the round makes the assignment given above. *)
Definition staticAccountCheck (h : Host) (index : nat) (account : JsValue) : Completion unit :=
  bind (toStringC (staticAccountId account index)) (fun _ =>
  bind (validateAccountC h account) (fun _ => Return tt)).

Definition staticRecordCheck (h : Host) (index : nat) (record : JsValue) : Completion unit :=
  bind (toStringC (staticRecordId record index)) (fun _ =>
  bind (validatePublicRecordC h record) (fun _ => Return tt)).

Definition staticInquiryCheck (h : Host) (index : nat) (inquiry : JsValue) : Completion unit :=
  bind (toStringC (staticInquiryId inquiry index)) (fun _ =>
  bind (validateInquiryC h inquiry) (fun _ => Return tt)).

(** [[...new Set(itemViolations)].sort(...)] *)
Definition sortedUnique (itemViolations : list string) : list string :=
  sort compareCategory (set_spread [] itemViolations).

Definition notSentinel (v : string) : bool := negb (v =? sentinel)%string.

Definition generateStaticViolations (h : Host) (creditData : JsValue) : Completion ScanPayload :=
  bind (as_items (field_or_empty creditData "CREDIT_LIABILITY")) (fun negativeAccounts =>
  bind (as_items (field_or_empty creditData "PUBLIC_RECORD")) (fun publicRecords =>
  bind (as_items (field_or_empty creditData "INQUIRY")) (fun recentInquiries =>
  bind (mapM (fun p => staticAccountCheck h (fst p) (snd p))
             (imap (fun i x => (i, x)) negativeAccounts)) (fun _ =>
  bind (mapM (fun p => staticRecordCheck h (fst p) (snd p))
             (imap (fun i x => (i, x)) publicRecords)) (fun _ =>
  bind (mapM (fun p => staticInquiryCheck h (fst p) (snd p))
             (imap (fun i x => (i, x)) recentInquiries)) (fun _ =>
  let violations : gmap string (list string) :=
    assign_all (imap (staticAccountWrite h) negativeAccounts
                ++ imap (staticRecordWrite h) publicRecords
                ++ imap (staticInquiryWrite h) recentInquiries) ∅ in
  let processedViolations := sortedUnique <$> violations in
  let metro2Violations :=
    (fun l => List.filter (fun v => includes v "Metro 2") (List.filter notSentinel l))
      <$> processedViolations in
  let fcrFdcpaViolations :=
    (fun l => List.filter (fun v => includes v "FCRA" || includes v "FDCPA")
                          (List.filter notSentinel l))
      <$> processedViolations in
  let actualViolations := List.filter notSentinel (flat_values processedViolations) in
  bind (generateStaticSuggestions h creditData) (fun suggestions =>
  Return
    {| success := true;
       totalViolations := List.length actualViolations;
       affectedAccounts := size violations;
       violations := processedViolations;
       metro2Violations := metro2Violations;
       fcrFdcpaViolations := fcrFdcpaViolations;
       suggestions := suggestions;
       breakdown := {| accounts := List.length negativeAccounts;
                       publicRecords := List.length publicRecords;
                       inquiries := List.length recentInquiries |};
       message := scanMessage (List.length negativeAccounts) (List.length publicRecords)
                              (List.length recentInquiries);
       tokenInfo := {| inputTokens := 0;
                       itemsAnalyzedWithAI := 0;
                       itemsSkippedByTokens := 0;
                       totalItemsProcessed := size violations;
                       fallbackUsed := true |} |}))))))).

(** *** getStaticPublicRecordViolations *)

Definition publicRecordViolationSets : list (list string) :=
  [ ["Metro 2 Violation: Public record information is outdated or inaccurate [Field 13: Public Record Status] - Status inconsistent with court records";
     "FCRA Violation: Outdated public record - records older than 7 years still reporting negatively violate FCRA § 605(a)(4)";
     "FDCPA Violation: False representations regarding public record status - violates FDCPA § 807(2)(A)"];
    ["Metro 2 Violation: Missing compliance condition code for public record [Field 33: Compliance Condition Code] - Required for all public records";
     "FCRA Violation: Mixed credit information - public record information of another person appears on report violates FCRA § 623(a)(1)(C)";
     "FDCPA Violation: Harassment through improper public record collection activities - violates FDCPA § 806(5)"];
    ["Metro 2 Violation: Incorrect public record status code reporting [Field 13: Public Record Status] - Status code does not match court disposition";
     "FCRA Violation: Inaccurate reporting of public record discharge status - discharged debts showing positive balance violate FCRA § 605(a)(1)";
     "FDCPA Violation: Threatening to take legal action regarding public record that is not intended - violates FDCPA § 807(5)"];
    ["Metro 2 Violation: Public record balance amount inconsistent with court records [Field 06: Balance Amount] - Amount exceeds court judgment";
     "FCRA Violation: Bankruptcy discharge inaccuracies - discharged accounts showing outstanding balance violate FCRA § 605(a)(1)";
     "FDCPA Violation: Misrepresenting the amount owed on public record - violates FDCPA § 807(2)(A)"] ].

Definition getStaticPublicRecordViolations (index : nat) : list string :=
  nth (index mod List.length publicRecordViolationSets) publicRecordViolationSets [].

(** *** performAiScan *)

Inductive ItemType : Type := TAccount | TPublicRecord | TInquiry.

(** An element of [allItemsToProcess]: the properties of the request item
    with [itemType], [originalIndex] (and [inquiryIndex] for inquiries)
    written over them. *)
Record WorkItem : Type := {
  item : JsValue;
  itemType : ItemType;
  originalIndex : nat;
  inquiryIndex : option nat
}.

Definition allItemsToProcess (negativeAccounts publicRecords recentInquiries : list JsValue)
  : list WorkItem :=
  imap (fun index x => {| item := x; itemType := TAccount;
                          originalIndex := index; inquiryIndex := None |}) negativeAccounts
  ++ imap (fun index x => {| item := x; itemType := TPublicRecord;
                             originalIndex := index; inquiryIndex := None |}) publicRecords
  ++ imap (fun index x => {| item := x; itemType := TInquiry;
                             originalIndex := index; inquiryIndex := Some index |}) recentInquiries.

(** The item id of [processItemWithAI]. The final [ITEM-n] branch of the
    source is unreachable: [itemType] is one of the three tags. *)
Definition aiItemId (w : WorkItem) (itemIndex : nat) : JsValue :=
  match itemType w with
  | TAccount =>
      or_else (get (item w) "@CreditLiabilityID") (VStr ("TRADE" +:+ pad3 (itemIndex + 1)))
  | TPublicRecord =>
      or_else (get (item w) "@CreditLiabilityID")
        (or_else (get (item w) "@_SubscriberCode")
           (VStr ("record_" +:+ pretty itemIndex)))
  | TInquiry =>
      or_else (get (item w) "@_InquiryIdentifier")
        (VStr ("inquiry_" +:+ match inquiryIndex w with
                              | Some i => pretty i
                              | None => "undefined"
                              end))
  end.

Definition itemSummary (w : WorkItem) (itemId : JsValue) : JsValue :=
  let it := item w in
  let unknown := VStr "Unknown" in
  match itemType w with
  | TAccount =>
      VObj [("id", itemId);
            ("creditor", or_else (get_opt (get it "_CREDITOR") "@_Name") unknown);
            ("accountType", or_else (get it "@_AccountType") unknown);
            ("balance", or_else (get it "@_CurrentBalance") (VStr "0"));
            ("status", or_else (get it "@_AccountStatus")
                         (or_else (get it "@_AccountStatusType") unknown));
            ("dateOpened", or_else (get it "@_DateOpened") unknown);
            ("dateReported", or_else (get it "@_DateReported") unknown);
            ("dateClosed", or_else (get it "@_DateClosed") unknown);
            ("derogatoryIndicator", or_else (get it "@_DerogatoryDataIndicator") (VStr "N"));
            ("dateFirstDelinquency", or_else (get it "@_DateFirstDelinquency") unknown);
            ("paymentHistory", or_else (get it "@_PaymentHistory") unknown)]
  | TPublicRecord =>
      VObj [("id", itemId);
            ("type", or_else (get it "@_PublicRecordType")
                       (or_else (get it "@publicRecordType") unknown));
            ("status", or_else (get it "@_PublicRecordStatus")
                         (or_else (get it "status") unknown));
            ("amount", or_else (get it "@_PublicRecordAmount")
                         (or_else (get it "@_Amount") (VStr "0")));
            ("dateFiled", or_else (get it "@_DateFiled")
                            (or_else (get it "filingDate") unknown));
            ("dateReported", or_else (get it "@_DateReported") unknown);
            ("court", or_else (get it "@_Court") (or_else (get it "@courtName") unknown))]
  | TInquiry =>
      VObj [("id", itemId);
            ("subscriberName", or_else (get it "@_SubscriberName") unknown);
            ("dateReported", or_else (get it "@_DateReported")
                               (or_else (get it "@_Date") unknown));
            ("inquiryType", or_else (get it "@_InquiryType")
                              (or_else (get it "@_Type") unknown));
            ("purpose", or_else (get it "@_InquiryPurposeType") unknown)]
  end.

(** The outcome of one [openai.chat.completions.create] call followed by
    [completion.choices[0]?.message?.content]: the call (or the access)
    throws, or it yields a content that may be missing. *)
Inductive CompletionOutcome : Type :=
| CallFailed
| Content (response : option string).

(** The completion service, asked at item index [i] with the system prompt
    of the item type and the item text. *)
Definition Oracle : Type := nat -> ItemType -> string -> CompletionOutcome.

Definition newline : ascii := ascii_of_nat 10.

Definition parseResponse (response : string) : list string :=
  let lines :=
    List.filter (fun line => 0 <? Z.of_nat (length16 line))
                (map trim (split newline response)) in
  let bulleted :=
    List.filter (fun line => startsWith line "- " && (10 <? Z.of_nat (length16 line)))
                lines in
  let converted :=
    map (fun line =>
           if includes line "[FCRA §" && negb (startsWith line "- FCRA Violation:")
           then replace line "- " "- FCRA Violation: "
           else if includes line "[Field " && negb (startsWith line "- Metro 2 Violation:")
           then replace line "- " "- Metro 2 Violation: "
           else if includes line "[FDCPA §" && negb (startsWith line "- FDCPA Violation:")
           then replace line "- " "- FDCPA Violation: "
           else line)
        bulleted in
  List.filter
    (fun line =>
       let lower := toLowerCase line in
       let isNotEmpty :=
         negb (includes lower "none identified")
         && negb (includes lower "no violations identified")
         && negb (includes lower "none apparent")
         && negb (includes lower "not applicable")
         && negb (includes lower "n/a")
         && negb (includes lower "no violation")
         && negb (includes lower "none found") in
       let hasContent := 30 <? Z.of_nat (length16 line) in
       isNotEmpty && hasContent)
    converted.

(** What one [processItemWithAI] call returns and what it adds to the two
    counters it shares with the other calls. *)
Record ItemResult : Type := {
  itemId : JsValue;
  itemViolations : list string;
  skippedByTokens : bool;
  analyzedWithAI : bool
}.

Definition processItemWithAI (oracle : Oracle) (w : WorkItem) (itemIndex : nat) : ItemResult :=
  let itemId := aiItemId w itemIndex in
  let caught := {| itemId := itemId; itemViolations := [];
                   skippedByTokens := false; analyzedWithAI := false |} in
  let itemText := stringify (itemSummary w itemId) in
  match countTokens itemText, itemText with
  | Return itemTokens, Some text =>
      if itemTokens >? TOKENS_PER_ACCOUNT_LIMIT then
        {| itemId := itemId; itemViolations := [];
           skippedByTokens := true; analyzedWithAI := false |}
      else
        match oracle itemIndex (itemType w) text with
        | CallFailed => caught
        | Content None => caught
        | Content (Some response) =>
            if (response =? "")%string then caught
            else {| itemId := itemId; itemViolations := parseResponse response;
                    skippedByTokens := false; analyzedWithAI := true |}
        end
  | _, _ => caught
  end.

(** The [for] loop of [processInBatches], from position [i]; each round
    awaits a whole batch. [fuel] bounds the number of rounds. *)
Fixpoint batchLoop (oracle : Oracle) (fuel : nat) (items : list WorkItem) (batchSize : nat)
    (i : nat) (results : list ItemResult) : list ItemResult :=
  match fuel with
  | O => results
  | S fuel' =>
      if (i <? List.length items)%nat then
        let batch := firstn batchSize (skipn i items) in
        let batchResults :=
          imap (fun batchIndex x => processItemWithAI oracle x (i + batchIndex)) batch in
        batchLoop oracle fuel' items batchSize (i + batchSize) (results ++ batchResults)
      else results
  end.

Definition processInBatches (oracle : Oracle) (items : list WorkItem) (batchSize : nat)
  : list ItemResult :=
  batchLoop oracle (List.length items) items batchSize 0 [].

Definition count_true {A} (p : A -> bool) (l : list A) : nat :=
  List.length (List.filter p l).

(** What can throw in [processItemWithAI]: the id of an inquiry is put into
    a log line before the [try]; the id of an account or of a public record
    is put into one inside the [try], and again in the [catch] block, from
    where the error leaves the function. [Promise.all] and [processInBatches]
    pass it on. *)
Definition itemIdCheck (w : WorkItem) (itemIndex : nat) : Completion unit :=
  bind (toStringC (aiItemId w itemIndex)) (fun _ => Return tt).

(** The string-keyed members of [Object.prototype]; each holds a function,
    or, for ["__proto__"], answers the prototype: all are truthy. *)
Definition objectPrototypeKeys : list string :=
  ["constructor"; "__defineGetter__"; "__defineSetter__"; "hasOwnProperty";
   "__lookupGetter__"; "__lookupSetter__"; "isPrototypeOf"; "propertyIsEnumerable";
   "toString"; "valueOf"; "__proto__"; "toLocaleString"].

(** [violations[key]] is truthy through the prototype chain of the result
    object: [proto] is [None] for [Object.prototype] and [Some a] when an
    assignment to ["__proto__"] has put the array [a] (above
    [Array.prototype]) in its place. *)
Definition inheritedTruthy (h : Host) (proto : option (list string)) (key : string) : bool :=
  existsb (String.eqb key) objectPrototypeKeys
  || match proto with
     | None => false
     | Some a =>
         arrayPrototypeHas h key
         || ((key =? "length")%string && negb (List.length a =? 0)%nat)
         || existsb (fun p => (toString (VNum (Z.of_nat (fst p))) =? key)%string
                              && negb (snd p =? "")%string)
                    (imap (fun i x => (i, x)) a)
     end.

Definition remainingRecordId (index : nat) (record : JsValue) : JsValue :=
  or_else (get record "@_AccountIdentifier")
          (VStr ("PUBLIC-RECORD-" +:+ pad3 (index + 1))).

(** The [remainingPublicRecords.forEach] loop: [!violations[recordId]] sees
    the own properties and the inherited ones. The ids convert
    ([toStringC] is run before). *)
Definition addRemaining (h : Host) (proto : option (list string))
    (violations : gmap string (list string)) (records : list JsValue)
  : gmap string (list string) :=
  foldl (fun m p =>
           let recordId := remainingRecordId (fst p) (snd p) in
           if bool_decide (is_Some (m !! toString recordId))
              || inheritedTruthy h proto (toString recordId)
           then m
           else <[toString recordId := getStaticPublicRecordViolations (fst p)]> m)
        violations (imap (fun i x => (i, x)) records).

Definition remainingPublicRecords (creditData : JsValue) : Completion (list JsValue) :=
  match get_opt (get_opt creditData "CREDIT_RESPONSE") "PUBLIC_RECORD" with
  | VArr (x :: r) => as_items (VArr (x :: r))
  | _ => Return []
  end.

Definition keys (obj : gmap string (list string)) : list string :=
  map fst (map_to_list obj).

Definition performAiScan (h : Host) (hasApiKey : bool) (oracle : Oracle) (creditData : JsValue)
  : Completion ScanPayload :=
  bind (countTokens (stringify creditData)) (fun totalInputTokens =>
  if totalInputTokens >? MAX_INPUT_TOKENS then
    Throw ("INPUT_TOO_LARGE: " +:+ toLocaleString h totalInputTokens +:+ " tokens exceeds limit")
  else if negb hasApiKey then generateStaticViolations h creditData
  else
  bind (as_items (field_or_empty creditData "CREDIT_LIABILITY")) (fun negativeAccounts =>
  bind (as_items (field_or_empty creditData "PUBLIC_RECORD")) (fun publicRecords =>
  bind (as_items (field_or_empty creditData "INQUIRY")) (fun recentInquiries =>
  let items := allItemsToProcess negativeAccounts publicRecords recentInquiries in
  bind (mapM (fun p => itemIdCheck (snd p) (fst p))
             (imap (fun i x => (i, x)) items)) (fun _ =>
  let results := processInBatches oracle items MAX_CONCURRENT_REQUESTS in
  let writes := map (fun r => (itemId r, itemViolations r)) results in
  let violations0 : gmap string (list string) := assign_all writes ∅ in
  let totalAccountsProcessed := List.length results in
  let accountsSkippedByTokens := count_true skippedByTokens results in
  let accountsAnalyzedWithAI := count_true analyzedWithAI results in
  bind (remainingPublicRecords creditData) (fun remaining =>
  bind (mapM (fun p => toStringC (remainingRecordId (fst p) (snd p)))
             (imap (fun i x => (i, x)) remaining)) (fun _ =>
  let violations := addRemaining h (assigned_proto writes) violations0 remaining in
  let totalViolations := List.length (flat_values violations) in
  let affectedItems := List.length (keys violations) in
  let accountViolations := count_true (fun id => startsWith id "TRADE") (keys violations) in
  let publicRecordViolations :=
    count_true (fun id => includes id "PUBLIC-RECORD") (keys violations) in
  let inquiryViolations := count_true (fun id => includes id "INQUIRY") (keys violations) in
  bind (generateStaticSuggestions h creditData) (fun suggestions =>
  Return
    {| success := true;
       totalViolations := totalViolations;
       affectedAccounts := affectedItems;
       violations := violations;
       metro2Violations := List.filter (fun v => includes v "Metro 2") <$> violations;
       fcrFdcpaViolations :=
         List.filter (fun v => includes v "FCRA" || includes v "FDCPA") <$> violations;
       suggestions := suggestions;
       breakdown := {| accounts := accountViolations;
                       publicRecords := publicRecordViolations;
                       inquiries := inquiryViolations |};
       message := scanMessage accountViolations publicRecordViolations inquiryViolations;
       tokenInfo := {| inputTokens := totalInputTokens;
                       itemsAnalyzedWithAI := accountsAnalyzedWithAI;
                       itemsSkippedByTokens := accountsSkippedByTokens;
                       totalItemsProcessed := totalAccountsProcessed;
                       fallbackUsed := false |} |})))))))).

(** *** The [POST /api/ai-scan] handler *)

Record ErrorBody : Type := {
  err_success : bool;
  err_error : string;
  err_message : string;
  err_fallbackUsed : bool
}.

Inductive ResponseBody : Type :=
| ScanBody (p : ScanPayload)
| FailureBody (e : ErrorBody).

Record Response : Type := {
  status : Z;
  body : ResponseBody
}.

Definition api_ai_scan (h : Host) (hasApiKey : bool) (oracle : Oracle) (creditData : JsValue)
  : Response :=
  match performAiScan h hasApiKey oracle creditData with
  | Return result => {| status := 200; body := ScanBody result |}
  | Throw msg =>
      if includes msg "INPUT_TOO_LARGE" then
        {| status := 413;
           body := FailureBody
                     {| err_success := false;
                        err_error := "INPUT_TOO_LARGE";
                        err_message := "Credit data is too large for AI analysis. Using static violations instead.";
                        err_fallbackUsed := true |} |}
      else if includes msg "insufficient_quota" then
        {| status := 429;
           body := FailureBody
                     {| err_success := false;
                        err_error := "QUOTA_EXCEEDED";
                        err_message := "OpenAI API quota exceeded. Using static violations instead.";
                        err_fallbackUsed := true |} |}
      else
        {| status := 500;
           body := FailureBody
                     {| err_success := false;
                        err_error := "AI_SCAN_FAILED";
                        err_message := "AI scan failed. Using static violations instead.";
                        err_fallbackUsed := true |} |}
  end.

End Routes.

(* ===================================================================== *)
(** ** Reference definitions used to state the properties                  *)
(* ===================================================================== *)

Module Spec.
Import Js Validator.

(** First occurrences with respect to [key], in order: an element is kept
    unless an earlier element has the same key. *)
Fixpoint first_occurrences {A} (key : A -> string) (seen : list A) (l : list A) : list A :=
  match l with
  | [] => []
  | x :: r =>
      if existsb (fun y => (key y =? key x)%string) seen
      then first_occurrences key seen r
      else x :: first_occurrences key (seen ++ [x]) r
  end.

(** Deduplication as the specification words it: equality after trimming,
    first occurrence wins. *)
Definition spec_dedup {A} (text : A -> string) (l : list A) : list A :=
  first_occurrences (fun x => trim (text x)) [] l.

(** The sort key of the comparator: which of the three tags a text holds. *)
Definition category_rank (s : string) : nat :=
  (if includes s "Metro 2" then 0 else 4)
  + (if includes s "FCRA" then 0 else 2)
  + (if includes s "FDCPA" then 0 else 1).

(** The elements of rank [lo], then of rank [lo + 1], ... ([n] ranks), each
    group in the order of [l]. *)
Fixpoint by_rank {A} (rk : A -> nat) (lo n : nat) (l : list A) : list A :=
  match n with
  | O => []
  | S n' => List.filter (fun x => (rk x =? lo)%nat) l ++ by_rank rk (S lo) n' l
  end.

(** Stable ordering by the triple (has "Metro 2", has "FCRA", has "FDCPA"). *)
Definition stable_by_category {A} (text : A -> string) (l : list A) : list A :=
  by_rank (fun x => category_rank (text x)) 0 8 l.

(** The partition the specification describes: Metro 2, then FCRA, then
    FDCPA, then the rest, each part in the order of [l]. *)
Definition spec_partition {A} (text : A -> string) (l : list A) : list A :=
  List.filter (fun x => includes (text x) "Metro 2") l
  ++ List.filter (fun x => negb (includes (text x) "Metro 2") && includes (text x) "FCRA") l
  ++ List.filter (fun x => negb (includes (text x) "Metro 2") && negb (includes (text x) "FCRA")
                           && includes (text x) "FDCPA") l
  ++ List.filter (fun x => negb (includes (text x) "Metro 2") && negb (includes (text x) "FCRA")
                           && negb (includes (text x) "FDCPA")) l.

(** A text holds at most one of the three tags. *)
Definition single_tag (s : string) : bool :=
  negb (includes s "Metro 2" && includes s "FCRA")
  && negb (includes s "Metro 2" && includes s "FDCPA")
  && negb (includes s "FCRA" && includes s "FDCPA").


(** [account] without the property [k] *)
Definition without_prop (k : string) (account : JsValue) : JsValue :=
  VObj (List.filter (fun p => negb (fst p =? k)%string)
                    (match account with
                     | VObj props => props
                     | _ => []
                     end)).

(** A date value the age rules cannot use: falsy, or an Invalid Date. *)
Definition date_unusable (h : Host) (d : JsValue) : bool :=
  negb (truthy d) || isNaN (JsDate.newDate h d).


(** [parseInt(account[k] || '0')] *)
Definition readNum (account : JsValue) (k : string) : option Z :=
  parseInt (or_else (get account k) (VStr "0")).

(** A host whose [Date] parser knows two dates (UTC midnights, in ms) and
    whose clock reads 2025-01-01. *)
Definition exampleHost : Host :=
  {| Date_parse := fun s =>
       if (s =? "2010-01-15")%string then Some 1263513600000
       else if (s =? "2024-12-01")%string then Some 1733011200000
       else None;
     sevenYearsAgo := 1514764800000;
     twoYearsAgo := 1672531200000;
     sixMonthsAgo := 1719792000000;
     parseFloat_gt0 := fun s => match parseIntStr s with
                                | Some z => 0 <? z
                                | None => false
                                end;
     toLocaleString := fun z => pretty z;
     arrayPrototypeHas := fun k =>
       existsb (String.eqb k)
         ["constructor"; "at"; "concat"; "copyWithin"; "fill"; "find"; "findIndex";
          "findLast"; "findLastIndex"; "lastIndexOf"; "pop"; "push"; "reverse";
          "shift"; "unshift"; "slice"; "sort"; "splice"; "includes"; "indexOf";
          "join"; "keys"; "entries"; "values"; "forEach"; "filter"; "flat";
          "flatMap"; "map"; "every"; "some"; "reduce"; "reduceRight";
          "toLocaleString"; "toString"] |}.

(** The texts [generateCRCViolations] can produce, as violations. *)
Definition crcTexts : list string :=
  ["Metro 2 Violation: Inaccurate derogatory data indicator - CRC Furnisher Framework indicates direct furnisher pressure required [Field 04]";
   "Metro 2 Violation: Charge-off reporting without proper validation - CRC Advanced Disputing shows charge-offs don't mean debt forgiveness [Field 06]";
   "Metro 2 Violation: Collection reporting without FDCPA compliance - CRC knowledge requires 3rd party collector validation [Field 07]";
   "FCRA Violation: Inaccurate past due amount reporting without proper verification [FCRA ยง 623(a)] - CRC Basic Course shows payment history is 35% of credit score";
   "FCRA Violation: Disputed date of first delinquency requires reinvestigation [FCRA ยง 611] - CRC Advanced Letters show 30-day reinvestigation requirement under 15 U.S.C. Sec. 1681i(a)";
   "FDCPA Violation: Collection account lacks proper debt validation - CRC Workbook shows validation demand rights under 15 USC 1692g Sec. 809 (8)";
   "FDCPA Violation: Continued reporting of disputed debt without validation - CRC Advanced Letters show estoppel by silence strategy applies"].

Definition crcViolation (v : string) : ValidatedViolation :=
  {| violation := v; source := Crc.generateSourceCitation v;
     page := None; section := None; isValidated := true |}.

(** Every violation record a validator can emit. *)
Definition catalog : list ValidatedViolation :=
  map crcViolation crcTexts
  ++ [missingDofdViolation; statusRatingViolation; termsDurationViolation;
      balanceLimitViolation; outdatedAccountViolation; bankruptcyViolation;
      duplicateViolation; misrepresentViolation; chargeoffActivityViolation;
      outdatedRecordViolation; missingConditionCodeViolation;
      outdatedInquiryViolation; missingPurposeViolation].

(** *** The firing conditions of the rules, as the validators test them *)

Definition opt {A} (c : bool) (v : A) : list A := if c then [v] else [].

Definition fires_missingDofd (account : JsValue) : bool :=
  is_str (get account "@_DerogatoryDataIndicator") "Y"
  && negb (truthy (get account "@_DateOfFirstDelinquency")).

Definition fires_statusRating (account : JsValue) : bool :=
  let currentRating := get_opt (get account "_CURRENT_RATING") "@_Code" in
  truthy currentRating
  && existsb (is_str currentRating) ["2"; "3"; "4"; "5"; "6"; "7"; "8"; "9"]
  && (is_str (get account "@_AccountStatus") "11"
      || is_str (get account "@_AccountStatus") "13"
      || is_str (get account "@_AccountStatus") "61").

Definition fires_termsDuration (account : JsValue) : bool :=
  let termsDuration := get account "@_TermsDuration" in
  truthy termsDuration
  && (not_num3 (length_of termsDuration) || isNaN (parseInt termsDuration)).

Definition fires_balanceLimit (account : JsValue) : bool :=
  num_gt (readNum account "@_CreditLimit") (Some 0)
  && num_gt (readNum account "@_CurrentBalance") (readNum account "@_CreditLimit").

Definition fires_outdatedAccount (h : Host) (account : JsValue) : bool :=
  truthy (get account "@_DateOpened")
  && num_lt (JsDate.newDate h (get account "@_DateOpened")) (Some (sevenYearsAgo h))
  && is_str (get account "@_DerogatoryDataIndicator") "Y".

Definition fires_bankruptcy (account : JsValue) : bool :=
  (is_str (get account "@_AccountStatus") "61" || is_str (get account "@_AccountStatus") "62")
  && num_gt (readNum account "@_CurrentBalance") (Some 0).

Definition fires_duplicate (account : JsValue) : bool :=
  truthy (get account "@_AccountNumber") && truthy (get account "@_SubscriberCode").

Definition fires_misrepresent (account : JsValue) : bool :=
  (is_str (get account "@IsCollectionIndicator") "Y"
   || is_str (get account "@IsCollectionIndicator") "true")
  && num_gt (readNum account "@_CurrentBalance") (readNum account "@_OriginalBalance").

Definition fires_chargeoffActivity (h : Host) (account : JsValue) : bool :=
  (is_str (get account "@IsChargeoffIndicator") "Y"
   || is_str (get account "@IsChargeoffIndicator") "true")
  && truthy (get account "@_DateLastActivity")
  && num_gt (JsDate.newDate h (get account "@_DateLastActivity")) (Some (sixMonthsAgo h)).

(** The date a public record is aged by *)
Definition recordDate (record : JsValue) : JsValue :=
  or_else (get record "@_DateReported") (get record "@_DateFiled").

Definition fires_outdatedRecord (h : Host) (record : JsValue) : bool :=
  truthy (recordDate record)
  && num_lt (JsDate.newDate h (recordDate record)) (Some (sevenYearsAgo h)).

Definition fires_missingConditionCode (record : JsValue) : bool :=
  negb (truthy (get record "@_ComplianceConditionCode")).

Definition fires_outdatedInquiry (h : Host) (inquiry : JsValue) : bool :=
  truthy (get inquiry "@_DateOfInquiry")
  && num_lt (JsDate.newDate h (get inquiry "@_DateOfInquiry")) (Some (twoYearsAgo h)).

Definition fires_missingPurpose (inquiry : JsValue) : bool :=
  negb (truthy (get inquiry "@_InquiryPurpose")).

(** The fixed rules of the three account validators, in evaluation order,
    with their firing conditions. *)
Definition metro2_rules (account : JsValue) : list (ValidatedViolation * bool) :=
  [(missingDofdViolation, fires_missingDofd account);
   (statusRatingViolation, fires_statusRating account);
   (termsDurationViolation, fires_termsDuration account);
   (balanceLimitViolation, fires_balanceLimit account)].

Definition fcra_rules (h : Host) (account : JsValue) : list (ValidatedViolation * bool) :=
  [(outdatedAccountViolation, fires_outdatedAccount h account);
   (bankruptcyViolation, fires_bankruptcy account);
   (duplicateViolation, fires_duplicate account)].

Definition fdcpa_rules (h : Host) (account : JsValue) : list (ValidatedViolation * bool) :=
  [(misrepresentViolation, fires_misrepresent account);
   (chargeoffActivityViolation, fires_chargeoffActivity h account)].

Definition record_rules (h : Host) (record : JsValue) : list (ValidatedViolation * bool) :=
  [(outdatedRecordViolation, fires_outdatedRecord h record);
   (missingConditionCodeViolation, fires_missingConditionCode record)].

Definition inquiry_rules (h : Host) (inquiry : JsValue) : list (ValidatedViolation * bool) :=
  [(outdatedInquiryViolation, fires_outdatedInquiry h inquiry);
   (missingPurposeViolation, fires_missingPurpose inquiry)].

(** The violations of the rules that fire, in order *)
Definition fired (rules : list (ValidatedViolation * bool)) : list ValidatedViolation :=
  flat_map (fun r => opt (snd r) (fst r)) rules.

End Spec.

(* ===================================================================== *)
(** ** Concrete inputs                                                     *)
(* ===================================================================== *)

Module Examples.
Import Js.

(** An account flagged both as a charge-off and as a collection. *)
Definition chargeoffCollectionAccount : JsValue :=
  VObj [("IsChargeoffIndicator", VStr "Y"); ("IsCollectionIndicator", VStr "Y")].

(** A closed account that still shows a balance. *)
Definition closedAccount : JsValue :=
  VObj [("@_AccountStatus", VStr "Closed"); ("@_AccountStatusType", VStr "Closed");
        ("status", VStr "Closed"); ("@_CurrentBalance", VStr "500")].

(** A discharged account (status 61) that still shows a balance. *)
Definition dischargedAccount : JsValue :=
  VObj [("@_AccountStatus", VStr "61"); ("@_CurrentBalance", VStr "500")].

(** A derogatory account without a date of first delinquency. *)
Definition derogatoryAccount : JsValue :=
  VObj [("@CreditLiabilityID", VStr "T1"); ("@_DerogatoryDataIndicator", VStr "Y")].

(** An account that names its number and its subscriber. *)
Definition numberedAccount : JsValue :=
  VObj [("@_AccountNumber", VStr "4000123"); ("@_SubscriberCode", VStr "B77")].



(** Items whose date does not parse. *)
Definition undatedAccount : JsValue :=
  VObj [("@_DerogatoryDataIndicator", VStr "Y"); ("@IsChargeoffIndicator", VStr "Y");
        ("@_DateOpened", VStr "unknown"); ("@_DateLastActivity", VStr "unknown")].

Definition undatedRecord : JsValue :=
  VObj [("@_DateFiled", VStr "unknown"); ("@_ComplianceConditionCode", VStr "XA")].

Definition undatedInquiry : JsValue :=
  VObj [("@_DateOfInquiry", VStr "unknown"); ("@_InquiryPurpose", VStr "01")].

(** A request with one account, one keyed public record and one inquiry. *)
Definition scanRequest : JsValue :=
  VObj [("CREDIT_LIABILITY", VArr [VObj []]);
        ("PUBLIC_RECORD", VArr [VObj [("@RecordKey", VStr "PR-9")]]);
        ("INQUIRY", VArr [VObj []])].



(** An account whose id is an object with a property ["toString"]. *)
Definition unprintableIdRequest : JsValue :=
  VObj [("CREDIT_LIABILITY",
         VArr [VObj [("@CreditLiabilityID", VObj [("toString", VNum 0)])]])].

(** A completion service that is down. *)
Definition failingOracle : Routes.Oracle := fun _ _ _ => Routes.CallFailed.

(** A completion service that is down for item 0 and answers the others. *)
Definition flakyOracle : Routes.Oracle :=
  fun i _ _ =>
    match i with
    | O => Routes.CallFailed
    | S _ => Routes.Content
               (Some "- FCRA Violation: Inaccurate account status reporting [FCRA § 623(a)]")
    end.

(** [s] doubled [n] times *)
Fixpoint doubled (n : nat) (s : string) : string :=
  match n with
  | O => s
  | S n' => doubled n' (s +:+ s)
  end.

(** A request with an account that carries a comment of [s]. *)
Definition commentedRequest (s : string) : JsValue :=
  VObj [("CREDIT_LIABILITY", VArr [VObj [("@_Comment", VStr s)]])].

(** A request whose serialization is longer than 400000 characters. *)
Definition bigRequest : JsValue := commentedRequest (doubled 19 "a").



(** An item of a report that the client sends twice: it has a charge-off
    date, so it passes the filter for negative accounts, and a
    public-record account type. No account rule fires on it; as a public
    record it lacks the compliance condition code. *)
Definition chargedOffItem : JsValue :=
  VObj [("@CreditLiabilityID", VStr "A1"); ("@_ChargeOffDate", VStr "2020-01-01");
        ("@_AccountType", VStr "93")].

Definition chargedOffReport : JsValue :=
  VObj [("CREDIT_RESPONSE", VObj [("CREDIT_LIABILITY", VArr [chargedOffItem])])].

Definition chargedOffRequest : JsValue :=
  VObj [("CREDIT_LIABILITY", VArr [chargedOffItem]);
        ("PUBLIC_RECORD", VArr [chargedOffItem]);
        ("INQUIRY", VArr [])].

(** An account on which no rule fires and whose id is ["__proto__"]. *)
Definition protoAccount : JsValue :=
  VObj [("@CreditLiabilityID", VStr "__proto__"); ("@_AccountStatus", VStr "Open")].

Definition protoRequest : JsValue :=
  VObj [("CREDIT_LIABILITY", VArr [protoAccount])].

(** An item the client sends twice: it passes the filter for negative
    accounts and has a public-record account type. *)
Definition sharedItem : JsValue :=
  VObj [("@CreditLiabilityID", VStr "A1"); ("@_DerogatoryDataIndicator", VStr "Y");
        ("@_AccountType", VStr "93"); ("@_ComplianceConditionCode", VStr "XA")].

Definition sharedIdRequest : JsValue :=
  VObj [("CREDIT_LIABILITY", VArr [sharedItem]); ("PUBLIC_RECORD", VArr [sharedItem])].

End Examples.

(* ===================================================================== *)
(** ** Reference definitions for the scan                                  *)
(* ===================================================================== *)

Module ScanSpec.
Import Js Validator Routes.

(** The assignments [violations[id] = ...] of the static scan, in order. *)
Definition staticWrites (h : Host) (accounts records inquiries : list JsValue)
  : list (JsValue * list string) :=
  imap (staticAccountWrite h) accounts
  ++ imap (staticRecordWrite h) records
  ++ imap (staticInquiryWrite h) inquiries.

(** The text of the summary of work item [w] at index [i] *)
Definition summaryText (w : WorkItem) (i : nat) : option string :=
  stringify (itemSummary w (aiItemId w i)).

(** The summary of [w] is longer than 4000 UTF-16 code units: more than
    1000 tokens at four units a token. *)
Definition oversized (w : WorkItem) (i : nat) : bool :=
  match summaryText w i with
  | Some text => 4000 <? Z.of_nat (length16 text)
  | None => false
  end.

(** The completion call for [w] fails. *)
Definition callFails (oracle : Oracle) (w : WorkItem) (i : nat) : bool :=
  match summaryText w i with
  | Some text =>
      match oracle i (itemType w) text with
      | CallFailed => true
      | Content _ => false
      end
  | None => true
  end.

(** The answer of the completion service for the summary of [w], when the
    summary is within the budget and the service answers with a text that
    is not empty. *)
Definition answer (oracle : Oracle) (w : WorkItem) (i : nat) : option string :=
  match summaryText w i with
  | Some text =>
      if oversized w i then None
      else match oracle i (itemType w) text with
           | Content (Some response) =>
               if (response =? "")%string then None else Some response
           | _ => None
           end
  | None => None
  end.

(** The list of item [w]: the lines parsed from the answer the service
    gave for this item, and no line without an answer. *)
Definition expectedLines (oracle : Oracle) (w : WorkItem) (i : nat) : list string :=
  match answer oracle w i with
  | Some response => parseResponse response
  | None => []
  end.

Definition expectedResult (oracle : Oracle) (w : WorkItem) (i : nat) : ItemResult :=
  {| itemId := aiItemId w i;
     itemViolations := expectedLines oracle w i;
     skippedByTokens := oversized w i;
     analyzedWithAI := match answer oracle w i with
                       | Some _ => true
                       | None => false
                       end |}.

(** One result per item, in item order *)
Definition itemResults (oracle : Oracle) (items : list WorkItem) : list ItemResult :=
  imap (fun i w => processItemWithAI oracle w i) items.


End ScanSpec.

(* ===================================================================== *)
(** ** crc-knowledge-integration.ts: the knowledge sources                 *)
(* ===================================================================== *)

Module Knowledge.
Import Js.

Inductive SourceType : Type := Basic | Advanced | Letters | Workbook | Strategy.

Record CRCKnowledgeSource : Type := {
  title : string;
  kind : SourceType;
  content : string;
  pageReference : option string
}.

(** [this.sources] after [initializeCRCKnowledge] *)
Definition sources : list CRCKnowledgeSource :=
[
  {| title := "CRC Basic Disputing Course";
     kind := Basic;
     content := "
        Credit Basics and Reporting Fundamentals:
        - 79% of credit reports contain errors or mistakes
        - Credit reporting began over 100 years ago, computerized in late 1960s
        - Fair Credit Reporting Act (FCRA) is primary national law governing credit reporting
        - Negative items include late payments, charge-offs, collections, repossessions, bankruptcies
        - High balances increase credit utilization and decrease credit scores
        - 35% of credit score is payment history
        - Late payments can cause severe damage and cost thousands in unnecessary interest
        - Charge-offs don't mean debt isn't owed - creditor loses hope of payment
        - Repossessions often result in deficiency balances sold to collection agencies
        - Multiple hard inquiries negatively affect credit scores
      ";
     pageReference := Some "Page 1-15" |};
  {| title := "CRC Advanced Disputing Workbook";
     kind := Workbook;
     content := "
        Furnisher Framework - Apply Maximum Pressure:
        - Must apply constant pressure to all areas, not just bureaus
        - Furnishers include creditors, banks, lenders, collection agencies, landlords, courts
        - Fair Debt Collection Practices Act (FDCPA) gives additional rights for 3rd party collectors
        - Debt validation puts burden of proof on 3rd party debt collectors
        - Estoppel by silence strategy when debt collectors fail to respond
        - Personal information cleanup techniques
        - Inquiry removal strategies
        - Late payment removal tactics
        - Collection elimination methods
        - HIPAA laws for medical collections
        - Charge-off removal strategies
        - Student loan dispute techniques
        - Repossession removal methods
        - Short sale deletion strategies
        - Identity theft resolution
        - Bankruptcy and public record deletion
        - FCRA attorney utilization
      ";
     pageReference := Some "Page 3-46" |};
  {| title := "CRC Top 10 Advanced Dispute Letters";
     kind := Letters;
     content := "
        Advanced Letter Strategies:
        1. Bureau Warning - Fire warning shot when bureaus play games or respond inappropriately
        2. Furnisher Warning - Similar to bureau warning but for furnishers who ignore requests
        3. Validation of Debt - Pause collection efforts, deter collectors without sufficient info
        4. Validation of Debt (Estoppel by Silence) - When collectors ignore validation requests
        5. Validation of Medical Debt (HIPAA Request) - Specialized for medical collections
        6. Goodwill Adjustment Letter - Request removal based on goodwill
        7. Debt Settlement Offer - Negotiate settlement terms
        8. Pay for Delete Letter - Negotiate removal in exchange for payment
        9. Method of Verification - Challenge verification methods used
        10. Identity Theft Dispute (With Affidavit) - Comprehensive identity theft resolution
        
        Key Legal References:
        - Fair Credit Reporting Act (FCRA) violations
        - Fair Debt Collection Practices Act (FDCPA) violations
        - 15 U.S.C. Sec. 1681i(a) - 30-day reinvestigation requirement
        - 15 USC 1692g Sec. 809 (8) - Debt validation rights
        - CFPB, FTC, and state attorney general complaint processes
      ";
     pageReference := Some "Page 1-292" |};
  {| title := "CRC Short Sales Strategy";
     kind := Strategy;
     content := "
        Short Sale Deletion Process:
        1. Dispute short sale with 3 credit bureaus as inaccurate
        2. Send dispute letter directly to lender requesting current status
        3. Wait for lender response confirming " +:+ Js.dquote +:+ "short sale" +:+ Js.dquote +:+ " status
        4. File CFPB complaint when bureaus report as foreclosure but lender confirms short sale
        5. Send bureau warning letter with CFPB complaint proof
        
        Key Legal Strategy:
        - Bureaus often incorrectly report short sales as foreclosures
        - Lender verification creates evidence of bureau inaccuracy
        - CFPB complaint adds regulatory pressure
        - Warning letter threatens lawsuit if not immediately removed
        - Process leverages discrepancy between bureau and furnisher reporting
      ";
     pageReference := Some "Page 1-5" |}
].

Definition getAllSources : list CRCKnowledgeSource := sources.

Definition searchKnowledge (topic : string) : list CRCKnowledgeSource :=
  let searchTerm := toLowerCase topic in
  List.filter
    (fun source =>
       includes (toLowerCase (content source)) searchTerm
       || includes (toLowerCase (title source)) searchTerm)
    sources.

End Knowledge.

(* ===================================================================== *)
(** ** The progress notices of the batch loop                              *)
(* ===================================================================== *)

Module Progress.
Import Js Routes.

(** What one [sendProgress] call of [processInBatches] announces:
    "Processing batch [batchNumber] of [batchCount] ([batchItems] items)". *)
Record BatchNotice : Type := {
  batchNumber : nat;
  batchCount : nat;
  batchItems : nat
}.

(** [Math.ceil(n / d)] on lengths *)
Definition ceil_div (n d : nat) : nat := ((n + d - 1) / d)%nat.

(** The notices of the [for] loop of [processInBatches], from position [i];
    the loop is the one of [Routes.batchLoop]. *)
Fixpoint batchNotices {A} (fuel : nat) (items : list A) (batchSize : nat) (i : nat)
  : list BatchNotice :=
  match fuel with
  | O => []
  | S fuel' =>
      if (i <? List.length items)%nat then
        let batch := firstn batchSize (skipn i items) in
        {| batchNumber := (i / batchSize + 1)%nat;
           batchCount := ceil_div (List.length items) batchSize;
           batchItems := List.length batch |}
          :: batchNotices fuel' items batchSize (i + batchSize)
      else []
  end.

Definition progressNotices {A} (items : list A) (batchSize : nat) : list BatchNotice :=
  batchNotices (List.length items) items batchSize 0.

End Progress.

(* ===================================================================== *)
(** ** The callers in the client                                           *)
(* ===================================================================== *)

Module Client.
Import Js JsDate Routes.

(** The filter callback of [handleAiScan] for negative accounts (the same
    tests as [isNegativeAccount]). *)
Definition isNegativeAccount (account : JsValue) : bool :=
  if is_str (get account "@_DerogatoryDataIndicator") "Y" then true
  else if is_str (get account "@IsCollectionIndicator") "true"
          || is_str (get account "@IsCollectionIndicator") "Y" then true
  else if is_str (get account "@IsChargeoffIndicator") "true"
          || is_str (get account "@IsChargeoffIndicator") "Y" then true
  else if num_gt (parseInt (or_else (get account "@_PastDueAmount") (VStr "0"))) (Some 0)
       then true
  else if (let currentRating := get_opt (get account "_CURRENT_RATING") "@_Code" in
           truthy currentRating
           && existsb (is_str currentRating) ["2"; "3"; "4"; "5"; "6"; "7"; "8"; "9"])
       then true
  else if truthy (get account "@_ChargeOffDate") then true
  else false.

Definition isPublicRecordAccount (account : JsValue) : bool :=
  truthy (get account "@_AccountType")
  && existsb (is_str (get account "@_AccountType"))
             ["13"; "14"; "15"; "16"; "93"; "94"; "95"].

(** [monthsAgo] is the time value of
    [new Date(today.getFullYear(), today.getMonth() - 24, today.getDate())]. *)
Definition isRecentInquiry (h : Host) (monthsAgo : Z) (inquiry : JsValue) : bool :=
  num_gt (newDate h (get inquiry "@_InquiryDate")) (Some monthsAgo).

(** What can throw in the filter callbacks: [parseInt] converts the past
    due amount when the first three tests fail; [new Date] converts the
    inquiry date. *)
Definition negativeAccountCheck (account : JsValue) : Completion unit :=
  if is_str (get account "@_DerogatoryDataIndicator") "Y" then Return tt
  else if is_str (get account "@IsCollectionIndicator") "true"
          || is_str (get account "@IsCollectionIndicator") "Y" then Return tt
  else if is_str (get account "@IsChargeoffIndicator") "true"
          || is_str (get account "@IsChargeoffIndicator") "Y" then Return tt
  else bind (toStringC (or_else (get account "@_PastDueAmount") (VStr "0")))
            (fun _ => Return tt).

Definition recentInquiryCheck (inquiry : JsValue) : Completion unit :=
  bind (toStringC (get inquiry "@_InquiryDate")) (fun _ => Return tt).

(** The request body [handleAiScan] builds from the loaded report; a thrown
    error is caught by [handleAiScan]. *)
Definition requestPayload (h : Host) (monthsAgo : Z) (creditData : JsValue)
  : Completion JsValue :=
  bind (as_items (or_else (get_opt (get_opt creditData "CREDIT_RESPONSE") "CREDIT_LIABILITY")
                          (VArr []))) (fun creditLiabilityData =>
  bind (mapM negativeAccountCheck creditLiabilityData) (fun _ =>
  let negativeAccounts := List.filter isNegativeAccount creditLiabilityData in
  let publicRecords := List.filter isPublicRecordAccount creditLiabilityData in
  bind (as_items (or_else (get_opt (get_opt creditData "CREDIT_RESPONSE") "CREDIT_INQUIRY")
                          (VArr []))) (fun inquiriesData =>
  bind (mapM recentInquiryCheck inquiriesData) (fun _ =>
  let recentInquiries := List.filter (isRecentInquiry h monthsAgo) inquiriesData in
  Return (VObj [("CREDIT_LIABILITY", VArr negativeAccounts);
                ("PUBLIC_RECORD", VArr publicRecords);
                ("INQUIRY", VArr recentInquiries)]))))).

(** The state [handleAiScan] and [handleScanError] write. *)
Record ScanUiState : Type := {
  aiViolations : gmap string (list string);
  aiSuggestions : gmap string (list string);
  summaryTotalViolations : nat;
  summaryAffectedAccounts : nat;
  aiScanCompleted : bool;
  showAiSummary : bool;
  isAiScanning : bool;
  scanProgress : Z;
  scanMessage : string
}.

Definition handleScanError (st : ScanUiState) : ScanUiState :=
  {| aiViolations := ∅;
     aiSuggestions := aiSuggestions st;
     summaryTotalViolations := 0;
     summaryAffectedAccounts := 0;
     aiScanCompleted := aiScanCompleted st;
     showAiSummary := true;
     isAiScanning := false;
     scanProgress := 0;
     scanMessage := "Analysis completed using compliance database" |}.

(** [response.ok] *)
Definition response_ok (r : Response) : bool :=
  (200 <=? status r) && (status r <=? 299).

(** [handleAiScan]: [server] is the round trip of [fetch('/api/ai-scan')]
    with the serialized request. *)
Definition handleAiScan (h : Host) (monthsAgo : Z) (server : JsValue -> Response)
    (creditData : JsValue) (st : ScanUiState) : ScanUiState :=
  match requestPayload h monthsAgo creditData with
  | Throw _ => handleScanError st
  | Return request =>
      let response := server request in
      if response_ok response then
        {| aiViolations := match body response with
                           | ScanBody result => violations result
                           | FailureBody _ => ∅
                           end;
           aiSuggestions := match body response with
                            | ScanBody result => suggestions result
                            | FailureBody _ => ∅
                            end;
           summaryTotalViolations := match body response with
                                     | ScanBody result => totalViolations result
                                     | FailureBody _ => 0
                                     end;
           summaryAffectedAccounts := match body response with
                                      | ScanBody result => affectedAccounts result
                                      | FailureBody _ => 0
                                      end;
           aiScanCompleted := true;
           showAiSummary := true;
           isAiScanning := false;
           scanProgress := 100;
           scanMessage := "Analysis complete!" |}
      else handleScanError st
  end.

End Client.

(* ===================================================================== *)
(** ** Reference definitions for the further properties                    *)
(* ===================================================================== *)

Module More.
Import Js Validator Routes.

(** The texts of a result have pairwise different trimmed forms. *)
Definition distinct_texts {A} (text : A -> string) (l : list A) : Prop :=
  NoDup (map (fun x => trim (text x)) l).

(** The category ranks of the texts never decrease along the list. *)
Fixpoint ranks_ascend {A} (text : A -> string) (l : list A) : Prop :=
  match l with
  | [] => True
  | x :: r =>
      Forall (fun y => (Spec.category_rank (text x) <= Spec.category_rank (text y))%nat) r
      /\ ranks_ascend text r
  end.

(** A violation text opens with one of the three category headings. *)
Definition has_heading (t : string) : bool :=
  startsWith t "Metro 2 Violation: " || startsWith t "FCRA Violation: "
  || startsWith t "FDCPA Violation: ".

(** The phrases [parseResponse] rejects *)
Definition rejectedPhrases : list string :=
  ["none identified"; "no violations identified"; "none apparent"; "not applicable";
   "n/a"; "no violation"; "none found"].


(** The values an evaluation of [validateAccount] converts to a string:
    the arguments of [parseFloat], [parseInt] and [new Date] that are
    reached. *)
Definition accountConverted (account : JsValue) : list JsValue :=
  Spec.opt (truthy (get account "PastDueAmount")) (get account "PastDueAmount")
  ++ Spec.opt (truthy (get account "@_TermsDuration")
               && negb (not_num3 (length_of (get account "@_TermsDuration"))))
              (get account "@_TermsDuration")
  ++ [or_else (get account "@_CurrentBalance") (VStr "0");
      or_else (get account "@_CreditLimit") (VStr "0")]
  ++ Spec.opt (truthy (get account "@_DateOpened")) (get account "@_DateOpened")
  ++ Spec.opt (is_str (get account "@IsCollectionIndicator") "Y"
               || is_str (get account "@IsCollectionIndicator") "true")
              (or_else (get account "@_OriginalBalance") (VStr "0"))
  ++ Spec.opt ((is_str (get account "@IsChargeoffIndicator") "Y"
                || is_str (get account "@IsChargeoffIndicator") "true")
               && truthy (get account "@_DateLastActivity"))
              (get account "@_DateLastActivity").






(** The id writes of the static scan and of the suggestions, as keys *)
Definition staticKeys (accounts records inquiries : list JsValue) : list string :=
  imap (fun i x => toString (staticAccountId x i)) accounts
  ++ imap (fun i x => toString (staticRecordId x i)) records
  ++ imap (fun i x => toString (staticInquiryId x i)) inquiries.

(** The ids under which an assisted scan files its lists: one per work
    item, then one per remaining public record. *)
Definition remainingKey (i : nat) (record : JsValue) : string :=
  toString (remainingRecordId i record).

Definition assistedKeys (items : list WorkItem) (remaining : list JsValue) : list string :=
  imap (fun i w => toString (aiItemId w i)) items ++ imap remainingKey remaining.


(** Two of the texts [generateValidatedSuggestions] can answer with *)
Definition duplicateSuggestion : string :=
  "Use CRC Warning Strategy: Request removal of duplicate account entries and consolidation of accurate account information.".

Definition outdatedSuggestion : string :=
  "Implement CRC Basic Disputing: Request removal of outdated information that exceeds the legal reporting period under FCRA guidelines.".

End More.

(* ===================================================================== *)
(** ** Facts about the built-ins                                           *)
(* ===================================================================== *)

Local Open Scope list_scope.

Section BuiltinFacts.
Import Js.

Lemma findIndex_nonneg_lt {A} (p : A -> bool) (l : list A) :
  existsb p l = true -> 0 <= findIndex p l < Z.of_nat (List.length l).
Proof.
  induction l as [|x r IH]; simpl; [discriminate|].
  destruct (p x) eqn:Hp; simpl.
  - intros _. lia.
  - intros H. specialize (IH H).
    destruct (findIndex p r <? 0) eqn:E; [apply Z.ltb_lt in E; lia | lia].
Qed.

Lemma findIndex_none {A} (p : A -> bool) (l : list A) :
  existsb p l = false -> findIndex p l = -1.
Proof.
  induction l as [|x r IH]; simpl; [reflexivity|].
  destruct (p x); simpl; [discriminate|].
  intros H. rewrite (IH H). reflexivity.
Qed.

Lemma findIndex_app {A} (p : A -> bool) (l1 l2 : list A) :
  findIndex p (l1 ++ l2) =
  if existsb p l1 then findIndex p l1
  else if existsb p l2 then Z.of_nat (List.length l1) + findIndex p l2 else -1.
Proof.
  induction l1 as [|x r IH].
  - cbn [app existsb List.length]. destruct (existsb p l2) eqn:E.
    + lia.
    + now apply findIndex_none.
  - cbn [app findIndex existsb List.length]. destruct (p x); [reflexivity|].
    cbn [orb]. rewrite IH.
    destruct (existsb p r) eqn:E1; [reflexivity|].
    destruct (existsb p l2) eqn:E2.
    + pose proof (findIndex_nonneg_lt p l2 E2) as Hb.
      destruct (Z.of_nat (List.length r) + findIndex p l2 <? 0) eqn:E3;
        [apply Z.ltb_lt in E3; lia | lia].
    + reflexivity.
Qed.

(** The index filter of both deduplication functions keeps exactly the
    first occurrences. *)
Lemma filter_from_first_occurrences {A} (key : A -> string) (l pre seen : list A) :
  (forall v, existsb (fun y => (key y =? key v)%string) seen
             = existsb (fun y => (key y =? key v)%string) pre) ->
  filter_from (Z.of_nat (List.length pre))
    (fun v index => index =? findIndex (fun w => (key w =? key v)%string) (pre ++ l)) l
  = Spec.first_occurrences key seen l.
Proof.
  revert pre seen. induction l as [|x r IH]; intros pre seen Hseen; [reflexivity|].
  cbn [filter_from Spec.first_occurrences].
  rewrite findIndex_app. cbn [existsb findIndex].
  rewrite String.eqb_refl. cbn [orb]. rewrite Hseen.
  assert (Hlen : Z.of_nat (List.length pre) + 1 = Z.of_nat (List.length (pre ++ [x])))
    by (rewrite List.length_app; simpl; lia).
  assert (Hlist : pre ++ x :: r = (pre ++ [x]) ++ r)
    by (rewrite <- List.app_assoc; reflexivity).
  rewrite Hlen, Hlist.
  destruct (existsb (fun y => (key y =? key x)%string) pre) eqn:E.
  - pose proof (findIndex_nonneg_lt _ pre E) as Hb.
    destruct (Z.of_nat (List.length pre) =? findIndex _ pre) eqn:E2;
      [apply Z.eqb_eq in E2; lia|].
    apply IH. intros v. rewrite Hseen, existsb_app. cbn [existsb].
    destruct (key x =? key v)%string eqn:Ek; [|now rewrite !orb_false_r].
    apply String.eqb_eq in Ek. rewrite <- Ek, E. reflexivity.
  - rewrite Z.add_0_r, Z.eqb_refl. f_equal.
    apply IH. intros v. rewrite !existsb_app, Hseen. reflexivity.
Qed.

End BuiltinFacts.

(* ===================================================================== *)
(** ** Completions and conversions                                         *)
(* ===================================================================== *)

Section CompletionFacts.
Import Js Validator Routes.

Lemma mapM_Return {A B} (f : A -> Completion B) l ys :
  mapM f l = Return ys -> Forall2 (fun x y => f x = Return y) l ys.
Proof.
  revert ys. induction l as [|x r IH]; intros ys; cbn [mapM].
  - intros [= <-]. constructor.
  - destruct (f x) as [y|] eqn:Ex; cbn [bind]; [|discriminate].
    destruct (mapM f r) as [ys'|]; cbn [bind]; [|discriminate].
    intros [= <-]. constructor; [exact Ex | now apply IH].
Qed.

Lemma mapM_Throw {A B} (f : A -> Completion B) l msg :
  mapM f l = Throw msg -> exists x, In x l /\ f x = Throw msg.
Proof.
  induction l as [|x r IH]; cbn [mapM]; [discriminate|].
  destruct (f x) as [y|m] eqn:Ex; cbn [bind].
  - destruct (mapM f r) as [ys|m]; cbn [bind]; [discriminate|].
    intros [= <-]. destruct (IH eq_refl) as (x' & Hin & Hx').
    exists x'. split; [now right | exact Hx'].
  - intros [= <-]. exists x. split; [now left | exact Ex].
Qed.

Lemma mapM_returns {A B} (f : A -> Completion B) l :
  Forall (fun x => exists y, f x = Return y) l -> exists ys, mapM f l = Return ys.
Proof.
  induction 1 as [|x r [y Hy] _ [ys Hys]]; cbn [mapM]; [now eexists|].
  rewrite Hy, Hys. cbn [bind]. now eexists.
Qed.

Lemma mapM_total {A B} (f : A -> Completion B) (g : A -> B) l :
  (forall x, In x l -> f x = Return (g x)) -> mapM f l = Return (map g l).
Proof.
  induction l as [|x r IH]; intros H; cbn [mapM map]; [reflexivity|].
  rewrite (H x) by now left. cbn [bind].
  rewrite IH by (intros y Hy; apply H; now right). reflexivity.
Qed.


Lemma returns_false {A} (c : Completion A) :
  returns c = false <-> exists msg, c = Throw msg.
Proof.
  destruct c; cbn; split; try discriminate; eauto. now intros [? ?].
Qed.

Lemma returns_bind {A B} (c : Completion A) (K : Completion B) :
  returns (bind c (fun _ => K)) = returns c && returns K.
Proof. now destruct c. Qed.

Lemma returns_bind_total {A B} (c : Completion A) (k : A -> Completion B) :
  (forall a, returns (k a) = true) -> returns (bind c k) = returns c.
Proof. intros H. destruct c; cbn; auto. Qed.

Lemma returns_mapM {A B} (f : A -> Completion B) l :
  returns (mapM f l) = forallb (fun x => returns (f x)) l.
Proof.
  induction l as [|x r IH]; cbn [mapM forallb]; [reflexivity|].
  destruct (f x); cbn [bind returns andb]; [|reflexivity].
  rewrite <- IH. now destruct (mapM f r).
Qed.

Lemma forallb_ext_in {A} (f g : A -> bool) l :
  (forall x, In x l -> f x = g x) -> forallb f l = forallb g l.
Proof.
  induction l as [|x r IH]; intros H; cbn [forallb]; [reflexivity|].
  rewrite (H x) by now left. rewrite IH; [reflexivity|].
  intros y Hy. apply H. now right.
Qed.

Lemma forallb_imap_pair {A} (f : nat -> A -> bool) (l : list A) :
  forallb (fun p => f (fst p) (snd p)) (imap (fun i x => (i, x)) l) = true
  <-> forall i x, l !! i = Some x -> f i x = true.
Proof.
  rewrite forallb_forall. split.
  - intros H i x Hx. apply (H (i, x)).
    apply list_elem_of_In, elem_of_lookup_imap. now exists i, x.
  - intros H p Hp. apply list_elem_of_In, elem_of_lookup_imap in Hp as (i & x & -> & Hx).
    now apply H.
Qed.


Lemma forallb_opt {A} (p : A -> bool) (c : bool) (v : A) :
  forallb p (Spec.opt c v) = negb c || p v.
Proof. destruct c; cbn; [now rewrite andb_true_r | reflexivity]. Qed.

(** *** Conversions to a string *)

Lemma toStringC_converts v : converts v = true -> toStringC v = Return (toString v).
Proof. unfold toStringC. now intros ->. Qed.

Lemma toStringC_Return v s : toStringC v = Return s -> converts v = true /\ s = toString v.
Proof. unfold toStringC. destruct (converts v); [intros [= <-]; auto | discriminate]. Qed.

Lemma toStringC_Throw v msg : toStringC v = Throw msg -> converts v = false /\ msg = typeError.
Proof. unfold toStringC. destruct (converts v); [discriminate | intros [= <-]; auto]. Qed.

Lemma returns_toStringC v : returns (toStringC v) = converts v.
Proof. unfold toStringC. now destruct (converts v). Qed.

Lemma returns_if_toStringC (c : bool) v :
  returns (if c then toStringC v else Return "") = negb c || converts v.
Proof. destruct c; [apply returns_toStringC | reflexivity]. Qed.

Lemma converts_or_else a b :
  converts b = true -> converts (or_else a b) = negb (truthy a) || converts a.
Proof. unfold or_else. intros Hb. destruct (truthy a); [reflexivity | exact Hb]. Qed.

(** A string, a number, a boolean, [null] and [undefined] convert. *)
Lemma converts_primitive v :
  match v with VArr _ | VObj _ => False | _ => True end -> converts v = true.
Proof. destruct v; cbn; tauto. Qed.

(** *** The validators: when they complete, and with what *)

Lemma generateCRCViolationsC_eq h a :
  a <> VNull -> a <> VUndefined ->
  Crc.generateCRCViolationsC h a
  = bind (if truthy (get a "PastDueAmount")
          then toStringC (get a "PastDueAmount") else Return "")
         (fun _ => Return (Crc.generateCRCViolations h a)).
Proof. destruct a; try reflexivity; congruence. Qed.

Lemma returns_generateCRCViolationsC h a :
  a <> VNull -> a <> VUndefined ->
  returns (Crc.generateCRCViolationsC h a)
  = negb (truthy (get a "PastDueAmount")) || converts (get a "PastDueAmount").
Proof.
  intros Hn Hu. rewrite generateCRCViolationsC_eq by assumption.
  rewrite returns_bind, returns_if_toStringC. cbn [returns]. apply andb_true_r.
Qed.

Lemma returns_validateAccountC h a :
  a <> VNull -> a <> VUndefined ->
  returns (validateAccountC h a) = forallb converts (More.accountConverted a).
Proof.
  intros Hn Hu.
  unfold validateAccountC, validateMetro2ViolationsC, validateFCRAViolationsC,
    validateFDCPAViolationsC.
  pose proof (returns_generateCRCViolationsC h a Hn Hu) as Hcrc.
  destruct (Crc.generateCRCViolationsC h a) as [crc|]; cbn [returns bind] in *.
  2:{ symmetry. unfold More.accountConverted. rewrite forallb_app, forallb_opt, <- Hcrc.
      reflexivity. }
  cbv zeta.
  unfold More.accountConverted.
  rewrite !forallb_app, !forallb_opt, <- Hcrc. cbn [forallb].
  unfold toStringC.
  repeat match goal with
         | |- context [converts ?v] =>
             let b := fresh "b" in
             destruct (converts v) eqn:?; cbn [bind returns negb andb orb]
         | |- context [if ?c then _ else _] =>
             destruct c eqn:?; cbn [bind returns negb andb orb]
         end;
    try reflexivity; try congruence.
Qed.

Lemma validateAccountC_Return h a r :
  validateAccountC h a = Return r -> r = validateAccount h a.
Proof.
  assert (Hm : forall l, validateMetro2ViolationsC h a = Return l
                         -> l = validateMetro2Violations h a).
  { intros l. unfold validateMetro2ViolationsC. cbv zeta.
    repeat match goal with
           | |- bind ?c _ = _ -> _ => destruct c; cbn [bind]; [|discriminate]
           end.
    now intros [= <-]. }
  assert (Hf : forall l, validateFCRAViolationsC h a = Return l
                         -> l = validateFCRAViolations h a).
  { intros l. unfold validateFCRAViolationsC. cbv zeta.
    repeat match goal with
           | |- bind ?c _ = _ -> _ => destruct c; cbn [bind]; [|discriminate]
           end.
    now intros [= <-]. }
  assert (Hd : forall l, validateFDCPAViolationsC h a = Return l
                         -> l = validateFDCPAViolations h a).
  { intros l. unfold validateFDCPAViolationsC. cbv zeta.
    repeat match goal with
           | |- bind ?c _ = _ -> _ => destruct c; cbn [bind]; [|discriminate]
           end.
    now intros [= <-]. }
  unfold validateAccountC, validateAccount, accountViolations.
  destruct (validateMetro2ViolationsC h a) as [m|]; cbn [bind]; [|discriminate].
  destruct (validateFCRAViolationsC h a) as [f|]; cbn [bind]; [|discriminate].
  destruct (validateFDCPAViolationsC h a) as [d|]; cbn [bind]; [|discriminate].
  intros [= <-]. now rewrite (Hm m), (Hf f), (Hd d).
Qed.

Lemma validateAccountC_Throw h a msg :
  validateAccountC h a = Throw msg -> msg = typeError.
Proof.
  unfold validateAccountC, validateMetro2ViolationsC, validateFCRAViolationsC,
    validateFDCPAViolationsC, Crc.generateCRCViolationsC, toStringC.
  destruct a; cbn [bind]; try (intros [= <-]; reflexivity);
    repeat match goal with
           | |- context [if ?c then _ else _] =>
               destruct c; cbn [bind]; try (intros [= <-]; reflexivity)
           end; discriminate.
Qed.





Lemma validatePublicRecordC_Return h r x :
  validatePublicRecordC h r = Return x -> x = validatePublicRecord h r.
Proof.
  unfold validatePublicRecordC.
  destruct r; try discriminate;
    (destruct (if truthy _ then _ else _); cbn [bind]; [|discriminate]);
    now intros [= <-].
Qed.

Lemma validateInquiryC_Return h q x :
  validateInquiryC h q = Return x -> x = validateInquiry h q.
Proof.
  unfold validateInquiryC.
  destruct q; try discriminate;
    (destruct (if truthy _ then _ else _); cbn [bind]; [|discriminate]);
    now intros [= <-].
Qed.

Lemma validatePublicRecordC_Throw h r msg :
  validatePublicRecordC h r = Throw msg -> msg = typeError.
Proof.
  unfold validatePublicRecordC, toStringC.
  destruct r; try (intros [= <-]; reflexivity);
    repeat match goal with
           | |- context [if ?c then _ else _] =>
               destruct c; cbn [bind]; try (intros [= <-]; reflexivity)
           end; discriminate.
Qed.

Lemma validateInquiryC_Throw h q msg :
  validateInquiryC h q = Throw msg -> msg = typeError.
Proof.
  unfold validateInquiryC, toStringC.
  destruct q; try (intros [= <-]; reflexivity);
    repeat match goal with
           | |- context [if ?c then _ else _] =>
               destruct c; cbn [bind]; try (intros [= <-]; reflexivity)
           end; discriminate.
Qed.

End CompletionFacts.

(* ===================================================================== *)
(** ** The normalizer: deduplication and category order                    *)
(* ===================================================================== *)

Section SortFacts.
Import Js.
Context {A : Type} (cmp : A -> A -> Z) (rk : A -> nat).
Hypothesis cmp_rank : forall a b, (cmp a b <=? 0) = (rk a <=? rk b)%nat.

Lemma by_rank_nil lo n : Spec.by_rank rk lo n [] = [].
Proof. revert lo. induction n as [|n IH]; intros lo; [reflexivity|]. simpl. apply IH. Qed.

Lemma by_rank_lower_bound lo n l :
  Forall (fun y => (lo <= rk y)%nat) (Spec.by_rank rk lo n l).
Proof.
  revert lo. induction n as [|n IH]; intros lo; simpl; [constructor|].
  apply Forall_app. split.
  - apply List.Forall_forall. intros y Hy. apply filter_In in Hy as [_ Hy].
    apply Nat.eqb_eq in Hy. lia.
  - eapply List.Forall_impl; [|apply IH]. simpl. intros; lia.
Qed.

Lemma by_rank_cons_outside lo n x l :
  (rk x < lo \/ lo + n <= rk x)%nat ->
  Spec.by_rank rk lo n (x :: l) = Spec.by_rank rk lo n l.
Proof.
  revert lo. induction n as [|n IH]; intros lo Hout; [reflexivity|].
  cbn [Spec.by_rank List.filter].
  destruct (rk x =? lo)%nat eqn:E; [apply Nat.eqb_eq in E; lia|].
  rewrite IH by lia. reflexivity.
Qed.

Lemma sort_insert_skip x l1 l2 :
  Forall (fun y => (rk y < rk x)%nat) l1 ->
  sort_insert cmp x (l1 ++ l2) = l1 ++ sort_insert cmp x l2.
Proof.
  induction 1 as [|y l1 Hy _ IH]; [reflexivity|].
  cbn [app sort_insert]. rewrite cmp_rank.
  destruct (rk x <=? rk y)%nat eqn:E; [apply Nat.leb_le in E; lia|].
  now rewrite IH.
Qed.

Lemma sort_insert_front x l :
  Forall (fun y => (rk x <= rk y)%nat) l -> sort_insert cmp x l = x :: l.
Proof.
  destruct 1 as [|y l Hy _]; [reflexivity|].
  cbn [sort_insert]. rewrite cmp_rank.
  apply Nat.leb_le in Hy. now rewrite Hy.
Qed.

Lemma sort_insert_by_rank lo n x l :
  (lo <= rk x < lo + n)%nat ->
  sort_insert cmp x (Spec.by_rank rk lo n l) = Spec.by_rank rk lo n (x :: l).
Proof.
  revert lo. induction n as [|n IH]; intros lo Hx; [lia|].
  cbn [Spec.by_rank List.filter].
  destruct (rk x =? lo)%nat eqn:E.
  - apply Nat.eqb_eq in E.
    rewrite by_rank_cons_outside by lia.
    rewrite sort_insert_front; [reflexivity|].
    eapply List.Forall_impl; [|apply (by_rank_lower_bound lo (S n) l)].
    simpl. intros; lia.
  - apply Nat.eqb_neq in E.
    rewrite sort_insert_skip.
    + rewrite IH by lia. reflexivity.
    + apply List.Forall_forall. intros y Hy. apply filter_In in Hy as [_ Hy].
      apply Nat.eqb_eq in Hy. lia.
Qed.

(** The comparator sort is the stable ordering by rank. *)
Lemma sort_by_rank n l :
  Forall (fun x => (rk x < n)%nat) l -> sort cmp l = Spec.by_rank rk 0 n l.
Proof.
  induction 1 as [|x l Hx _ IH]; simpl.
  - now rewrite by_rank_nil.
  - rewrite IH. apply sort_insert_by_rank. lia.
Qed.

End SortFacts.

Section Normalizer.
Import Js Validator.

Lemma compareCategory_rank a b :
  (compareCategory a b <=? 0) = (Spec.category_rank a <=? Spec.category_rank b)%nat.
Proof.
  unfold compareCategory, Spec.category_rank.
  destruct (includes a "Metro 2"), (includes b "Metro 2"),
           (includes a "FCRA"), (includes b "FCRA"),
           (includes a "FDCPA"), (includes b "FDCPA"); reflexivity.
Qed.

Lemma category_rank_bound s : (Spec.category_rank s < 8)%nat.
Proof.
  unfold Spec.category_rank.
  destruct (includes s "Metro 2"), (includes s "FCRA"), (includes s "FDCPA"); simpl; lia.
Qed.

Lemma sort_stable_by_category {A} (text : A -> string) (l : list A) :
  sort (fun a b => compareCategory (text a) (text b)) l = Spec.stable_by_category text l.
Proof.
  unfold Spec.stable_by_category.
  apply (sort_by_rank _ (fun x => Spec.category_rank (text x))).
  - intros a b. apply compareCategory_rank.
  - apply List.Forall_forall. intros x _. apply category_rank_bound.
Qed.

Lemma dedup_first_occurrences {A} (text : A -> string) (l : list A) :
  filter_indexed
    (fun v index =>
       index =? findIndex (fun w => (trim (text w) =? trim (text v))%string) l) l
  = Spec.spec_dedup text l.
Proof.
  unfold filter_indexed, Spec.spec_dedup.
  apply (filter_from_first_occurrences (fun x => trim (text x)) l [] []).
  reflexivity.
Qed.

Lemma removeDuplicatesAndSort_spec vs :
  removeDuplicatesAndSort vs
  = Spec.stable_by_category violation (Spec.spec_dedup violation vs).
Proof.
  unfold removeDuplicatesAndSort.
  rewrite (dedup_first_occurrences violation vs).
  apply sort_stable_by_category.
Qed.

Lemma removeDuplicateSuggestions_spec ss :
  removeDuplicateSuggestions ss
  = Spec.stable_by_category (fun s => s) (Spec.spec_dedup (fun s => s) ss).
Proof.
  unfold removeDuplicateSuggestions.
  rewrite (dedup_first_occurrences (fun s => s) ss).
  apply (sort_stable_by_category (fun s : string => s)).
Qed.

Lemma filter_ext_Forall {A} (P : A -> Prop) (p q : A -> bool) (l : list A) :
  Forall P l -> (forall x, P x -> p x = q x) -> List.filter p l = List.filter q l.
Proof.
  intros Hl Hpq. induction Hl as [|x l Hx _ IH]; [reflexivity|].
  cbn [List.filter]. rewrite IH, (Hpq x Hx). reflexivity.
Qed.

Ltac tag_cases t :=
  unfold Spec.single_tag, Spec.category_rank;
  destruct (includes t "Metro 2"), (includes t "FCRA"), (includes t "FDCPA");
  simpl; intros; try discriminate; try reflexivity.

(** On texts that hold at most one tag the eight rank groups collapse to
    the four parts of the specification. *)
Lemma stable_is_partition_single_tag {A} (text : A -> string) (l : list A) :
  Forall (fun x => Spec.single_tag (text x) = true) l ->
  Spec.stable_by_category text l = Spec.spec_partition text l.
Proof.
  intros Hs. unfold Spec.stable_by_category, Spec.spec_partition. cbn [Spec.by_rank].
  assert (Hnil : forall k, (k = 0 \/ k = 1 \/ k = 2 \/ k = 4)%nat ->
            List.filter (fun x => (Spec.category_rank (text x) =? k)%nat) l = []).
  { intros k Hk.
    rewrite (filter_ext_Forall _ _ (fun _ => false) l Hs).
    - clear. induction l as [|x l IH]; [reflexivity|]. exact IH.
    - intros x. destruct Hk as [->|[->|[->| ->]]]; tag_cases (text x). }
  rewrite (Hnil 0%nat), (Hnil 1%nat), (Hnil 2%nat), (Hnil 4%nat) by tauto. cbn [app].
  rewrite (filter_ext_Forall _ (fun x => (Spec.category_rank (text x) =? 3)%nat)
             (fun x => includes (text x) "Metro 2") l Hs)
    by (intros x; tag_cases (text x)).
  rewrite (filter_ext_Forall _ (fun x => (Spec.category_rank (text x) =? 5)%nat)
             (fun x => negb (includes (text x) "Metro 2") && includes (text x) "FCRA") l Hs)
    by (intros x; tag_cases (text x)).
  rewrite (filter_ext_Forall _ (fun x => (Spec.category_rank (text x) =? 6)%nat)
             (fun x => negb (includes (text x) "Metro 2") && negb (includes (text x) "FCRA")
                       && includes (text x) "FDCPA") l Hs)
    by (intros x; tag_cases (text x)).
  rewrite (filter_ext_Forall _ (fun x => (Spec.category_rank (text x) =? 7)%nat)
             (fun x => negb (includes (text x) "Metro 2") && negb (includes (text x) "FCRA")
                       && negb (includes (text x) "FDCPA")) l Hs)
    by (intros x; tag_cases (text x)).
  rewrite app_nil_r. reflexivity.
Qed.

End Normalizer.

Section NormalizerClaims.
Import Js Validator.

(** C6, as stated, fails: the two Metro 2 violations of a charged-off
    collection account come out in the opposite order of the input, because
    the second one also holds the tag "FDCPA"; a partition that keeps the
    relative order inside the Metro 2 part would leave them as they are. *)
Lemma C6_partition_order_counterexample :
  let vs := validateMetro2Violations Spec.exampleHost Examples.chargeoffCollectionAccount in
  map violation vs =
    ["Metro 2 Violation: Charge-off reporting without proper validation - CRC Advanced Disputing shows charge-offs don't mean debt forgiveness [Field 06]";
     "Metro 2 Violation: Collection reporting without FDCPA compliance - CRC knowledge requires 3rd party collector validation [Field 07]"]
  /\ map violation (removeDuplicatesAndSort vs) = rev (map violation vs)
  /\ Spec.spec_partition violation (Spec.spec_dedup violation vs) = vs
  /\ removeDuplicatesAndSort vs <> Spec.spec_partition violation (Spec.spec_dedup violation vs).
Proof.
  cbv zeta. repeat split; try (vm_compute; reflexivity).
  vm_compute. discriminate.
Qed.

(** C6 (amended). Both normalizers keep the first occurrence of every text
    up to trimming, then order the result stably by the triple
    (holds "Metro 2", holds "FCRA", holds "FDCPA"), a text holding a tag
    before one that does not, the earlier tag deciding first. When no text
    holds more than one tag this is the partition Metro 2 / FCRA / FDCPA /
    rest with the relative order kept inside every part. *)
Theorem C6_normalizer_dedup_then_category_order
    (vs : list ValidatedViolation) (ss : list string) :
  removeDuplicatesAndSort vs
    = Spec.stable_by_category violation (Spec.spec_dedup violation vs)
  /\ removeDuplicateSuggestions ss
    = Spec.stable_by_category (fun s => s) (Spec.spec_dedup (fun s => s) ss)
  /\ (Forall (fun v => Spec.single_tag (violation v) = true) vs ->
      removeDuplicatesAndSort vs
        = Spec.spec_partition violation (Spec.spec_dedup violation vs))
  /\ (Forall (fun s => Spec.single_tag s = true) ss ->
      removeDuplicateSuggestions ss
        = Spec.spec_partition (fun s => s) (Spec.spec_dedup (fun s => s) ss)).
Proof.
  assert (Hsub : forall {A} (text : A -> string) (P : A -> Prop) seen l,
             Forall P l -> Forall P (Spec.first_occurrences (fun x => trim (text x)) seen l)).
  { intros A text P seen l Hl. revert seen.
    induction Hl as [|x l Hx _ IH]; intros seen; cbn [Spec.first_occurrences]; [constructor|].
    destruct (existsb _ seen); [apply IH | constructor; [exact Hx | apply IH]]. }
  split; [apply removeDuplicatesAndSort_spec|].
  split; [apply removeDuplicateSuggestions_spec|].
  split; intros H.
  - rewrite removeDuplicatesAndSort_spec.
    apply stable_is_partition_single_tag. now apply Hsub.
  - rewrite removeDuplicateSuggestions_spec.
    apply (stable_is_partition_single_tag (fun s : string => s)).
    now apply (Hsub string (fun s => s)).
Qed.

Lemma C6_normalizer_witness :
  Forall (fun s => Spec.single_tag s = true)
         ["FDCPA c"; " Metro 2 a"; "x"; "FCRA b"; "Metro 2 a  "; "Metro 2 d"]
  /\ removeDuplicateSuggestions
       ["FDCPA c"; " Metro 2 a"; "x"; "FCRA b"; "Metro 2 a  "; "Metro 2 d"]
     = [" Metro 2 a"; "Metro 2 d"; "FCRA b"; "FDCPA c"; "x"].
Proof.
  assert (H : Forall (fun s => Spec.single_tag s = true)
                ["FDCPA c"; " Metro 2 a"; "x"; "FCRA b"; "Metro 2 a  "; "Metro 2 d"])
    by (repeat constructor).
  split; [exact H|].
  rewrite (proj2 (proj2 (proj2 (C6_normalizer_dedup_then_category_order [] _))) H).
  reflexivity.
Defined.

End NormalizerClaims.

(* ===================================================================== *)
(** ** The formatting step keeps the emitted violations                    *)
(* ===================================================================== *)

Section FormatFacts.
Import Js Validator.

Lemma sort_insert_perm {A} (cmp : A -> A -> Z) x l :
  Permutation (sort_insert cmp x l) (x :: l).
Proof.
  induction l as [|y r IH]; simpl; [reflexivity|].
  destruct (cmp x y <=? 0); [reflexivity|].
  rewrite IH. apply perm_swap.
Qed.

Lemma sort_perm {A} (cmp : A -> A -> Z) l : Permutation (sort cmp l) l.
Proof.
  induction l as [|x r IH]; simpl; [reflexivity|].
  rewrite sort_insert_perm. now apply perm_skip.
Qed.

Lemma first_occurrences_incl {A} (key : A -> string) seen l x :
  In x (Spec.first_occurrences key seen l) -> In x l.
Proof.
  revert seen. induction l as [|y r IH]; intros seen; cbn [Spec.first_occurrences]; [tauto|].
  destruct (existsb _ seen).
  - intros H. right. eapply IH, H.
  - intros [->|H]; [now left | right; eapply IH, H].
Qed.

Lemma first_occurrences_representative {A} (key : A -> string) seen l v :
  In v l ->
  existsb (fun y => (key y =? key v)%string) seen = false ->
  exists w, In w (Spec.first_occurrences key seen l) /\ key w = key v /\ In w l.
Proof.
  revert seen. induction l as [|x r IH]; intros seen Hin Hseen; [destruct Hin|].
  cbn [Spec.first_occurrences].
  destruct ((key x =? key v)%string) eqn:Ek.
  - apply String.eqb_eq in Ek. rewrite Ek, Hseen.
    exists x. repeat split; [now left | exact Ek | now left].
  - destruct Hin as [->|Hin]; [rewrite String.eqb_refl in Ek; discriminate|].
    destruct (existsb (fun y => (key y =? key x)%string) seen) eqn:Es.
    + destruct (IH seen Hin Hseen) as (w & Hw & Hk & Hl). exists w. auto using in_cons.
    + destruct (IH (seen ++ [x]) Hin) as (w & Hw & Hk & Hl).
      * rewrite existsb_app, Hseen. cbn. now rewrite Ek.
      * exists w. repeat split; [now right | exact Hk | now right].
Qed.

Lemma removeDuplicatesAndSort_incl vs v :
  In v (removeDuplicatesAndSort vs) -> In v vs.
Proof.
  unfold removeDuplicatesAndSort. rewrite (dedup_first_occurrences violation vs).
  intros H. eapply Permutation_in in H; [|apply sort_perm].
  eapply first_occurrences_incl, H.
Qed.

Lemma removeDuplicatesAndSort_keeps vs v :
  In v vs ->
  (forall w, In w vs -> trim (violation w) = trim (violation v) -> w = v) ->
  In v (removeDuplicatesAndSort vs).
Proof.
  intros Hin Huniq.
  unfold removeDuplicatesAndSort. rewrite (dedup_first_occurrences violation vs).
  eapply Permutation_in; [symmetry; apply sort_perm|].
  destruct (first_occurrences_representative (fun x => trim (violation x)) [] vs v Hin eq_refl)
    as (w & Hw & Hk & Hl).
  now rewrite <- (Huniq w Hl Hk).
Qed.

Lemma removeDuplicatesAndSort_nil vs : removeDuplicatesAndSort vs = [] <-> vs = [].
Proof.
  split; [|intros ->; reflexivity].
  destruct vs as [|x r]; [reflexivity|]. intros H.
  assert (Hin : In x (removeDuplicatesAndSort (x :: r))).
  { unfold removeDuplicatesAndSort. rewrite (dedup_first_occurrences violation (x :: r)).
    eapply Permutation_in; [symmetry; apply sort_perm|]. now left. }
  rewrite H in Hin. destruct Hin.
Qed.

(** In the catalog the trimmed text identifies the record. *)
Lemma catalog_text_injective v w :
  In v Spec.catalog -> In w Spec.catalog ->
  trim (violation w) = trim (violation v) -> w = v.
Proof.
  intros Hv Hw.
  assert (Hb : forallb (fun a => forallb (fun b =>
                 implb (trim (violation a) =? trim (violation b))%string
                       ((violation a =? violation b)%string
                        && (source a =? source b)%string
                        && (match page a, page b with
                            | Some x, Some y => (x =? y)%string
                            | None, None => true
                            | _, _ => false
                            end)
                        && (match section a, section b with
                            | Some x, Some y => (x =? y)%string
                            | None, None => true
                            | _, _ => false
                            end)
                        && Bool.eqb (isValidated a) (isValidated b)))
                 Spec.catalog) Spec.catalog = true) by (vm_compute; reflexivity).
  rewrite forallb_forall in Hb. specialize (Hb w Hw).
  rewrite forallb_forall in Hb. specialize (Hb v Hv).
  intros Ht. rewrite Ht, String.eqb_refl in Hb. cbn [implb] in Hb.
  apply andb_prop in Hb as [Hb H5]. apply andb_prop in Hb as [Hb H4].
  apply andb_prop in Hb as [Hb H3]. apply andb_prop in Hb as [H1 H2].
  destruct w as [wv ws wp wsec wi], v as [vv vs vp vsec vi]; cbn in *.
  apply String.eqb_eq in H1. apply String.eqb_eq in H2. apply Bool.eqb_prop in H5.
  subst.
  destruct wp, vp; try discriminate; destruct wsec, vsec; try discriminate;
    repeat match goal with
           | H : (_ =? _)%string = true |- _ => apply String.eqb_eq in H; subst
           end; reflexivity.
Qed.

Lemma format_violations_iff vs v :
  incl vs Spec.catalog ->
  In v (violations (formatValidationResult vs)) <-> In v vs.
Proof.
  intros Hc. cbn [formatValidationResult violations]. split.
  - apply removeDuplicatesAndSort_incl.
  - intros Hin. apply removeDuplicatesAndSort_keeps; [exact Hin|].
    intros w Hw. apply catalog_text_injective; auto.
Qed.

Lemma format_hasViolations vs :
  hasViolations (formatValidationResult vs) = match vs with [] => false | _ :: _ => true end.
Proof.
  cbn [formatValidationResult hasViolations].
  destruct vs as [|x r]; [reflexivity|].
  destruct (removeDuplicatesAndSort (x :: r)) eqn:E.
  - apply (proj1 (removeDuplicatesAndSort_nil _)) in E. discriminate E.
  - cbn [List.length]. apply Z.ltb_lt. lia.
Qed.

End FormatFacts.

(* ===================================================================== *)
(** ** What the validators can emit                                        *)
(* ===================================================================== *)

Ltac split_in H :=
  repeat (apply in_app_or in H; destruct H as [H|H]).

Ltac case_conditions H :=
  cbv zeta in H;
  repeat match type of H with
         | context [if ?c then _ else _] => destruct c
         end;
  cbn [In] in H.

Ltac fixed_in_catalog :=
  unfold Spec.catalog; apply in_or_app; right; cbn [In]; tauto.

Section ValidatorFacts.
Import Js JsDate Validator.

Lemma crc_texts h account : incl (Crc.generateCRCViolations h account) Spec.crcTexts.
Proof.
  intros v Hv. unfold Crc.generateCRCViolations in Hv.
  split_in Hv; case_conditions Hv;
    repeat (destruct Hv as [<-|Hv]); try destruct Hv;
    unfold Spec.crcTexts; cbn [In]; tauto.
Qed.

Lemma crcTagged_shape h account tag v :
  In v (crcTagged h account tag) ->
  exists t, In t Spec.crcTexts /\ includes t tag = true /\ v = Spec.crcViolation t
            /\ In t (Crc.generateCRCViolations h account).
Proof.
  unfold crcTagged. rewrite in_map_iff. intros (t & <- & Ht).
  apply filter_In in Ht as [Ht Htag].
  exists t. repeat split; auto. exact (crc_texts h account t Ht).
Qed.

Lemma crcTagged_catalog h account tag : incl (crcTagged h account tag) Spec.catalog.
Proof.
  intros v Hv. apply crcTagged_shape in Hv as (t & Ht & _ & -> & _).
  unfold Spec.catalog. apply in_or_app. left. now apply in_map.
Qed.

Lemma metro2_catalog h account : incl (validateMetro2Violations h account) Spec.catalog.
Proof.
  intros v Hv. unfold validateMetro2Violations in Hv.
  split_in Hv; [now apply (crcTagged_catalog h account "Metro 2")|..];
    case_conditions Hv; repeat (destruct Hv as [<-|Hv]); try destruct Hv;
    fixed_in_catalog.
Qed.

Lemma fcra_catalog h account : incl (validateFCRAViolations h account) Spec.catalog.
Proof.
  intros v Hv. unfold validateFCRAViolations in Hv.
  split_in Hv; [now apply (crcTagged_catalog h account "FCRA")|..];
    case_conditions Hv; repeat (destruct Hv as [<-|Hv]); try destruct Hv;
    fixed_in_catalog.
Qed.

Lemma fdcpa_catalog h account : incl (validateFDCPAViolations h account) Spec.catalog.
Proof.
  intros v Hv. unfold validateFDCPAViolations in Hv.
  split_in Hv; [now apply (crcTagged_catalog h account "FDCPA")|..];
    case_conditions Hv; repeat (destruct Hv as [<-|Hv]); try destruct Hv;
    fixed_in_catalog.
Qed.

Lemma account_catalog h account : incl (accountViolations h account) Spec.catalog.
Proof.
  unfold accountViolations.
  apply incl_app; [apply metro2_catalog|].
  apply incl_app; [apply fcra_catalog | apply fdcpa_catalog].
Qed.

Lemma publicRecord_catalog h record : incl (publicRecordViolations h record) Spec.catalog.
Proof.
  intros v Hv. unfold publicRecordViolations in Hv.
  split_in Hv; case_conditions Hv; repeat (destruct Hv as [<-|Hv]); try destruct Hv;
    fixed_in_catalog.
Qed.

Lemma inquiry_catalog h inquiry : incl (inquiryViolations h inquiry) Spec.catalog.
Proof.
  intros v Hv. unfold inquiryViolations in Hv.
  split_in Hv; case_conditions Hv; repeat (destruct Hv as [<-|Hv]); try destruct Hv;
    fixed_in_catalog.
Qed.

(** What [validateAccount] reports is what the three validators emitted. *)
Lemma validateAccount_violations_iff h account v :
  In v (violations (validateAccount h account)) <-> In v (accountViolations h account).
Proof. apply format_violations_iff, account_catalog. Qed.

Lemma validatePublicRecord_violations_iff h record v :
  In v (violations (validatePublicRecord h record)) <-> In v (publicRecordViolations h record).
Proof. apply format_violations_iff, publicRecord_catalog. Qed.

Lemma validateInquiry_violations_iff h inquiry v :
  In v (violations (validateInquiry h inquiry)) <-> In v (inquiryViolations h inquiry).
Proof. apply format_violations_iff, inquiry_catalog. Qed.

(** A record emitted by the CRC loop has no page. *)
Lemma crcTagged_page h account tag v : In v (crcTagged h account tag) -> page v = None.
Proof. intros Hv. apply crcTagged_shape in Hv as (t & _ & _ & -> & _). reflexivity. Qed.

(** *** Reading properties of modified accounts *)



Lemma get_without_prop_eq k account : get (Spec.without_prop k account) k = VUndefined.
Proof.
  unfold Spec.without_prop, get. destruct account as [| | | | | |props]; try reflexivity.
  induction props as [|[k0 v0] r IH]; [reflexivity|].
  cbn [List.filter fst]. destruct (k0 =? k)%string eqn:E; cbn [negb]; [exact IH|].
  cbn [lookup_prop]. rewrite E. exact IH.
Qed.

Lemma get_without_prop_ne k k' account :
  (k =? k')%string = false -> get (Spec.without_prop k account) k' = get account k'.
Proof.
  intros Hk. unfold Spec.without_prop, get. destruct account as [| | | | | |props]; try reflexivity.
  induction props as [|[k0 v0] r IH]; [reflexivity|].
  cbn [List.filter fst lookup_prop]. destruct (k0 =? k)%string eqn:E; cbn [negb].
  - apply String.eqb_eq in E. subst k0. rewrite Hk. exact IH.
  - cbn [lookup_prop]. rewrite IH. reflexivity.
Qed.

End ValidatorFacts.

(* ===================================================================== *)
(** ** The validators as lists of rules                                    *)
(* ===================================================================== *)

Section RuleFacts.
Import Js JsDate Validator.

Lemma validateMetro2Violations_rules h account :
  validateMetro2Violations h account
  = crcTagged h account "Metro 2" ++ Spec.fired (Spec.metro2_rules account).
Proof.
  unfold validateMetro2Violations, Spec.fired, Spec.metro2_rules, Spec.opt.
  cbn [flat_map fst snd]. rewrite app_nil_r.
  unfold Spec.fires_missingDofd, Spec.fires_statusRating, Spec.fires_termsDuration,
    Spec.fires_balanceLimit, Spec.readNum. cbv zeta.
  repeat f_equal.
  destruct (truthy _ && existsb _ _); reflexivity.
Qed.

Lemma validateFCRAViolations_rules h account :
  validateFCRAViolations h account
  = crcTagged h account "FCRA" ++ Spec.fired (Spec.fcra_rules h account).
Proof.
  unfold validateFCRAViolations, Spec.fired, Spec.fcra_rules, Spec.opt.
  cbn [flat_map fst snd]. rewrite app_nil_r.
  unfold Spec.fires_outdatedAccount, Spec.fires_bankruptcy, Spec.fires_duplicate,
    Spec.readNum. cbv zeta.
  repeat f_equal.
  - destruct (truthy _); reflexivity.
  - destruct (is_str _ "61" || is_str _ "62"); reflexivity.
Qed.

Lemma validateFDCPAViolations_rules h account :
  validateFDCPAViolations h account
  = crcTagged h account "FDCPA" ++ Spec.fired (Spec.fdcpa_rules h account).
Proof.
  unfold validateFDCPAViolations, Spec.fired, Spec.fdcpa_rules, Spec.opt.
  cbn [flat_map fst snd]. rewrite app_nil_r.
  unfold Spec.fires_misrepresent, Spec.fires_chargeoffActivity, Spec.readNum. cbv zeta.
  repeat f_equal.
  - destruct (is_str _ "Y" || is_str _ "true"); reflexivity.
  - destruct (is_str _ "Y" || is_str _ "true"); [|reflexivity].
    destruct (truthy _); reflexivity.
Qed.

Lemma publicRecordViolations_rules h record :
  publicRecordViolations h record = Spec.fired (Spec.record_rules h record).
Proof.
  unfold publicRecordViolations, Spec.fired, Spec.record_rules, Spec.opt.
  cbn [flat_map fst snd]. rewrite app_nil_r.
  unfold Spec.fires_outdatedRecord, Spec.fires_missingConditionCode, Spec.recordDate.
  cbv zeta. f_equal.
  destruct (truthy _); reflexivity.
Qed.

Lemma inquiryViolations_rules h inquiry :
  inquiryViolations h inquiry = Spec.fired (Spec.inquiry_rules h inquiry).
Proof.
  unfold inquiryViolations, Spec.fired, Spec.inquiry_rules, Spec.opt.
  cbn [flat_map fst snd]. rewrite app_nil_r.
  unfold Spec.fires_outdatedInquiry, Spec.fires_missingPurpose.
  cbv zeta. f_equal.
  destruct (truthy _); reflexivity.
Qed.

Lemma In_fired rules v : In v (Spec.fired rules) <-> In (v, true) rules.
Proof.
  unfold Spec.fired. rewrite in_flat_map. split.
  - intros ([x c] & Hr & Hv). unfold Spec.opt in Hv. cbn [fst snd] in Hv.
    destruct c; [|destruct Hv]. destruct Hv as [<-|[]]. exact Hr.
  - intros H. exists (v, true). split; [exact H | now left].
Qed.

(** Every fixed rule violation has a page. *)
Lemma fixed_rule_has_page h account v c :
  In (v, c) (Spec.metro2_rules account ++ Spec.fcra_rules h account
             ++ Spec.fdcpa_rules h account) ->
  page v <> None.
Proof.
  cbn. intros H.
  repeat (destruct H as [H|H]; [injection H as <- _; discriminate|]).
  destruct H.
Qed.

(** A violation with a page is among the violations of an account exactly
    when it is the violation of a fixed rule that fires. *)
Lemma accountViolations_fixed h account v :
  page v <> None ->
  In v (accountViolations h account)
  <-> In (v, true) (Spec.metro2_rules account ++ Spec.fcra_rules h account
                    ++ Spec.fdcpa_rules h account).
Proof.
  intros Hp. unfold accountViolations.
  rewrite validateMetro2Violations_rules, validateFCRAViolations_rules,
    validateFDCPAViolations_rules.
  rewrite !in_app_iff, !In_fired.
  split.
  - intros [[H|H]|[[H|H]|[H|H]]]; auto;
      apply crcTagged_page in H; contradiction.
  - intros [H|[H|H]]; auto.
Qed.

End RuleFacts.

(* ===================================================================== *)
(** ** Claims about single rules                                           *)
(* ===================================================================== *)

(** Reduce [H : In (X, true) rules] to the firing condition of [X]. *)
Ltac rule_cases H :=
  cbn [In app Spec.metro2_rules Spec.fcra_rules Spec.fdcpa_rules
       Spec.record_rules Spec.inquiry_rules] in H;
  repeat (destruct H as [H|H];
          [first [ exfalso; injection H as H _; discriminate H
                 | injection H as H ] |]);
  try (exfalso; exact H).

Section RuleClaims.
Import Js JsDate Validator.

Lemma bankruptcy_fires_iff h account :
  In bankruptcyViolation (violations (validateAccount h account))
  <-> Spec.fires_bankruptcy account = true.
Proof.
  rewrite validateAccount_violations_iff, accountViolations_fixed by discriminate.
  split.
  - intros H. rule_cases H. exact H.
  - intros H. cbn. rewrite H. tauto.
Qed.

(** C3, as stated, fails: an account whose status is "Closed" (under every
    name the code reads a status from) and whose balance is 500 triggers
    nothing at all. No rule of the validator tests the status "Closed". *)
Lemma C3_closed_with_balance_counterexample :
  is_str (get Examples.closedAccount "@_AccountStatus") "Closed" = true
  /\ Spec.readNum Examples.closedAccount "@_CurrentBalance" = Some 500
  /\ validateAccount Spec.exampleHost Examples.closedAccount
     = {| violations := []; suggestions := []; hasViolations := false;
          noViolationMessage := Some NO_VIOLATION_MESSAGE |}.
Proof. repeat split; vm_compute; reflexivity. Qed.

(** C3 (amended). The status/positive-balance rule of [validateAccount] is
    the "Bankruptcy discharge inaccuracies" rule: it is raised exactly when
    ['@_AccountStatus'] is ['61'] or ['62'] and the current balance parses
    to a number above 0. So with such a status and a positive balance it is
    raised, with balance 0 it is not, and under any other status (such as
    "Closed") it is not. *)
Theorem C3_discharged_status_positive_balance (h : Host) (account : JsValue) :
  In bankruptcyViolation (violations (validateAccount h account))
  <-> ((is_str (get account "@_AccountStatus") "61"
        || is_str (get account "@_AccountStatus") "62") = true
       /\ exists balance, Spec.readNum account "@_CurrentBalance" = Some balance
                          /\ balance > 0).
Proof.
  rewrite bankruptcy_fires_iff. unfold Spec.fires_bankruptcy.
  rewrite andb_true_iff. apply and_iff_compat_l.
  destruct (Spec.readNum account "@_CurrentBalance") as [b|]; cbn [num_gt].
  - split.
    + intros H. exists b. split; [reflexivity|]. apply Z.gtb_lt in H. lia.
    + intros (b' & [= <-] & Hb). apply Z.gtb_lt. lia.
  - split; [discriminate|]. intros (b' & Hb & _). discriminate.
Qed.

Lemma C3_discharged_status_witness :
  In bankruptcyViolation
     (violations (validateAccount Spec.exampleHost Examples.dischargedAccount))
  /\ ~ In bankruptcyViolation
        (violations (validateAccount Spec.exampleHost Examples.closedAccount)).
Proof.
  split.
  - apply (proj2 (C3_discharged_status_positive_balance
                    Spec.exampleHost Examples.dischargedAccount)).
    split; [reflexivity|]. exists 500. split; [reflexivity | lia].
  - intros H.
    apply (proj1 (C3_discharged_status_positive_balance
                    Spec.exampleHost Examples.closedAccount)) in H.
    destruct H as [H _]. discriminate H.
Defined.

(** C4. A derogatory account without a date of first delinquency gets the
    Metro 2 "Missing Date of First Delinquency" violation, cited from "CRC
    Advanced Disputing Workbook, Page 3-46", and the condition contributes
    that one Metro 2 violation only: taking the derogatory indicator away
    removes exactly this entry from the Metro 2 violations. *)
Theorem C4_missing_date_of_first_delinquency (h : Host) (account : JsValue) :
  is_str (get account "@_DerogatoryDataIndicator") "Y" = true ->
  truthy (get account "@_DateOfFirstDelinquency") = false ->
  In missingDofdViolation (validateMetro2Violations h account)
  /\ In missingDofdViolation (violations (validateAccount h account))
  /\ includes (violation missingDofdViolation) "Metro 2" = true
  /\ includes (violation missingDofdViolation) "Missing Date of First Delinquency" = true
  /\ source missingDofdViolation = "CRC Advanced Disputing Workbook, Page 3-46"
  /\ exists before after,
       validateMetro2Violations h account = before ++ missingDofdViolation :: after
       /\ validateMetro2Violations h (Spec.without_prop "@_DerogatoryDataIndicator" account)
          = before ++ after.
Proof.
  intros Hd Hf.
  assert (Hfire : Spec.fires_missingDofd account = true)
    by (unfold Spec.fires_missingDofd; now rewrite Hd, Hf).
  assert (Hm : validateMetro2Violations h account
               = crcTagged h account "Metro 2"
                 ++ missingDofdViolation
                    :: Spec.fired (tl (Spec.metro2_rules account))).
  { rewrite validateMetro2Violations_rules. unfold Spec.fired, Spec.metro2_rules.
    cbn [flat_map fst snd tl]. now rewrite Hfire. }
  split; [rewrite Hm; apply in_or_app; right; now left|].
  split.
  { apply validateAccount_violations_iff. unfold accountViolations.
    apply in_or_app. left. rewrite Hm. apply in_or_app. right. now left. }
  do 3 (split; [reflexivity|]).
  exists (crcTagged h account "Metro 2"), (Spec.fired (tl (Spec.metro2_rules account))).
  split; [exact Hm|].
  rewrite validateMetro2Violations_rules.
  unfold crcTagged, Crc.generateCRCViolations, Spec.fired, Spec.metro2_rules,
    Spec.fires_missingDofd, Spec.fires_statusRating, Spec.fires_termsDuration,
    Spec.fires_balanceLimit, Spec.readNum.
  rewrite get_without_prop_eq.
  rewrite !get_without_prop_ne by reflexivity.
  reflexivity.
Qed.

Lemma C4_missing_date_of_first_delinquency_witness :
  In missingDofdViolation
     (violations (validateAccount Spec.exampleHost Examples.derogatoryAccount))
  /\ validateMetro2Violations Spec.exampleHost Examples.derogatoryAccount
     = [missingDofdViolation].
Proof.
  split.
  - apply (C4_missing_date_of_first_delinquency Spec.exampleHost Examples.derogatoryAccount);
      reflexivity.
  - reflexivity.
Defined.

(** C10. An account with a non-empty (truthy) account number and subscriber
    code always gets the "Potential duplicate account" violation: the rule
    looks at nothing but these two fields of the one account. Hence
    [validateAccount] reports violations and sets no no-violation message. *)
Theorem C10_duplicate_flag_unconditional (h : Host) (account : JsValue) :
  truthy (get account "@_AccountNumber") = true ->
  truthy (get account "@_SubscriberCode") = true ->
  In duplicateViolation (validateFCRAViolations h account)
  /\ includes (violation duplicateViolation) "Potential duplicate account" = true
  /\ In duplicateViolation (violations (validateAccount h account))
  /\ hasViolations (validateAccount h account) = true
  /\ noViolationMessage (validateAccount h account) = None.
Proof.
  intros Hn Hs.
  assert (Hin : In duplicateViolation (validateFCRAViolations h account)).
  { rewrite validateFCRAViolations_rules. apply in_or_app. right.
    apply In_fired. cbn. unfold Spec.fires_duplicate. rewrite Hn, Hs. tauto. }
  assert (Hacc : In duplicateViolation (accountViolations h account)).
  { unfold accountViolations. apply in_or_app. right. apply in_or_app. now left. }
  split; [exact Hin|]. split; [reflexivity|].
  split; [now apply validateAccount_violations_iff|].
  assert (Hhas : hasViolations (validateAccount h account) = true).
  { unfold validateAccount. rewrite format_hasViolations.
    destruct (accountViolations h account); [destruct Hacc | reflexivity]. }
  split; [exact Hhas|].
  unfold validateAccount in *. cbn [formatValidationResult noViolationMessage hasViolations] in *.
  now rewrite Hhas.
Qed.

Lemma C10_duplicate_flag_witness :
  hasViolations (validateAccount Spec.exampleHost Examples.numberedAccount) = true
  /\ noViolationMessage (validateAccount Spec.exampleHost Examples.numberedAccount) = None.
Proof.
  pose proof (C10_duplicate_flag_unconditional Spec.exampleHost Examples.numberedAccount
                eq_refl eq_refl) as (_ & _ & _ & H1 & H2).
  split; [exact H1 | exact H2].
Defined.

End RuleClaims.

Section NumericClaims.
Import Js JsDate Validator.







Lemma accountViolations_In h account v :
  In v (accountViolations h account)
  <-> In v (crcTagged h account "Metro 2" ++ crcTagged h account "FCRA"
            ++ crcTagged h account "FDCPA")
      \/ In (v, true) (Spec.metro2_rules account ++ Spec.fcra_rules h account
                       ++ Spec.fdcpa_rules h account).
Proof.
  unfold accountViolations.
  rewrite validateMetro2Violations_rules, validateFCRAViolations_rules,
    validateFDCPAViolations_rules.
  rewrite !in_app_iff, !In_fired. tauto.
Qed.







End NumericClaims.

Section DateClaims.
Import Js JsDate Validator.

Lemma date_unusable_lt h d z :
  Spec.date_unusable h d = true -> truthy d && num_lt (newDate h d) (Some z) = false.
Proof.
  unfold Spec.date_unusable. destruct (truthy d); cbn [negb orb andb]; [|reflexivity].
  destruct (newDate h d); [discriminate | reflexivity].
Qed.

Lemma date_unusable_gt h d z :
  Spec.date_unusable h d = true -> truthy d && num_gt (newDate h d) (Some z) = false.
Proof.
  unfold Spec.date_unusable. destruct (truthy d); cbn [negb orb andb]; [|reflexivity].
  destruct (newDate h d); [discriminate | reflexivity].
Qed.

(** C8. A date that is absent (falsy) or does not parse (Invalid Date)
    raises nothing from the rule that reads it: the 7-year rule on the
    opening date of an account, the 6-month rule on the last activity of a
    charged-off account, the 7-year rule on the report/filing date of a
    public record, the 2-year rule on the date of an inquiry. *)
Theorem C8_date_rules_short_circuit (h : Host) (item : JsValue) :
  (Spec.date_unusable h (get item "@_DateOpened") = true ->
   ~ In outdatedAccountViolation (violations (validateAccount h item)))
  /\ (Spec.date_unusable h (get item "@_DateLastActivity") = true ->
      ~ In chargeoffActivityViolation (violations (validateAccount h item)))
  /\ (Spec.date_unusable h (Spec.recordDate item) = true ->
      ~ In outdatedRecordViolation (violations (validatePublicRecord h item)))
  /\ (Spec.date_unusable h (get item "@_DateOfInquiry") = true ->
      ~ In outdatedInquiryViolation (violations (validateInquiry h item))).
Proof.
  repeat split; intros Hd Hin.
  - apply validateAccount_violations_iff, accountViolations_fixed in Hin; [|discriminate].
    rule_cases Hin. unfold Spec.fires_outdatedAccount in Hin.
    rewrite (date_unusable_lt h _ _ Hd) in Hin. discriminate.
  - apply validateAccount_violations_iff, accountViolations_fixed in Hin; [|discriminate].
    rule_cases Hin. unfold Spec.fires_chargeoffActivity in Hin.
    rewrite <- andb_assoc, (date_unusable_gt h _ _ Hd), andb_false_r in Hin. discriminate.
  - apply validatePublicRecord_violations_iff in Hin.
    rewrite publicRecordViolations_rules in Hin. apply In_fired in Hin.
    rule_cases Hin. unfold Spec.fires_outdatedRecord in Hin.
    rewrite (date_unusable_lt h _ _ Hd) in Hin. discriminate.
  - apply validateInquiry_violations_iff in Hin.
    rewrite inquiryViolations_rules in Hin. apply In_fired in Hin.
    rule_cases Hin. unfold Spec.fires_outdatedInquiry in Hin.
    rewrite (date_unusable_lt h _ _ Hd) in Hin. discriminate.
Qed.

Lemma C8_date_rules_witness :
  ~ In outdatedAccountViolation
      (violations (validateAccount Spec.exampleHost Examples.undatedAccount))
  /\ ~ In chargeoffActivityViolation
         (violations (validateAccount Spec.exampleHost Examples.undatedAccount))
  /\ ~ In outdatedRecordViolation
         (violations (validatePublicRecord Spec.exampleHost Examples.undatedRecord))
  /\ ~ In outdatedInquiryViolation
         (violations (validateInquiry Spec.exampleHost Examples.undatedInquiry)).
Proof.
  split; [|split; [|split]].
  - apply (proj1 (C8_date_rules_short_circuit Spec.exampleHost Examples.undatedAccount)).
    reflexivity.
  - apply (proj1 (proj2 (C8_date_rules_short_circuit Spec.exampleHost Examples.undatedAccount))).
    reflexivity.
  - apply (proj1 (proj2 (proj2
             (C8_date_rules_short_circuit Spec.exampleHost Examples.undatedRecord)))).
    reflexivity.
  - apply (proj2 (proj2 (proj2
             (C8_date_rules_short_circuit Spec.exampleHost Examples.undatedInquiry)))).
    reflexivity.
Defined.

End DateClaims.

(* ===================================================================== *)
(** ** Claims about the scan routes                                        *)
(* ===================================================================== *)

Section ItemIdClaims.
Import Js Validator Routes.

(** For accounts the two modes derive the same id: the account at index
    [i] of the request is work item [i], and both use
    ['@CreditLiabilityID'] and then [TRADE] with the padded position. *)
Lemma account_ids_agree (accounts records inquiries : list JsValue) (i : nat) account :
  accounts !! i = Some account ->
  exists w, allItemsToProcess accounts records inquiries !! i = Some w
            /\ aiItemId w i = staticAccountId account i.
Proof.
  intros Hi.
  exists {| item := account; itemType := TAccount; originalIndex := i; inquiryIndex := None |}.
  split; [|reflexivity].
  unfold allItemsToProcess. rewrite lookup_app_l.
  - rewrite list_lookup_imap, Hi. reflexivity.
  - rewrite length_imap. eapply lookup_lt_Some, Hi.
Qed.

(** C1 (the code departs from it). On a request with one account, one
    public record that has a record key, and one inquiry, the assisted scan
    files the public record under [record_1] and the inquiry under
    [inquiry_0], the static scan files them under [PR-9] and [INQUIRY-001];
    the assisted payload itself keys its suggestions by the static ids.
    Only the account gets the same id ([TRADE001]) in both modes. *)
Theorem C1_item_ids_differ_between_modes :
  match performAiScan Spec.exampleHost true Examples.failingOracle Examples.scanRequest,
        generateStaticViolations Spec.exampleHost Examples.scanRequest with
  | Return assisted, Return static =>
      (* the account *)
      is_Some (violations assisted !! "TRADE001")
      /\ is_Some (violations static !! "TRADE001")
      (* the public record *)
      /\ violations assisted !! "record_1" = Some []
      /\ violations assisted !! "PR-9" = None
      /\ is_Some (violations static !! "PR-9")
      /\ violations static !! "record_1" = None
      /\ suggestions assisted !! "PR-9" = Some recordFallbackSuggestions
      /\ suggestions assisted !! "record_1" = None
      (* the inquiry *)
      /\ violations assisted !! "inquiry_0" = Some []
      /\ violations assisted !! "INQUIRY-001" = None
      /\ is_Some (violations static !! "INQUIRY-001")
      /\ violations static !! "inquiry_0" = None
      /\ suggestions assisted !! "INQUIRY-001" = Some inquiryFallbackSuggestions
      /\ suggestions assisted !! "inquiry_0" = None
      (* the breakdown of the assisted payload finds no record, no inquiry *)
      /\ breakdown assisted = {| accounts := 1; publicRecords := 0; inquiries := 0 |}
  | _, _ => False
  end
  /\ aiItemId {| item := VObj [("@RecordKey", VStr "PR-9")]; itemType := TPublicRecord;
                 originalIndex := 0; inquiryIndex := None |} 1 = VStr "record_1"
  /\ staticRecordId (VObj [("@RecordKey", VStr "PR-9")]) 0 = VStr "PR-9"
  /\ aiItemId {| item := VObj []; itemType := TInquiry;
                 originalIndex := 0; inquiryIndex := Some 0%nat |} 2 = VStr "inquiry_0"
  /\ staticInquiryId (VObj []) 0 = VStr "INQUIRY-001".
Proof.
  vm_compute. repeat split; eexists; reflexivity.
Qed.

End ItemIdClaims.

Section InputGuardClaims.
Import Js Validator Routes.

Lemma prefix_append p x : String.prefix p (p +:+ x) = true.
Proof.
  induction p as [|c p IH].
  - destruct x; reflexivity.
  - change (String c p +:+ x) with (String c (p +:+ x)). cbn [String.prefix].
    destruct (ascii_dec c c) as [_|Hne]; [exact IH | now destruct Hne].
Qed.

Lemma includes_prefix p x : includes (p +:+ x) p = true.
Proof.
  pose proof (prefix_append p x) as H.
  destruct (p +:+ x); cbn [includes]; now rewrite H.
Qed.

Lemma performAiScan_too_large h hasApiKey oracle creditData n :
  countTokens (stringify creditData) = Return n ->
  n > MAX_INPUT_TOKENS ->
  performAiScan h hasApiKey oracle creditData
  = Throw ("INPUT_TOO_LARGE: " +:+ toLocaleString h n +:+ " tokens exceeds limit").
Proof.
  intros Hn Hgt. unfold performAiScan. rewrite Hn. cbn [bind].
  destruct (n >? MAX_INPUT_TOKENS) eqn:E; [reflexivity|].
  rewrite Z.gtb_ltb, Z.ltb_ge in E. lia.
Qed.

(** C2 (amended). When the approximate token count of the serialized
    request exceeds 100000, [performAiScan] throws INPUT_TOO_LARGE before
    any item is looked at, with or without an API key; the [/api/ai-scan]
    handler catches it and answers with status 413 and the error body
    [{success: false, error: 'INPUT_TOO_LARGE', message, fallbackUsed: true}].
    No exception leaves the handler, but the body is not a scan payload: it
    has no violations, no suggestions and no [tokenInfo]. *)
Theorem C2_oversized_input_answered_413
    (h : Host) (hasApiKey : bool) (oracle : Oracle) (creditData : JsValue) (n : Z) :
  countTokens (stringify creditData) = Return n ->
  n > MAX_INPUT_TOKENS ->
  performAiScan h hasApiKey oracle creditData
    = Throw ("INPUT_TOO_LARGE: " +:+ toLocaleString h n +:+ " tokens exceeds limit")
  /\ api_ai_scan h hasApiKey oracle creditData
     = {| status := 413;
          body := FailureBody
                    {| err_success := false;
                       err_error := "INPUT_TOO_LARGE";
                       err_message := "Credit data is too large for AI analysis. Using static violations instead.";
                       err_fallbackUsed := true |} |}
  /\ (forall p, body (api_ai_scan h hasApiKey oracle creditData) <> ScanBody p).
Proof.
  intros Hn Hgt.
  pose proof (performAiScan_too_large h hasApiKey oracle creditData n Hn Hgt) as Ht.
  assert (Hr : api_ai_scan h hasApiKey oracle creditData
               = {| status := 413;
                    body := FailureBody
                              {| err_success := false;
                                 err_error := "INPUT_TOO_LARGE";
                                 err_message := "Credit data is too large for AI analysis. Using static violations instead.";
                                 err_fallbackUsed := true |} |}).
  { assert (Hinc : includes ("INPUT_TOO_LARGE: " +:+ toLocaleString h n
                                +:+ " tokens exceeds limit") "INPUT_TOO_LARGE" = true)
      by exact (includes_prefix "INPUT_TOO_LARGE"
                  (": " +:+ toLocaleString h n +:+ " tokens exceeds limit")).
    unfold api_ai_scan. rewrite Ht, Hinc. reflexivity. }
  split; [exact Ht|]. split; [exact Hr|].
  intros p. rewrite Hr. discriminate.
Qed.

(** *** A request that is too large *)

Lemma string_length_append s1 s2 :
  String.length (s1 +:+ s2) = (String.length s1 + String.length s2)%nat.
Proof.
  induction s1 as [|c s1 IH]; [reflexivity|].
  change (String c s1 +:+ s2) with (String c (s1 +:+ s2)).
  cbn [String.length]. now rewrite IH.
Qed.

Lemma length_doubled n s :
  Z.of_nat (String.length (Examples.doubled n s)) = 2 ^ Z.of_nat n * Z.of_nat (String.length s).
Proof.
  revert s. induction n as [|n IH]; intros s.
  - cbn [Examples.doubled]. change (Z.of_nat 0) with 0. lia.
  - cbn [Examples.doubled]. rewrite IH, string_length_append.
    rewrite Nat2Z.inj_succ, Z.pow_succ_r by lia. lia.
Qed.

Lemma length_escapeString s : (String.length s <= String.length (escapeString s))%nat.
Proof.
  induction s as [|c s IH]; [reflexivity|].
  cbn [escapeString]. rewrite string_length_append. cbn [String.length].
  assert (1 <= String.length (escapeChar c))%nat; [|lia].
  unfold escapeChar.
  repeat match goal with |- context [if ?b then _ else _] => destruct b end;
    unfold dquote; rewrite ?string_length_append; cbn [String.length]; lia.
Qed.

Lemma length16_le_aux n : forall s, (String.length s <= n)%nat ->
  (length16 s <= String.length s)%nat.
Proof.
  induction n as [|n IH]; intros s Hs.
  - destruct s; [reflexivity | cbn [String.length] in Hs; lia].
  - destruct s as [|c r]; [reflexivity|].
    cbn [String.length] in Hs.
    pose proof (IH r ltac:(lia)) as Hr.
    cbn [length16]. cbv zeta.
    destruct (nat_of_ascii c <? 128)%nat; [cbn [String.length]; lia|].
    destruct (nat_of_ascii c <? 192)%nat; [cbn [String.length]; lia|].
    destruct (nat_of_ascii c <? 240)%nat; [cbn [String.length]; lia|].
    destruct r as [|c2 r']; cbn [String.length] in *; [lia|].
    pose proof (IH r' ltac:(lia)). lia.
Qed.

(** A text never has more UTF-16 code units than bytes. *)
Lemma length16_le s : (length16 s <= String.length s)%nat.
Proof. apply (length16_le_aux (String.length s)). lia. Qed.

Lemma length16_ascii s : ascii_only s = true -> length16 s = String.length s.
Proof.
  induction s as [|c r IH]; [reflexivity|].
  cbn [ascii_only length16 String.length]. cbv zeta.
  intros [Hc Hr]%andb_prop. rewrite Hc, IH by exact Hr. reflexivity.
Qed.

Lemma ascii_only_append s1 s2 :
  ascii_only (s1 +:+ s2) = ascii_only s1 && ascii_only s2.
Proof.
  induction s1 as [|c s1 IH]; [reflexivity|].
  change (String c s1 +:+ s2) with (String c (s1 +:+ s2)).
  cbn [ascii_only]. rewrite IH. now rewrite andb_assoc.
Qed.

Lemma ascii_only_escapeChar c :
  (nat_of_ascii c <? 128)%nat = true -> ascii_only (escapeChar c) = true.
Proof.
  destruct c as [[] [] [] [] [] [] [] []]; intros Hc;
    first [discriminate Hc | reflexivity].
Qed.

Lemma ascii_only_escapeString s :
  ascii_only s = true -> ascii_only (escapeString s) = true.
Proof.
  induction s as [|c r IH]; [reflexivity|].
  cbn [ascii_only escapeString]. intros [Hc Hr]%andb_prop.
  rewrite ascii_only_append, ascii_only_escapeChar, IH by assumption. reflexivity.
Qed.

Lemma ascii_only_doubled n s :
  ascii_only s = true -> ascii_only (Examples.doubled n s) = true.
Proof.
  revert s. induction n as [|n IH]; intros s Hs; [exact Hs|].
  cbn [Examples.doubled]. apply IH. now rewrite ascii_only_append, Hs.
Qed.

Lemma commentedRequest_tokens s :
  ascii_only s = true ->
  exists n, countTokens (stringify (Examples.commentedRequest s)) = Return n
            /\ Z.of_nat (String.length s) <= 4 * n.
Proof.
  intros Ha.
  unfold Examples.commentedRequest. cbn [stringify join_comma countTokens from_option id].
  eexists. split; [reflexivity|].
  rewrite length16_ascii.
  2:{ unfold quote, dquote.
      rewrite !ascii_only_append, (ascii_only_escapeString s Ha). reflexivity. }
  unfold ceil_div4, quote.
  rewrite !string_length_append.
  pose proof (length_escapeString s) as Hs.
  match goal with
  | |- _ <= 4 * (?a / 4) =>
      pose proof (Z.div_mod a 4 ltac:(lia)); pose proof (Z.mod_pos_bound a 4 ltac:(lia))
  end.
  lia.
Qed.

(** The token count of [bigRequest] is over the ceiling. *)
Lemma bigRequest_tokens :
  exists n, countTokens (stringify Examples.bigRequest) = Return n /\ n > MAX_INPUT_TOKENS.
Proof.
  destruct (commentedRequest_tokens (Examples.doubled 19 "a")
              (ascii_only_doubled 19 "a" eq_refl)) as (n & Hn & Hle).
  exists n. split; [exact Hn|].
  rewrite length_doubled in Hle. change (Z.of_nat 19) with 19 in Hle.
  change (Z.of_nat (String.length "a")) with 1 in Hle.
  change (2 ^ 19) with 524288 in Hle. unfold MAX_INPUT_TOKENS. lia.
Qed.

End InputGuardClaims.

Section InputGuardExamples.
Import Js Validator Routes.

Lemma api_ai_scan_too_large h hasApiKey oracle creditData n :
  countTokens (stringify creditData) = Return n ->
  n > MAX_INPUT_TOKENS ->
  status (api_ai_scan h hasApiKey oracle creditData) = 413
  /\ forall p, body (api_ai_scan h hasApiKey oracle creditData) <> ScanBody p.
Proof.
  intros Hn Hgt.
  pose proof (performAiScan_too_large h hasApiKey oracle creditData n Hn Hgt) as Ht.
  assert (Hinc : includes ("INPUT_TOO_LARGE: " +:+ toLocaleString h n
                              +:+ " tokens exceeds limit") "INPUT_TOO_LARGE" = true)
    by exact (includes_prefix "INPUT_TOO_LARGE"
                (": " +:+ toLocaleString h n +:+ " tokens exceeds limit")).
  unfold api_ai_scan. rewrite Ht, Hinc. split; [reflexivity | discriminate].
Qed.

(** C2, as stated, fails: for a request with a comment of 524288
    characters the assisted scan throws, and the handler answers 413 with
    an error body, not with a payload of the static shape. *)
Lemma C2_oversized_input_counterexample :
  (exists n, countTokens (stringify Examples.bigRequest) = Return n /\ n > MAX_INPUT_TOKENS)
  /\ (exists msg, performAiScan Spec.exampleHost true Examples.failingOracle
                    Examples.bigRequest = Throw msg)
  /\ status (api_ai_scan Spec.exampleHost true Examples.failingOracle Examples.bigRequest) = 413
  /\ (forall p, body (api_ai_scan Spec.exampleHost true Examples.failingOracle
                        Examples.bigRequest) <> ScanBody p).
Proof.
  destruct bigRequest_tokens as (n & Hn & Hgt).
  split; [exists n; auto|].
  split; [eexists; apply (performAiScan_too_large _ _ _ _ n Hn Hgt)|].
  apply (api_ai_scan_too_large _ _ _ _ n Hn Hgt).
Qed.

Lemma C2_oversized_input_witness :
  api_ai_scan Spec.exampleHost true Examples.failingOracle Examples.bigRequest
  = {| status := 413;
       body := FailureBody
                 {| err_success := false;
                    err_error := "INPUT_TOO_LARGE";
                    err_message := "Credit data is too large for AI analysis. Using static violations instead.";
                    err_fallbackUsed := true |} |}.
Proof.
  destruct bigRequest_tokens as (n & Hn & Hgt).
  exact (proj1 (proj2 (C2_oversized_input_answered_413
                         Spec.exampleHost true Examples.failingOracle
                         Examples.bigRequest n Hn Hgt))).
Defined.

End InputGuardExamples.

(* ===================================================================== *)
(** ** Result objects                                                      *)
(* ===================================================================== *)

Section ResultObjectFacts.
Import Js Validator Routes.
Context {V : Type}.

Lemma assign_all_app (w1 w2 : list (JsValue * V)) (m : gmap string V) :
  assign_all (w1 ++ w2) m = assign_all w2 (assign_all w1 m).
Proof. unfold assign_all. apply foldl_app. Qed.

Lemma assign_all_cons (w : JsValue * V) ws (m : gmap string V) :
  assign_all (w :: ws) m
  = assign_all ws (if (toString (fst w) =? "__proto__")%string then m
                   else <[toString (fst w) := snd w]> m).
Proof. reflexivity. Qed.

Lemma assign_all_untouched (ws : list (JsValue * V)) (m : gmap string V) (k : string) :
  (forall w, In w ws -> toString (fst w) <> k) ->
  assign_all ws m !! k = m !! k.
Proof.
  revert m. induction ws as [|w ws IH]; intros m Hne; [reflexivity|].
  rewrite assign_all_cons.
  rewrite IH by (intros w' Hw'; apply Hne; now right).
  destruct (toString (fst w) =? "__proto__")%string; [reflexivity|].
  apply lookup_insert_ne. apply Hne. now left.
Qed.

(** No assignment creates a property ["__proto__"]. *)
Lemma assign_all_proto (ws : list (JsValue * V)) (m : gmap string V) :
  assign_all ws m !! "__proto__" = m !! "__proto__".
Proof.
  revert m. induction ws as [|w ws IH]; intros m; [reflexivity|].
  rewrite assign_all_cons, IH.
  destruct (String.eqb_spec (toString (fst w)) "__proto__") as [Hp|Hp]; [reflexivity|].
  now apply lookup_insert_ne.
Qed.

(** The last assignment to a key other than ["__proto__"] is what the
    object holds. *)
Lemma assign_all_last (ws : list (JsValue * V)) (m : gmap string V) (i : nat) id e :
  ws !! i = Some (id, e) ->
  toString id <> "__proto__" ->
  (forall j w, (i < j)%nat -> ws !! j = Some w -> toString (fst w) <> toString id) ->
  assign_all ws m !! toString id = Some e.
Proof.
  intros Hi Hproto Hlater.
  rewrite <- (take_drop_middle ws i (id, e) Hi).
  rewrite assign_all_app, assign_all_cons. cbn [fst snd].
  destruct (String.eqb_spec (toString id) "__proto__") as [Hp|_]; [contradiction|].
  rewrite assign_all_untouched.
  - apply lookup_insert_eq.
  - intros w Hw. apply list_elem_of_In, list_elem_of_lookup in Hw as [j Hj].
    rewrite lookup_drop in Hj. apply (Hlater (S i + j)%nat w); [lia | exact Hj].
Qed.

(** The prototype is the value of the last assignment to ["__proto__"]. *)
Lemma assigned_proto_app (w1 w2 : list (JsValue * V)) :
  assigned_proto (w1 ++ w2)
  = match assigned_proto w2 with
    | Some a => Some a
    | None => assigned_proto w1
    end.
Proof.
  unfold assigned_proto. rewrite foldl_app.
  generalize (foldl (fun pr w => if (toString (fst w) =? "__proto__")%string
                                 then Some (snd w) else pr) None w1).
  intros o. revert o. induction w2 as [|w w2 IH]; intros o.
  - cbn. now destruct o.
  - cbn [foldl]. rewrite IH.
    destruct (toString (fst w) =? "__proto__")%string.
    + symmetry. rewrite IH. now destruct (foldl _ None w2).
    + reflexivity.
Qed.


End ResultObjectFacts.

Section StaticScanFacts.
Import Js Validator Routes.

Lemma as_items_Throw v msg : as_items v = Throw msg -> msg = typeError.
Proof.
  destruct v; cbn [as_items]; try (intros [= <-]; reflexivity).
  intros H. apply mapM_Throw in H as (x & _ & Hx).
  destruct x; now inversion Hx.
Qed.





Lemma generateCRCDisputes_Throw h a msg :
  Crc.generateCRCDisputes h a = Throw msg ->
  msg = typeError \/ msg = "accountData.CreditorName?.toLowerCase is not a function".
Proof.
  unfold Crc.generateCRCDisputes, Crc.creditorNameIsMedical, toStringC.
  destruct a; try (intros [= <-]; now left);
    (destruct (truthy (get _ "PastDueAmount"));
     [destruct (converts (get _ "PastDueAmount")); cbn [bind];
      [|intros [= <-]; now left]
     |cbn [bind]]);
    (destruct (is_str (get _ "AccountType") "Medical"); cbn [bind]; [discriminate|]);
    destruct (get _ "CreditorName"); cbn [bind]; try discriminate;
    intros [= <-]; now right.
Qed.

Lemma generateCRCDisputes_length h a l :
  Crc.generateCRCDisputes h a = Return l -> (List.length l <= 5)%nat.
Proof.
  unfold Crc.generateCRCDisputes.
  destruct a; try discriminate;
    (destruct (if truthy _ then _ else _); cbn [bind]; [|discriminate]);
    cbv zeta;
    (destruct (if is_str _ "Medical" then _ else _); cbn [bind]; [|discriminate]);
    intros [= <-];
    repeat match goal with |- context [if ?b then _ else _] => destruct b end;
    cbn [List.length List.app]; lia.
Qed.

(** *** One round of the suggestion loops *)

Lemma accountSuggestion_Return h i a w :
  accountSuggestion h i a = Return w ->
  fst w = staticAccountId a i
  /\ converts (staticAccountId a i) = true
  /\ staticAccountCheck h i a = Return tt
  /\ exists crc, Crc.generateCRCDisputes h a = Return crc
                 /\ snd w = nonempty_or (Validator.suggestions (validateAccount h a) ++ crc)
                                         accountFallbackSuggestions.
Proof.
  unfold accountSuggestion, staticAccountCheck. cbv zeta.
  destruct (validateAccountC h a) as [r|] eqn:Ev; cbn [bind]; [|discriminate].
  apply validateAccountC_Return in Ev as ->.
  destruct (Crc.generateCRCDisputes h a) as [crc|]; cbn [bind]; [|discriminate].
  destruct (toStringC (staticAccountId a i)) as [k|] eqn:Ek; cbn [bind]; [|discriminate].
  apply toStringC_Return in Ek as [Hc _].
  intros [= <-]. cbn [fst snd]. repeat split; auto. now exists crc.
Qed.

Lemma recordSuggestion_Return h i r w :
  recordSuggestion h i r = Return w ->
  w = (staticRecordId r i,
       nonempty_or (Validator.suggestions (validatePublicRecord h r)) recordFallbackSuggestions)
  /\ converts (staticRecordId r i) = true
  /\ staticRecordCheck h i r = Return tt.
Proof.
  unfold recordSuggestion, staticRecordCheck. cbv zeta.
  destruct (validatePublicRecordC h r) as [x|] eqn:Ev; cbn [bind]; [|discriminate].
  apply validatePublicRecordC_Return in Ev as ->.
  destruct (toStringC (staticRecordId r i)) as [k|] eqn:Ek; cbn [bind]; [|discriminate].
  apply toStringC_Return in Ek as [Hc _].
  intros [= <-]. auto.
Qed.

Lemma inquirySuggestion_Return h i q w :
  inquirySuggestion h i q = Return w ->
  w = (staticInquiryId q i,
       nonempty_or (Validator.suggestions (validateInquiry h q)) inquiryFallbackSuggestions)
  /\ converts (staticInquiryId q i) = true
  /\ staticInquiryCheck h i q = Return tt.
Proof.
  unfold inquirySuggestion, staticInquiryCheck. cbv zeta.
  destruct (validateInquiryC h q) as [x|] eqn:Ev; cbn [bind]; [|discriminate].
  apply validateInquiryC_Return in Ev as ->.
  destruct (toStringC (staticInquiryId q i)) as [k|] eqn:Ek; cbn [bind]; [|discriminate].
  apply toStringC_Return in Ek as [Hc _].
  intros [= <-]. auto.
Qed.

Lemma accountSuggestion_Throw h i a msg :
  accountSuggestion h i a = Throw msg ->
  msg = typeError \/ msg = "accountData.CreditorName?.toLowerCase is not a function".
Proof.
  unfold accountSuggestion. cbv zeta.
  destruct (validateAccountC h a) as [r|] eqn:Ev; cbn [bind].
  2:{ intros [= <-]. left. eapply validateAccountC_Throw, Ev. }
  destruct (Crc.generateCRCDisputes h a) as [crc|] eqn:Ed; cbn [bind].
  2:{ intros [= <-]. eapply generateCRCDisputes_Throw, Ed. }
  destruct (toStringC (staticAccountId a i)) as [k|] eqn:Ek; cbn [bind]; [discriminate|].
  intros [= <-]. left. now apply toStringC_Throw in Ek.
Qed.

Lemma recordSuggestion_Throw h i r msg :
  recordSuggestion h i r = Throw msg -> msg = typeError.
Proof.
  unfold recordSuggestion. cbv zeta.
  destruct (validatePublicRecordC h r) as [x|] eqn:Ev; cbn [bind].
  2:{ intros [= <-]. eapply validatePublicRecordC_Throw, Ev. }
  destruct (toStringC (staticRecordId r i)) as [k|] eqn:Ek; cbn [bind]; [discriminate|].
  intros [= <-]. now apply toStringC_Throw in Ek.
Qed.

Lemma inquirySuggestion_Throw h i q msg :
  inquirySuggestion h i q = Throw msg -> msg = typeError.
Proof.
  unfold inquirySuggestion. cbv zeta.
  destruct (validateInquiryC h q) as [x|] eqn:Ev; cbn [bind].
  2:{ intros [= <-]. eapply validateInquiryC_Throw, Ev. }
  destruct (toStringC (staticInquiryId q i)) as [k|] eqn:Ek; cbn [bind]; [discriminate|].
  intros [= <-]. now apply toStringC_Throw in Ek.
Qed.


Lemma returns_staticAccountCheck h i a :
  a <> VNull -> a <> VUndefined ->
  returns (staticAccountCheck h i a)
  = converts (staticAccountId a i) && forallb converts (More.accountConverted a).
Proof.
  intros Hn Hu. unfold staticAccountCheck.
  rewrite returns_bind, returns_toStringC, returns_bind, returns_validateAccountC by assumption.
  cbn [returns]. now rewrite andb_true_r.
Qed.



(** *** The suggestion loops *)

Lemma mapM_checks {A B} (f : A -> Completion B) (c : A -> Completion unit) l ws :
  (forall x w, f x = Return w -> c x = Return tt) ->
  mapM f l = Return ws -> mapM c l = Return (map (fun _ => tt) l).
Proof.
  intros Hfc H. apply mapM_Return in H. apply mapM_total.
  intros x Hx. apply List.Forall2_flip in H.
  induction H as [|w x' ws' l' Hw _ IH]; [destruct Hx|].
  destruct Hx as [->|Hx]; [eapply Hfc, Hw | now apply IH].
Qed.

(** What [generateStaticSuggestions] does when it returns. *)
Lemma generateStaticSuggestions_Return h creditData accounts records inquiries sugg :
  as_items (field_or_empty creditData "CREDIT_LIABILITY") = Return accounts ->
  as_items (field_or_empty creditData "PUBLIC_RECORD") = Return records ->
  as_items (field_or_empty creditData "INQUIRY") = Return inquiries ->
  generateStaticSuggestions h creditData = Return sugg ->
  exists w1 w2 w3,
    mapM (fun p => accountSuggestion h (fst p) (snd p)) (imap (fun i x => (i, x)) accounts)
    = Return w1
    /\ mapM (fun p => recordSuggestion h (fst p) (snd p)) (imap (fun i x => (i, x)) records)
       = Return w2
    /\ mapM (fun p => inquirySuggestion h (fst p) (snd p))
            (imap (fun i x => (i, x)) inquiries)
       = Return w3
    /\ sugg = assign_all (w1 ++ w2 ++ w3) ∅.
Proof.
  intros Ha Hr Hi. unfold generateStaticSuggestions. rewrite Ha, Hr, Hi. cbn [bind].
  destruct (mapM _ (imap _ accounts)) as [w1|]; cbn [bind]; [|discriminate].
  destruct (mapM _ (imap _ records)) as [w2|]; cbn [bind]; [|discriminate].
  destruct (mapM _ (imap _ inquiries)) as [w3|]; cbn [bind]; [|discriminate].
  intros [= <-]. now exists w1, w2, w3.
Qed.

(** When the suggestions are computable, so are the three loops of the
    static scan. *)
Lemma static_checks h creditData accounts records inquiries sugg :
  as_items (field_or_empty creditData "CREDIT_LIABILITY") = Return accounts ->
  as_items (field_or_empty creditData "PUBLIC_RECORD") = Return records ->
  as_items (field_or_empty creditData "INQUIRY") = Return inquiries ->
  generateStaticSuggestions h creditData = Return sugg ->
  mapM (fun p => staticAccountCheck h (fst p) (snd p)) (imap (fun i x => (i, x)) accounts)
  = Return (map (fun _ => tt) (imap (fun i x => (i, x)) accounts))
  /\ mapM (fun p => staticRecordCheck h (fst p) (snd p)) (imap (fun i x => (i, x)) records)
     = Return (map (fun _ => tt) (imap (fun i x => (i, x)) records))
  /\ mapM (fun p => staticInquiryCheck h (fst p) (snd p)) (imap (fun i x => (i, x)) inquiries)
     = Return (map (fun _ => tt) (imap (fun i x => (i, x)) inquiries)).
Proof.
  intros Ha Hr Hi Hs.
  destruct (generateStaticSuggestions_Return _ _ _ _ _ _ Ha Hr Hi Hs)
    as (w1 & w2 & w3 & H1 & H2 & H3 & _).
  split; [|split].
  - eapply mapM_checks, H1. intros [i x] w Hw. now apply accountSuggestion_Return in Hw.
  - eapply mapM_checks, H2. intros [i x] w Hw. now apply recordSuggestion_Return in Hw.
  - eapply mapM_checks, H3. intros [i x] w Hw. now apply inquirySuggestion_Return in Hw.
Qed.

(** The static scan returns exactly when the suggestions are computable,
    with the payload built from the assignments of [ScanSpec.staticWrites]. *)
Lemma generateStaticViolations_Return h creditData accounts records inquiries sugg :
  as_items (field_or_empty creditData "CREDIT_LIABILITY") = Return accounts ->
  as_items (field_or_empty creditData "PUBLIC_RECORD") = Return records ->
  as_items (field_or_empty creditData "INQUIRY") = Return inquiries ->
  generateStaticSuggestions h creditData = Return sugg ->
  exists p,
    generateStaticViolations h creditData = Return p
    /\ suggestions p = sugg
    /\ violations p
       = sortedUnique <$> assign_all (ScanSpec.staticWrites h accounts records inquiries) ∅
    /\ metro2Violations p
       = (fun l => List.filter (fun v => includes v "Metro 2") (List.filter notSentinel l))
           <$> violations p
    /\ fcrFdcpaViolations p
       = (fun l => List.filter (fun v => includes v "FCRA" || includes v "FDCPA")
                               (List.filter notSentinel l))
           <$> violations p
    /\ totalViolations p
       = List.length (List.filter notSentinel (flat_values (violations p)))
    /\ affectedAccounts p = size (violations p)
    /\ totalItemsProcessed (tokenInfo p) = size (violations p)
    /\ breakdown p = {| accounts := List.length accounts;
                        publicRecords := List.length records;
                        inquiries := List.length inquiries |}
    /\ fallbackUsed (tokenInfo p) = true
    /\ success p = true
    /\ inputTokens (tokenInfo p) = 0
    /\ itemsAnalyzedWithAI (tokenInfo p) = 0%nat
    /\ itemsSkippedByTokens (tokenInfo p) = 0%nat.
Proof.
  intros Ha Hr Hi Hs.
  destruct (static_checks _ _ _ _ _ _ Ha Hr Hi Hs) as (H1 & H2 & H3).
  unfold generateStaticViolations. rewrite Ha, Hr, Hi. cbn [bind].
  rewrite H1. cbn [bind]. rewrite H2. cbn [bind]. rewrite H3. cbn [bind].
  rewrite Hs. cbn [bind].
  eexists. split; [reflexivity|].
  cbn [suggestions violations metro2Violations fcrFdcpaViolations affectedAccounts
       tokenInfo totalItemsProcessed breakdown fallbackUsed totalViolations success
       inputTokens itemsAnalyzedWithAI itemsSkippedByTokens].
  rewrite map_size_fmap. repeat split; reflexivity.
Qed.

End StaticScanFacts.

Section SentinelClaims.
Import Js Validator Routes.


Lemma notSentinel_sentinel : notSentinel sentinel = false.
Proof. reflexivity. Qed.




(** C5, as stated, fails for two kinds of item on which no rule fires.
    The client sends [chargedOffItem] both as an account and as a public
    record; no account rule fires on it, and the payload holds under its id
    the violation of the public record, not the sentinel. And the account
    with the id ["__proto__"] is recorded under no key at all. *)
Lemma C5_clean_item_not_recorded_counterexample :
  Client.requestPayload Spec.exampleHost 0 Examples.chargedOffReport
  = Return Examples.chargedOffRequest
  /\ accountViolations Spec.exampleHost Examples.chargedOffItem = []
  /\ (exists p,
        generateStaticViolations Spec.exampleHost Examples.chargedOffRequest = Return p
        /\ violations p !! "A1"
           = Some ["Metro 2 Violation: Missing Compliance Condition Code [Field 33] - Required for all public records (Source: Credit Reporting Resource Guide 2020, Section 5.1.2)"]
        /\ violations p !! "A1" <> Some [sentinel])
  /\ accountViolations Spec.exampleHost Examples.protoAccount = []
  /\ (exists p,
        generateStaticViolations Spec.exampleHost Examples.protoRequest = Return p
        /\ violations p = ∅
        /\ affectedAccounts p = 0%nat).
Proof.
  split; [reflexivity|]. split; [reflexivity|]. split; [|split; [reflexivity|]].
  - eexists. split; [reflexivity|]. split; [vm_compute; reflexivity|].
    vm_compute. discriminate.
  - eexists. split; [reflexivity|]. split; vm_compute; reflexivity.
Qed.

End SentinelClaims.

Section AssistedScanFacts.
Import Js Validator Routes.

Lemma lookup_map {A B} (f : A -> B) (l : list A) (i : nat) :
  map f l !! i = f <$> l !! i.
Proof.
  revert i. induction l as [|x l IH]; intros [|i]; cbn; auto.
Qed.

Lemma batchLoop_spec oracle (batchSize : nat) :
  (0 < batchSize)%nat ->
  forall fuel items i results,
    (List.length items - i <= fuel)%nat ->
    batchLoop oracle fuel items batchSize i results
    = results ++ imap (fun k w => processItemWithAI oracle w (i + k)) (drop i items).
Proof.
  intros Hb. induction fuel as [|fuel IH]; intros items i results Hfuel.
  - cbn [batchLoop]. rewrite drop_ge by lia. cbn. now rewrite app_nil_r.
  - cbn [batchLoop]. destruct (i <? List.length items)%nat eqn:E.
    + apply Nat.ltb_lt in E. rewrite IH by lia.
      rewrite <- app_assoc. f_equal.
      rewrite <- (drop_drop items batchSize i).
      pose proof (take_drop batchSize (drop i items)) as Htd.
      set (D := drop i items) in *.
      rewrite <- Htd at 3.
      rewrite imap_app. f_equal.
      apply imap_ext. intros k x Hk. cbn.
      apply lookup_lt_Some in Hk. rewrite length_drop in Hk.
      rewrite length_take. f_equal. lia.
    + apply Nat.ltb_ge in E. rewrite drop_ge by lia. cbn. now rewrite app_nil_r.
Qed.

(** Every item is processed, once, at its own index: the batches only
    group the calls. *)
Lemma processInBatches_all oracle items :
  processInBatches oracle items MAX_CONCURRENT_REQUESTS = ScanSpec.itemResults oracle items.
Proof.
  unfold processInBatches. rewrite batchLoop_spec; [reflexivity | unfold MAX_CONCURRENT_REQUESTS; lia | lia].
Qed.

Lemma ceil_div4_gt n k : (ceil_div4 n >? k) = (4 * k <? n).
Proof.
  unfold ceil_div4. rewrite Z.gtb_ltb.
  pose proof (Z.div_mod (n + 3) 4 ltac:(lia)).
  pose proof (Z.mod_pos_bound (n + 3) 4 ltac:(lia)).
  destruct (Z.ltb_spec k ((n + 3) / 4)), (Z.ltb_spec (4 * k) n); auto; lia.
Qed.

(** [processItemWithAI] skips the items whose summary is longer than 4000
    code units, asks the service about each other item, and keeps the lines
    of the answer to that item. *)
Lemma processItemWithAI_expected oracle w i :
  processItemWithAI oracle w i = ScanSpec.expectedResult oracle w i.
Proof.
  unfold processItemWithAI, ScanSpec.expectedResult, ScanSpec.expectedLines, ScanSpec.answer,
    ScanSpec.oversized, ScanSpec.summaryText.
  destruct (stringify _) as [text|]; cbn [countTokens]; [|reflexivity].
  rewrite ceil_div4_gt. unfold TOKENS_PER_ACCOUNT_LIMIT. change (4 * 1000) with 4000.
  destruct (4000 <? Z.of_nat (length16 text)); [reflexivity|].
  destruct (oracle i (itemType w) text) as [|[response|]]; try reflexivity.
  destruct (response =? "")%string; reflexivity.
Qed.



Lemma expectedLines_none oracle w i :
  ScanSpec.oversized w i = true \/ ScanSpec.callFails oracle w i = true ->
  ScanSpec.answer oracle w i = None /\ ScanSpec.expectedLines oracle w i = [].
Proof.
  unfold ScanSpec.expectedLines, ScanSpec.answer, ScanSpec.callFails.
  destruct (ScanSpec.summaryText w i) as [text|]; [|auto].
  destruct (ScanSpec.oversized w i); [auto|].
  intros [H|H]; [discriminate|].
  destruct (oracle i (itemType w) text); [auto | discriminate].
Qed.

Lemma processItemWithAI_no_violations oracle w i :
  ScanSpec.oversized w i = true \/ ScanSpec.callFails oracle w i = true ->
  processItemWithAI oracle w i
  = {| itemId := aiItemId w i; itemViolations := [];
       skippedByTokens := ScanSpec.oversized w i; analyzedWithAI := false |}.
Proof.
  intros H. rewrite processItemWithAI_expected. unfold ScanSpec.expectedResult.
  destruct (expectedLines_none oracle w i H) as [-> ->]. reflexivity.
Qed.



Lemma itemIdChecks items :
  (forall i w, items !! i = Some w -> converts (aiItemId w i) = true) ->
  mapM (fun p => itemIdCheck (snd p) (fst p)) (imap (fun i x => (i, x)) items)
  = Return (map (fun _ => tt) (imap (fun i x => (i, x)) items)).
Proof.
  intros H. apply mapM_total. intros [i w] Hp.
  apply list_elem_of_In, elem_of_lookup_imap in Hp as (i' & w' & [= -> ->] & Hw).
  unfold itemIdCheck. cbn [fst snd]. rewrite toStringC_converts by eauto. reflexivity.
Qed.

Lemma remainingIdChecks remaining :
  (forall i r, remaining !! i = Some r -> converts (remainingRecordId i r) = true) ->
  mapM (fun p => toStringC (remainingRecordId (fst p) (snd p)))
       (imap (fun i x => (i, x)) remaining)
  = Return (map (fun p => toString (remainingRecordId (fst p) (snd p)))
                (imap (fun i x => (i, x)) remaining)).
Proof.
  intros H. apply mapM_total. intros [i r] Hp.
  apply list_elem_of_In, elem_of_lookup_imap in Hp as (i' & r' & [= -> ->] & Hr).
  cbn [fst snd]. apply toStringC_converts. eauto.
Qed.

(** The payload of an assisted scan that gets through its conversions. *)
Lemma performAiScan_assisted_Return
    h oracle creditData n accounts records inquiries remaining sugg :
  countTokens (stringify creditData) = Return n ->
  n <= MAX_INPUT_TOKENS ->
  as_items (field_or_empty creditData "CREDIT_LIABILITY") = Return accounts ->
  as_items (field_or_empty creditData "PUBLIC_RECORD") = Return records ->
  as_items (field_or_empty creditData "INQUIRY") = Return inquiries ->
  remainingPublicRecords creditData = Return remaining ->
  generateStaticSuggestions h creditData = Return sugg ->
  let items := allItemsToProcess accounts records inquiries in
  (forall i w, items !! i = Some w -> converts (aiItemId w i) = true) ->
  (forall i r, remaining !! i = Some r -> converts (remainingRecordId i r) = true) ->
  let results := ScanSpec.itemResults oracle items in
  let writes := map (fun r => (itemId r, itemViolations r)) results in
  exists p,
    performAiScan h true oracle creditData = Return p
    /\ violations p = addRemaining h (assigned_proto writes) (assign_all writes ∅) remaining
    /\ metro2Violations p = List.filter (fun v => includes v "Metro 2") <$> violations p
    /\ fcrFdcpaViolations p
       = List.filter (fun v => includes v "FCRA" || includes v "FDCPA") <$> violations p
    /\ suggestions p = sugg
    /\ totalViolations p = List.length (flat_values (violations p))
    /\ affectedAccounts p = List.length (keys (violations p))
    /\ breakdown p
       = {| accounts := count_true (fun id => startsWith id "TRADE") (keys (violations p));
            publicRecords :=
              count_true (fun id => includes id "PUBLIC-RECORD") (keys (violations p));
            inquiries := count_true (fun id => includes id "INQUIRY") (keys (violations p)) |}
    /\ tokenInfo p
       = {| inputTokens := n;
            itemsAnalyzedWithAI := count_true analyzedWithAI results;
            itemsSkippedByTokens := count_true skippedByTokens results;
            totalItemsProcessed := List.length results;
            fallbackUsed := false |}
    /\ message p = Routes.scanMessage (Routes.accounts (breakdown p))
                                      (Routes.publicRecords (breakdown p))
                                      (Routes.inquiries (breakdown p))
    /\ success p = true.
Proof.
  intros Hn Hle Ha Hr Hi Hrem Hs items Hids Hrids results writes.
  unfold performAiScan. rewrite Hn. cbn [bind].
  destruct (n >? MAX_INPUT_TOKENS) eqn:E; [apply Z.gtb_lt in E; lia|].
  cbn [negb]. rewrite Ha, Hr, Hi. cbn [bind]. fold items.
  rewrite (itemIdChecks items Hids). cbn [bind].
  rewrite Hrem. cbn [bind]. rewrite (remainingIdChecks remaining Hrids). cbn [bind].
  rewrite Hs. cbn [bind].
  rewrite (processInBatches_all oracle items). fold results. fold writes.
  eexists. split; [reflexivity|].
  cbn [violations metro2Violations fcrFdcpaViolations suggestions totalViolations
       affectedAccounts breakdown tokenInfo message success
       Routes.accounts Routes.publicRecords Routes.inquiries].
  repeat split; reflexivity.
Qed.

End AssistedScanFacts.

Section AssistedScanClaims.
Import Js Validator Routes.



(** C9, as stated, fails. The client sends [sharedItem] both as an account
    and as a public record; the call for the account fails and the call for
    the public record is answered: the payload holds under the id of the
    failed item the line of the other item, not the empty list. And when
    the id of an account is an object with a property ["toString"], the
    log line of the [catch] block throws: a failing call aborts the scan
    and the handler answers 500. *)
Lemma C9_failed_item_counterexample :
  ScanSpec.callFails Examples.flakyOracle
    {| item := Examples.sharedItem; itemType := TAccount;
       originalIndex := 0; inquiryIndex := None |} 0 = true
  /\ aiItemId {| item := Examples.sharedItem; itemType := TAccount;
                 originalIndex := 0; inquiryIndex := None |} 0 = VStr "A1"
  /\ (exists p,
        performAiScan Spec.exampleHost true Examples.flakyOracle Examples.sharedIdRequest
        = Return p
        /\ violations p !! "A1"
           = Some ["- FCRA Violation: Inaccurate account status reporting [FCRA § 623(a)]"]
        /\ violations p !! "A1" <> Some [])
  /\ performAiScan Spec.exampleHost true Examples.failingOracle Examples.unprintableIdRequest
     = Throw typeError
  /\ status (api_ai_scan Spec.exampleHost true Examples.failingOracle
                Examples.unprintableIdRequest) = 500.
Proof.
  split; [reflexivity|]. split; [reflexivity|]. split; [|split; vm_compute; reflexivity].
  eexists. split; [vm_compute; reflexivity|].
  split; [vm_compute; reflexivity | vm_compute; discriminate].
Qed.

End AssistedScanClaims.

(* ===================================================================== *)
(** ** Further properties of the validators                                *)
(* ===================================================================== *)

Section RuleIndependence.
Import Js JsDate Validator.

(** X1. The nine fixed rules of the account validators are independent:
    the violation of a rule is among the violations [validateAccount]
    reports exactly when the condition of that rule holds, whatever the
    other rules and the CRC texts do. *)
Theorem account_rule_reported_iff_fires (h : Host) (account : JsValue)
    (v : ValidatedViolation) (c : bool) :
  In (v, c) (Spec.metro2_rules account ++ Spec.fcra_rules h account
             ++ Spec.fdcpa_rules h account) ->
  (In v (violations (validateAccount h account)) <-> c = true).
Proof.
  intros Hin.
  rewrite validateAccount_violations_iff,
    accountViolations_fixed by (eapply fixed_rule_has_page, Hin).
  split; [|intros ->; exact Hin].
  intros Ht. cbn [In app Spec.metro2_rules Spec.fcra_rules Spec.fdcpa_rules] in Hin.
  repeat (destruct Hin as [Hin|Hin];
          [injection Hin as <- <-; rule_cases Ht; exact Ht|]).
  destruct Hin.
Qed.

Lemma account_rule_reported_witness :
  In duplicateViolation
     (violations (validateAccount Spec.exampleHost Examples.numberedAccount))
  /\ ~ In bankruptcyViolation
         (violations (validateAccount Spec.exampleHost Examples.numberedAccount)).
Proof.
  split.
  - apply (proj2 (account_rule_reported_iff_fires Spec.exampleHost Examples.numberedAccount
                    duplicateViolation true
                    ltac:(cbn; tauto))). reflexivity.
  - intros H.
    apply (proj1 (account_rule_reported_iff_fires Spec.exampleHost Examples.numberedAccount
                    bankruptcyViolation false
                    ltac:(cbn; tauto))) in H. discriminate H.
Defined.

(** X2. The two rules of a public record and the two rules of an inquiry
    are independent in the same way. In particular a public record without
    a compliance condition code, or an inquiry without a purpose, never
    comes out clean. *)
Theorem record_inquiry_rule_reported_iff_fires (h : Host) (item : JsValue)
    (v : ValidatedViolation) (c : bool) :
  (In (v, c) (Spec.record_rules h item) ->
   (In v (violations (validatePublicRecord h item)) <-> c = true))
  /\ (In (v, c) (Spec.inquiry_rules h item) ->
      (In v (violations (validateInquiry h item)) <-> c = true))
  /\ (truthy (get item "@_ComplianceConditionCode") = false ->
      hasViolations (validatePublicRecord h item) = true)
  /\ (truthy (get item "@_InquiryPurpose") = false ->
      hasViolations (validateInquiry h item) = true).
Proof.
  split; [|split; [|split]].
  - intros Hin. rewrite validatePublicRecord_violations_iff, publicRecordViolations_rules,
      In_fired.
    split; [|intros ->; exact Hin].
    intros Ht. cbn [In Spec.record_rules] in Hin.
    repeat (destruct Hin as [Hin|Hin];
            [injection Hin as <- <-; rule_cases Ht; exact Ht|]).
    destruct Hin.
  - intros Hin. rewrite validateInquiry_violations_iff, inquiryViolations_rules, In_fired.
    split; [|intros ->; exact Hin].
    intros Ht. cbn [In Spec.inquiry_rules] in Hin.
    repeat (destruct Hin as [Hin|Hin];
            [injection Hin as <- <-; rule_cases Ht; exact Ht|]).
    destruct Hin.
  - intros Hc. unfold validatePublicRecord. rewrite format_hasViolations.
    assert (Hin : In missingConditionCodeViolation (publicRecordViolations h item)).
    { rewrite publicRecordViolations_rules. apply In_fired. cbn.
      unfold Spec.fires_missingConditionCode. rewrite Hc. tauto. }
    destruct (publicRecordViolations h item); [destruct Hin | reflexivity].
  - intros Hc. unfold validateInquiry. rewrite format_hasViolations.
    assert (Hin : In missingPurposeViolation (inquiryViolations h item)).
    { rewrite inquiryViolations_rules. apply In_fired. cbn.
      unfold Spec.fires_missingPurpose. rewrite Hc. tauto. }
    destruct (inquiryViolations h item); [destruct Hin | reflexivity].
Qed.

Lemma record_inquiry_rule_witness :
  hasViolations (validatePublicRecord Spec.exampleHost (VObj [])) = true
  /\ hasViolations (validateInquiry Spec.exampleHost (VObj [])) = true
  /\ ~ In missingConditionCodeViolation
         (violations (validatePublicRecord Spec.exampleHost Examples.undatedRecord)).
Proof.
  pose proof (record_inquiry_rule_reported_iff_fires Spec.exampleHost (VObj [])
                missingConditionCodeViolation true) as (_ & _ & H3 & H4).
  split; [exact (H3 eq_refl)|]. split; [exact (H4 eq_refl)|].
  intros H.
  apply (proj1 (proj1 (record_inquiry_rule_reported_iff_fires Spec.exampleHost
                         Examples.undatedRecord missingConditionCodeViolation false)
                  ltac:(cbn; tauto))) in H.
  discriminate H.
Defined.

End RuleIndependence.

Section NormalizerInvariants.
Import Js Validator.

Lemma first_occurrences_fresh {A} (key : A -> string) seen l x :
  In x (Spec.first_occurrences key seen l) ->
  existsb (fun y => (key y =? key x)%string) seen = false.
Proof.
  revert seen. induction l as [|x0 r IH]; intros seen; cbn [Spec.first_occurrences];
    [intros []|].
  destruct (existsb (fun y => (key y =? key x0)%string) seen) eqn:E; [apply IH|].
  intros [<-|Hin]; [exact E|].
  apply IH in Hin. rewrite existsb_app in Hin. now apply orb_false_elim in Hin as [Hin _].
Qed.

Lemma first_occurrences_NoDup {A} (key : A -> string) seen l :
  NoDup (map key (Spec.first_occurrences key seen l)).
Proof.
  apply NoDup_ListNoDup.
  revert seen. induction l as [|x0 r IH]; intros seen; cbn [Spec.first_occurrences map];
    [constructor|].
  destruct (existsb (fun y => (key y =? key x0)%string) seen) eqn:E; [apply IH|].
  cbn [map]. apply List.NoDup_cons; [|apply IH].
  rewrite in_map_iff. intros (x & Hk & Hin).
  apply first_occurrences_fresh in Hin. rewrite existsb_app in Hin.
  apply orb_false_elim in Hin as [_ Hin]. cbn in Hin.
  rewrite Hk, String.eqb_refl in Hin. discriminate.
Qed.

Lemma first_occurrences_length {A} (key : A -> string) seen l :
  (List.length (Spec.first_occurrences key seen l) <= List.length l)%nat.
Proof.
  revert seen. induction l as [|x0 r IH]; intros seen; cbn [Spec.first_occurrences]; [lia|].
  destruct (existsb _ seen); cbn [List.length].
  - specialize (IH seen). lia.
  - specialize (IH (seen ++ [x0])). lia.
Qed.

(** A list without repeated keys is its own list of first occurrences. *)
Lemma first_occurrences_id {A} (key : A -> string) seen l :
  NoDup (map key l) ->
  (forall x, In x l -> existsb (fun y => (key y =? key x)%string) seen = false) ->
  Spec.first_occurrences key seen l = l.
Proof.
  rewrite NoDup_ListNoDup.
  revert seen. induction l as [|x0 r IH]; intros seen Hnd Hseen; [reflexivity|].
  cbn [Spec.first_occurrences]. rewrite (Hseen x0) by now left.
  f_equal. apply List.NoDup_cons_iff in Hnd as [Hx0 Hnd].
  apply IH; [exact Hnd|].
  intros x Hx. rewrite existsb_app, (Hseen x) by now right. cbn.
  destruct (key x0 =? key x)%string eqn:E; [|reflexivity].
  apply String.eqb_eq in E. exfalso. apply Hx0. rewrite E. now apply in_map.
Qed.

Lemma ranks_ascend_app {A} (text : A -> string) l1 l2 :
  More.ranks_ascend text l1 -> More.ranks_ascend text l2 ->
  (forall x y, In x l1 -> In y l2 ->
     (Spec.category_rank (text x) <= Spec.category_rank (text y))%nat) ->
  More.ranks_ascend text (l1 ++ l2).
Proof.
  induction l1 as [|x r IH]; intros H1 H2 H12; [exact H2|].
  cbn [app More.ranks_ascend] in *. destruct H1 as [Hx Hr]. split.
  - apply List.Forall_app. split; [exact Hx|].
    apply List.Forall_forall. intros y Hy. apply H12; [now left | exact Hy].
  - apply IH; auto. intros x' y Hx' Hy. apply H12; [now right | exact Hy].
Qed.

Lemma by_rank_ascend {A} (text : A -> string) lo n l :
  More.ranks_ascend text (Spec.by_rank (fun x => Spec.category_rank (text x)) lo n l).
Proof.
  revert lo. induction n as [|n IH]; intros lo; cbn [Spec.by_rank]; [exact I|].
  apply ranks_ascend_app; [|apply IH|].
  - clear IH. induction l as [|x r IHl]; cbn [List.filter]; [exact I|].
    destruct (Spec.category_rank (text x) =? lo)%nat eqn:E; [|exact IHl].
    cbn [More.ranks_ascend]. split; [|exact IHl].
    apply List.Forall_forall. intros y Hy. apply filter_In in Hy as [_ Hy].
    apply Nat.eqb_eq in E. apply Nat.eqb_eq in Hy. lia.
  - intros x y Hx Hy. apply filter_In in Hx as [_ Hx]. apply Nat.eqb_eq in Hx.
    pose proof (by_rank_lower_bound (fun x => Spec.category_rank (text x)) (S lo) n l) as Hb.
    rewrite List.Forall_forall in Hb. specialize (Hb y Hy). cbn in Hb. lia.
Qed.

Lemma sort_ascending_id {A} (text : A -> string) l :
  More.ranks_ascend text l ->
  sort (fun a b => compareCategory (text a) (text b)) l = l.
Proof.
  induction l as [|x r IH]; intros Hl; [reflexivity|].
  destruct Hl as [Hx Hr]. cbn [sort]. rewrite (IH Hr).
  apply (sort_insert_front _ (fun y => Spec.category_rank (text y))); [|exact Hx].
  intros a b. apply compareCategory_rank.
Qed.

Lemma normalize_shape {A} (text : A -> string) (l : list A) :
  let out := Spec.stable_by_category text (Spec.spec_dedup text l) in
  More.distinct_texts text out
  /\ More.ranks_ascend text out
  /\ incl out l
  /\ (List.length out <= List.length l)%nat
  /\ Spec.stable_by_category text (Spec.spec_dedup text out) = out.
Proof.
  cbv zeta.
  assert (Hperm : Permutation (Spec.stable_by_category text (Spec.spec_dedup text l))
                              (Spec.spec_dedup text l)).
  { rewrite <- sort_stable_by_category. apply sort_perm. }
  assert (Hnd : More.distinct_texts text
                  (Spec.stable_by_category text (Spec.spec_dedup text l))).
  { unfold More.distinct_texts. apply NoDup_ListNoDup. eapply Permutation_NoDup.
    - apply Permutation_map. symmetry. exact Hperm.
    - apply NoDup_ListNoDup, (first_occurrences_NoDup (fun x => trim (text x))). }
  assert (Hasc : More.ranks_ascend text
                   (Spec.stable_by_category text (Spec.spec_dedup text l)))
    by apply by_rank_ascend.
  split; [exact Hnd|]. split; [exact Hasc|]. split; [|split].
  - intros x Hx. eapply Permutation_in in Hx; [|exact Hperm].
    eapply first_occurrences_incl, Hx.
  - rewrite (Permutation_length Hperm). apply first_occurrences_length.
  - unfold Spec.spec_dedup at 1.
    rewrite (first_occurrences_id (fun x => trim (text x))); [|exact Hnd|reflexivity].
    rewrite <- sort_stable_by_category. now apply sort_ascending_id.
Qed.

(** Both normalizers, through [normalize_shape]. *)
Lemma normalizers_shape (vs : list ValidatedViolation) (ss : list string) :
  (More.distinct_texts violation (removeDuplicatesAndSort vs)
   /\ More.ranks_ascend violation (removeDuplicatesAndSort vs)
   /\ incl (removeDuplicatesAndSort vs) vs
   /\ (List.length (removeDuplicatesAndSort vs) <= List.length vs)%nat
   /\ removeDuplicatesAndSort (removeDuplicatesAndSort vs) = removeDuplicatesAndSort vs)
  /\ (More.distinct_texts (fun s => s) (removeDuplicateSuggestions ss)
      /\ More.ranks_ascend (fun s => s) (removeDuplicateSuggestions ss)
      /\ incl (removeDuplicateSuggestions ss) ss
      /\ (List.length (removeDuplicateSuggestions ss) <= List.length ss)%nat
      /\ removeDuplicateSuggestions (removeDuplicateSuggestions ss)
         = removeDuplicateSuggestions ss).
Proof.
  split.
  - rewrite !removeDuplicatesAndSort_spec. rewrite <- removeDuplicatesAndSort_spec at 5.
    rewrite removeDuplicatesAndSort_spec. apply (normalize_shape violation vs).
  - rewrite !removeDuplicateSuggestions_spec. rewrite <- removeDuplicateSuggestions_spec at 5.
    rewrite removeDuplicateSuggestions_spec. apply (normalize_shape (fun s : string => s) ss).
Qed.

(** X3. What [removeDuplicatesAndSort] and [removeDuplicateSuggestions]
    return, for every input: no two entries have the same trimmed text, the
    category ranks never decrease, every entry comes from the input, and
    normalizing the result again changes nothing. *)
Theorem normalizers_invariants (vs : list ValidatedViolation) (ss : list string) :
  (More.distinct_texts violation (removeDuplicatesAndSort vs)
   /\ More.ranks_ascend violation (removeDuplicatesAndSort vs)
   /\ incl (removeDuplicatesAndSort vs) vs
   /\ (List.length (removeDuplicatesAndSort vs) <= List.length vs)%nat
   /\ removeDuplicatesAndSort (removeDuplicatesAndSort vs) = removeDuplicatesAndSort vs)
  /\ (More.distinct_texts (fun s => s) (removeDuplicateSuggestions ss)
      /\ More.ranks_ascend (fun s => s) (removeDuplicateSuggestions ss)
      /\ incl (removeDuplicateSuggestions ss) ss
      /\ (List.length (removeDuplicateSuggestions ss) <= List.length ss)%nat
      /\ removeDuplicateSuggestions (removeDuplicateSuggestions ss)
         = removeDuplicateSuggestions ss).
Proof. apply normalizers_shape. Qed.

End NormalizerInvariants.

Section ResultShape.
Import Js Validator.

Lemma generateValidatedSuggestions_length vs :
  (List.length (generateValidatedSuggestions vs) <= List.length vs)%nat.
Proof.
  unfold generateValidatedSuggestions.
  induction vs as [|v r IH]; [reflexivity|].
  cbn [flat_map]. rewrite List.length_app. cbn [List.length].
  repeat match goal with
         | |- context [if ?c then _ else _] => destruct c
         end; cbn [List.length]; lia.
Qed.

(** X4. The result of the formatting step, for every list of emitted
    violations: [hasViolations] holds exactly when something was emitted,
    exactly when the reported list is non-empty and exactly when no
    no-violation message is set; a clean result carries the fixed message
    and no suggestion; there are never more suggestions than reported
    violations, nor more reported violations than emitted ones. *)
Theorem validation_result_shape (vs : list ValidatedViolation) :
  let r := formatValidationResult vs in
  (hasViolations r = true <-> vs <> [])
  /\ (hasViolations r = true <-> violations r <> [])
  /\ (hasViolations r = true <-> noViolationMessage r = None)
  /\ (hasViolations r = false ->
      noViolationMessage r = Some NO_VIOLATION_MESSAGE /\ suggestions r = []
      /\ violations r = [])
  /\ (List.length (suggestions r) <= List.length (violations r))%nat
  /\ (List.length (violations r) <= List.length vs)%nat.
Proof.
  cbv zeta.
  pose proof (format_hasViolations vs) as Hh.
  pose proof (removeDuplicatesAndSort_nil vs) as Hnil.
  assert (Hv : violations (formatValidationResult vs) = removeDuplicatesAndSort vs)
    by reflexivity.
  assert (Hm : noViolationMessage (formatValidationResult vs)
               = if hasViolations (formatValidationResult vs) then None
                 else Some NO_VIOLATION_MESSAGE) by reflexivity.
  assert (Hs : suggestions (formatValidationResult vs)
               = removeDuplicateSuggestions
                   (if hasViolations (formatValidationResult vs)
                    then generateValidatedSuggestions (removeDuplicatesAndSort vs)
                    else [])) by reflexivity.
  rewrite Hv, Hm, Hs, Hh.
  destruct (normalizers_shape vs []) as ((_ & _ & _ & Hlen & _) & _).
  destruct vs as [|v r].
  - change (removeDuplicatesAndSort []) with (@nil ValidatedViolation).
    change (removeDuplicateSuggestions []) with (@nil string).
    split; [split; [discriminate | congruence]|].
    split; [split; [discriminate | congruence]|].
    split; [split; discriminate|].
    split; [intros _; repeat split|].
    split; reflexivity.
  - assert (Hne : removeDuplicatesAndSort (v :: r) <> [])
      by (intros E; apply Hnil in E; discriminate).
    split; [split; [discriminate | reflexivity]|].
    split; [split; [intros _; exact Hne | reflexivity]|].
    split; [split; reflexivity|].
    split; [discriminate|].
    split; [|exact Hlen].
    destruct (normalizers_shape []
                (generateValidatedSuggestions (removeDuplicatesAndSort (v :: r))))
      as (_ & _ & _ & _ & Hl & _).
    pose proof (generateValidatedSuggestions_length (removeDuplicatesAndSort (v :: r))).
    lia.
Qed.

Lemma crcTexts_tagged t :
  In t Spec.crcTexts ->
  includes t "Metro 2" || includes t "FCRA" || includes t "FDCPA" = true.
Proof.
  intros Ht.
  assert (Hb : forallb (fun t => includes t "Metro 2" || includes t "FCRA"
                                 || includes t "FDCPA") Spec.crcTexts = true)
    by (vm_compute; reflexivity).
  rewrite forallb_forall in Hb. now apply Hb.
Qed.

(** X5. No CRC text is lost and none is invented: a text is produced by
    [generateCRCViolations] for an account exactly when [validateAccount]
    reports it, as a violation without page whose source is the citation
    [generateSourceCitation] gives for the text. *)
Theorem crc_violations_reported (h : Host) (account : JsValue) (t : string) :
  In t (Crc.generateCRCViolations h account)
  <-> In {| violation := t; source := Crc.generateSourceCitation t;
            page := None; section := None; isValidated := true |}
         (violations (validateAccount h account)).
Proof.
  change {| violation := t; source := Crc.generateSourceCitation t;
            page := None; section := None; isValidated := true |}
    with (Spec.crcViolation t).
  rewrite validateAccount_violations_iff. split.
  - intros Ht.
    assert (Hin : forall tag, includes t tag = true ->
                              In (Spec.crcViolation t) (crcTagged h account tag)).
    { intros tag Htag. unfold crcTagged. apply (in_map Spec.crcViolation).
      apply filter_In. split; [exact Ht | exact Htag]. }
    pose proof (crcTexts_tagged t (crc_texts h account t Ht)) as Htag.
    unfold accountViolations.
    rewrite validateMetro2Violations_rules, validateFCRAViolations_rules,
      validateFDCPAViolations_rules, !in_app_iff.
    destruct (includes t "Metro 2") eqn:E1; [left; left; now apply Hin|].
    destruct (includes t "FCRA") eqn:E2; [right; left; left; now apply Hin|].
    destruct (includes t "FDCPA") eqn:E3; [right; right; left; now apply Hin|].
    discriminate.
  - intros Hv. apply accountViolations_In in Hv as [Hv|Hv].
    + rewrite !in_app_iff in Hv.
      assert (Hc : exists tag, In (Spec.crcViolation t) (crcTagged h account tag))
        by (destruct Hv as [Hv|[Hv|Hv]]; eauto).
      destruct Hc as (tag & Hc).
      apply crcTagged_shape in Hc as (t' & _ & _ & Heq & Hin).
      injection Heq as -> _. exact Hin.
    + exfalso. eapply fixed_rule_has_page; [exact Hv | reflexivity].
Qed.

(** X6. Every violation one of the three entry points reports opens with
    one of the headings "Metro 2 Violation: ", "FCRA Violation: " or
    "FDCPA Violation: ", is marked validated and names a source; so the
    category split by tag leaves no reported violation unclassified. *)
Theorem reported_violations_have_heading (h : Host) (item : JsValue) (v : ValidatedViolation) :
  In v (violations (validateAccount h item))
  \/ In v (violations (validatePublicRecord h item))
  \/ In v (violations (validateInquiry h item)) ->
  More.has_heading (violation v) = true
  /\ isValidated v = true
  /\ source v <> ""
  /\ (includes (violation v) "Metro 2" || includes (violation v) "FCRA"
      || includes (violation v) "FDCPA" = true).
Proof.
  intros Hv.
  assert (Hc : In v Spec.catalog).
  { destruct Hv as [Hv|[Hv|Hv]].
    - apply validateAccount_violations_iff in Hv. eapply account_catalog, Hv.
    - apply validatePublicRecord_violations_iff in Hv. eapply publicRecord_catalog, Hv.
    - apply validateInquiry_violations_iff in Hv. eapply inquiry_catalog, Hv. }
  assert (Hb : forallb (fun v => More.has_heading (violation v) && isValidated v
                                 && negb (source v =? "")%string
                                 && (includes (violation v) "Metro 2"
                                     || includes (violation v) "FCRA"
                                     || includes (violation v) "FDCPA"))
                       Spec.catalog = true) by (vm_compute; reflexivity).
  rewrite forallb_forall in Hb. specialize (Hb v Hc).
  apply andb_prop in Hb as [Hb H4]. apply andb_prop in Hb as [Hb H3].
  apply andb_prop in Hb as [H1 H2].
  repeat split; auto.
  intros E. rewrite E in H3. discriminate.
Qed.

Lemma reported_violations_have_heading_witness :
  More.has_heading (violation missingDofdViolation) = true.
Proof.
  apply (reported_violations_have_heading Spec.exampleHost Examples.derogatoryAccount
           missingDofdViolation).
  left. apply validateAccount_violations_iff. vm_compute. tauto.
Defined.

End ResultShape.

(* ===================================================================== *)
(** ** Further properties of the scan payloads                             *)
(* ===================================================================== *)

Section ResultObjectMore.
Import Js Validator Routes.
Context {V : Type}.

Lemma assign_all_lookup (ws : list (JsValue * V)) (m : gmap string V) k e :
  assign_all ws m !! k = Some e ->
  m !! k = Some e \/ exists w, In w ws /\ toString (fst w) = k /\ snd w = e.
Proof.
  revert m. induction ws as [|w ws IH]; intros m; [now left|].
  rewrite assign_all_cons. intros H. apply IH in H as [H|(w' & Hw' & Hk & He)].
  - destruct (toString (fst w) =? "__proto__")%string; [now left|].
    destruct (decide (toString (fst w) = k)) as [Heq|Hne].
    + subst k. rewrite lookup_insert_eq in H. injection H as <-.
      right. exists w. repeat split. now left.
    + rewrite lookup_insert_ne in H by exact Hne. now left.
  - right. exists w'. repeat split; auto. now right.
Qed.

(** The own keys of the object: the assigned ids other than ["__proto__"]. *)
Lemma assign_all_keys (ws : list (JsValue * V)) (m : gmap string V) k :
  is_Some (assign_all ws m !! k)
  <-> is_Some (m !! k)
      \/ (k <> "__proto__" /\ In k (map (fun w => toString (fst w)) ws)).
Proof.
  revert m. induction ws as [|w ws IH]; intros m.
  - cbn. tauto.
  - rewrite assign_all_cons, IH. cbn [map In].
    destruct (String.eqb_spec (toString (fst w)) "__proto__") as [Hp|Hp].
    + split; [tauto|]. intros [H|[Hk [Hw|Hw]]]; [tauto | congruence | tauto].
    + destruct (decide (toString (fst w) = k)) as [Heq|Hne].
      * subst k. rewrite lookup_insert_eq. split; [tauto|]. intros _. left. eauto.
      * rewrite lookup_insert_ne by exact Hne. tauto.
Qed.

Lemma assign_all_size (ws : list (JsValue * V)) (m : gmap string V) :
  (size (assign_all ws m) <= size m + List.length ws)%nat.
Proof.
  revert m. induction ws as [|w ws IH]; intros m; [cbn; lia|].
  rewrite assign_all_cons. cbn [List.length].
  destruct (toString (fst w) =? "__proto__")%string.
  { specialize (IH m). lia. }
  specialize (IH (<[toString (fst w) := snd w]> m)).
  assert (size (<[toString (fst w) := snd w]> m) <= S (size m))%nat; [|lia].
  destruct (m !! toString (fst w)) eqn:E.
  - rewrite map_size_insert_Some by eauto. lia.
  - rewrite map_size_insert_None by exact E. lia.
Qed.

End ResultObjectMore.

Section StaticPayload.
Import Js Validator Routes.

Lemma set_spread_In seen l x :
  In x (set_spread seen l) <-> In x l /\ ~ In x seen.
Proof.
  revert seen. induction l as [|y r IH]; intros seen; cbn [set_spread In]; [tauto|].
  destruct (existsb (String.eqb y) seen) eqn:E.
  - rewrite IH. apply existsb_exists in E as (z & Hz & Hyz).
    apply String.eqb_eq in Hyz. subst z.
    split; [tauto|]. intros [[->|Hx] Hn]; [contradiction | tauto].
  - cbn [In]. rewrite IH. cbn [In].
    assert (Hy : ~ In y seen).
    { intros Hy. assert (existsb (String.eqb y) seen = true); [|congruence].
      apply existsb_exists. exists y. split; [exact Hy | apply String.eqb_refl]. }
    destruct (String.eqb_spec y x) as [->|Hne]; [tauto|].
    split; [intros [?|[? ?]]; [contradiction|tauto] | tauto].
Qed.

Lemma sortedUnique_In l x : In x (sortedUnique l) <-> In x l.
Proof.
  unfold sortedUnique. split.
  - intros H. eapply Permutation_in in H; [|apply sort_perm].
    now apply set_spread_In in H.
  - intros H. eapply Permutation_in; [symmetry; apply sort_perm|].
    apply set_spread_In. split; [exact H | tauto].
Qed.

Lemma catalog_formatted v :
  In v Spec.catalog ->
  notSentinel (formatViolation v) = true
  /\ (includes (formatViolation v) "Metro 2"
      || (includes (formatViolation v) "FCRA" || includes (formatViolation v) "FDCPA") = true).
Proof.
  intros Hv.
  assert (Hb : forallb (fun v => notSentinel (formatViolation v)
                                 && (includes (formatViolation v) "Metro 2"
                                     || (includes (formatViolation v) "FCRA"
                                         || includes (formatViolation v) "FDCPA")))
                       Spec.catalog = true) by (vm_compute; reflexivity).
  rewrite forallb_forall in Hb. specialize (Hb v Hv).
  now apply andb_prop in Hb.
Qed.

(** What a static write holds: the sentinel alone, or formatted catalog
    violations. *)
Lemma staticEntry_contents vs :
  incl vs Spec.catalog ->
  staticEntry (formatValidationResult vs) <> []
  /\ forall s, In s (staticEntry (formatValidationResult vs)) ->
       s = sentinel
       \/ (notSentinel s = true
           /\ (includes s "Metro 2" || (includes s "FCRA" || includes s "FDCPA") = true)).
Proof.
  intros Hc. unfold staticEntry.
  pose proof (format_hasViolations vs) as Hh.
  destruct (hasViolations (formatValidationResult vs)) eqn:E.
  - split.
    + destruct (Validator.violations (formatValidationResult vs)) eqn:Ev; [|discriminate].
      cbn [formatValidationResult Validator.violations] in Ev.
      apply (proj1 (removeDuplicatesAndSort_nil vs)) in Ev. subst vs. discriminate Hh.
    + intros s Hs. apply in_map_iff in Hs as (v & <- & Hv). right.
      apply catalog_formatted, Hc. eapply removeDuplicatesAndSort_incl, Hv.
  - split; [discriminate|].
    cbn [formatValidationResult noViolationMessage hasViolations] in *.
    rewrite E. intros s [<-|[]]. now left.
Qed.

Lemma staticWrites_contents h accounts records inquiries w :
  In w (ScanSpec.staticWrites h accounts records inquiries) ->
  snd w <> []
  /\ forall s, In s (snd w) ->
       s = sentinel
       \/ (notSentinel s = true
           /\ (includes s "Metro 2" || (includes s "FCRA" || includes s "FDCPA") = true)).
Proof.
  unfold ScanSpec.staticWrites. rewrite !in_app_iff.
  intros [H|[H|H]]; apply list_elem_of_In, elem_of_lookup_imap in H as (i & x & -> & _);
    cbn [snd staticAccountWrite staticRecordWrite staticInquiryWrite];
    apply staticEntry_contents.
  - apply account_catalog.
  - apply publicRecord_catalog.
  - apply inquiry_catalog.
Qed.

Lemma staticWrites_keys h accounts records inquiries :
  map (fun w => toString (fst w)) (ScanSpec.staticWrites h accounts records inquiries)
  = More.staticKeys accounts records inquiries.
Proof.
  unfold ScanSpec.staticWrites, More.staticKeys.
  rewrite !map_app. repeat f_equal.
  - generalize 0%nat. unfold staticAccountWrite.
    assert (G : forall (f : nat -> nat),
               map (fun w => toString (fst w))
                   (imap (fun i x => (staticAccountId x (f i),
                                      staticEntry (validateAccount h x))) accounts)
               = imap (fun i x => toString (staticAccountId x (f i))) accounts).
    { induction accounts as [|a r IH]; intros f; [reflexivity|].
      cbn [imap map fst]. f_equal. apply (IH (fun i => f (S i))). }
    intros _. apply (G (fun i => i)).
  - assert (G : forall (f : nat -> nat),
               map (fun w => toString (fst w))
                   (imap (fun i x => (staticRecordId x (f i),
                                      staticEntry (validatePublicRecord h x))) records)
               = imap (fun i x => toString (staticRecordId x (f i))) records).
    { induction records as [|a r IH]; intros f; [reflexivity|].
      cbn [imap map fst]. f_equal. apply (IH (fun i => f (S i))). }
    apply (G (fun i => i)).
  - assert (G : forall (f : nat -> nat),
               map (fun w => toString (fst w))
                   (imap (fun i x => (staticInquiryId x (f i),
                                      staticEntry (validateInquiry h x))) inquiries)
               = imap (fun i x => toString (staticInquiryId x (f i))) inquiries).
    { induction inquiries as [|a r IH]; intros f; [reflexivity|].
      cbn [imap map fst]. f_equal. apply (IH (fun i => f (S i))). }
    apply (G (fun i => i)).
Qed.

End StaticPayload.

Section SuggestionFacts.
Import Js Validator Routes.

Lemma nonempty_or_nonempty {A} (l fallback : list A) :
  fallback <> [] -> nonempty_or l fallback <> [].
Proof. destruct l; cbn; [auto | discriminate]. Qed.

Lemma suggestion_writes (f : nat -> JsValue -> Completion (JsValue * list string))
    (id : JsValue -> nat -> JsValue) (l : list JsValue) ws :
  (forall i x w, f i x = Return w -> fst w = id x i /\ snd w <> []) ->
  mapM (fun p => f (fst p) (snd p)) (imap (fun i x => (i, x)) l) = Return ws ->
  map (fun w => toString (fst w)) ws = imap (fun i x => toString (id x i)) l
  /\ Forall (fun w => snd w <> []) ws.
Proof.
  intros Hf H. apply mapM_Return in H.
  assert (G : forall (g : nat -> nat) ws,
             Forall2 (fun x y => f (fst x) (snd x) = Return y)
                     (imap (fun i x => (g i, x)) l) ws ->
             map (fun w => toString (fst w)) ws
             = imap (fun i x => toString (id x (g i))) l
             /\ Forall (fun w => snd w <> []) ws).
  { clear H. induction l as [|a r IH]; intros g ws' H.
    - inversion H. split; [reflexivity | constructor].
    - cbn [imap] in H. inversion H as [|x y l0 l' Hxy Hrest]; subst.
      destruct (IH (fun i => g (S i)) l' Hrest) as [Hk Hn].
      cbn [fst snd] in Hxy. destruct (Hf _ _ _ Hxy) as [Hid Hne].
      cbn [map imap]. split.
      + f_equal; [now rewrite Hid | exact Hk].
      + constructor; [exact Hne | exact Hn]. }
  apply (G (fun i => i)), H.
Qed.

(** What [generateStaticSuggestions] returns, when it returns. *)
Lemma generateStaticSuggestions_inv h creditData sugg :
  generateStaticSuggestions h creditData = Return sugg ->
  exists accounts records inquiries ws,
    as_items (field_or_empty creditData "CREDIT_LIABILITY") = Return accounts
    /\ as_items (field_or_empty creditData "PUBLIC_RECORD") = Return records
    /\ as_items (field_or_empty creditData "INQUIRY") = Return inquiries
    /\ sugg = assign_all ws ∅
    /\ map (fun w => toString (fst w)) ws = More.staticKeys accounts records inquiries
    /\ Forall (fun w => snd w <> []) ws.
Proof.
  intros Hs.
  destruct (as_items (field_or_empty creditData "CREDIT_LIABILITY")) as [accounts|] eqn:Ha;
    [|unfold generateStaticSuggestions in Hs; rewrite Ha in Hs; discriminate Hs].
  destruct (as_items (field_or_empty creditData "PUBLIC_RECORD")) as [records|] eqn:Hr.
  2:{ unfold generateStaticSuggestions in Hs. rewrite Ha, Hr in Hs. cbn [bind] in Hs.
      destruct (mapM _ _); discriminate Hs. }
  destruct (as_items (field_or_empty creditData "INQUIRY")) as [inquiries|] eqn:Hi.
  2:{ unfold generateStaticSuggestions in Hs. rewrite Ha, Hr, Hi in Hs. cbn [bind] in Hs.
      destruct (mapM _ _); cbn [bind] in Hs; [|discriminate Hs].
      destruct (mapM _ _); discriminate Hs. }
  destruct (generateStaticSuggestions_Return _ _ _ _ _ _ Ha Hr Hi Hs)
    as (w1 & w2 & w3 & H1 & H2 & H3 & ->).
  exists accounts, records, inquiries, (w1 ++ w2 ++ w3).
  apply (suggestion_writes (accountSuggestion h) staticAccountId) in H1 as [Hk1 Hn1].
  2:{ intros i x w Hw. apply accountSuggestion_Return in Hw as (Hid & _ & _ & crc & _ & Hsnd).
      split; [exact Hid|]. rewrite Hsnd. now apply nonempty_or_nonempty. }
  apply (suggestion_writes (recordSuggestion h) staticRecordId) in H2 as [Hk2 Hn2].
  2:{ intros i x w Hw. apply recordSuggestion_Return in Hw as (-> & _).
      split; [reflexivity|]. now apply nonempty_or_nonempty. }
  apply (suggestion_writes (inquirySuggestion h) staticInquiryId) in H3 as [Hk3 Hn3].
  2:{ intros i x w Hw. apply inquirySuggestion_Return in Hw as (-> & _).
      split; [reflexivity|]. now apply nonempty_or_nonempty. }
  repeat split; try reflexivity.
  - unfold More.staticKeys. rewrite !map_app, Hk1, Hk2, Hk3. reflexivity.
  - apply List.Forall_app. split; [exact Hn1|]. apply List.Forall_app. split; assumption.
Qed.

End SuggestionFacts.

Section StaticPayloadClaims.
Import Js Validator Routes.

Lemma generateStaticViolations_inv h creditData p :
  generateStaticViolations h creditData = Return p ->
  exists accounts records inquiries sugg,
    as_items (field_or_empty creditData "CREDIT_LIABILITY") = Return accounts
    /\ as_items (field_or_empty creditData "PUBLIC_RECORD") = Return records
    /\ as_items (field_or_empty creditData "INQUIRY") = Return inquiries
    /\ generateStaticSuggestions h creditData = Return sugg
    /\ suggestions p = sugg
    /\ violations p
       = sortedUnique <$> assign_all (ScanSpec.staticWrites h accounts records inquiries) ∅
    /\ metro2Violations p
       = (fun l => List.filter (fun v => includes v "Metro 2") (List.filter notSentinel l))
           <$> violations p
    /\ fcrFdcpaViolations p
       = (fun l => List.filter (fun v => includes v "FCRA" || includes v "FDCPA")
                               (List.filter notSentinel l))
           <$> violations p
    /\ affectedAccounts p = size (violations p)
    /\ totalItemsProcessed (tokenInfo p) = size (violations p)
    /\ breakdown p = {| accounts := List.length accounts;
                        publicRecords := List.length records;
                        inquiries := List.length inquiries |}
    /\ fallbackUsed (tokenInfo p) = true.
Proof.
  intros Hp. pose proof Hp as Hp0. unfold generateStaticViolations in Hp.
  destruct (as_items (field_or_empty creditData "CREDIT_LIABILITY")) as [accounts|] eqn:Ha;
    cbn [bind] in Hp; [|discriminate].
  destruct (as_items (field_or_empty creditData "PUBLIC_RECORD")) as [records|] eqn:Hr;
    cbn [bind] in Hp; [|discriminate].
  destruct (as_items (field_or_empty creditData "INQUIRY")) as [inquiries|] eqn:Hi;
    cbn [bind] in Hp; [|discriminate].
  destruct (mapM _ (imap _ accounts)); cbn [bind] in Hp; [|discriminate].
  destruct (mapM _ (imap _ records)); cbn [bind] in Hp; [|discriminate].
  destruct (mapM _ (imap _ inquiries)); cbn [bind] in Hp; [|discriminate].
  destruct (generateStaticSuggestions h creditData) as [sugg|] eqn:Hs; cbn [bind] in Hp;
    [|discriminate].
  clear Hp.
  destruct (generateStaticViolations_Return _ _ _ _ _ _ Ha Hr Hi Hs)
    as (p' & Hp' & H1 & H2 & H3 & H4 & _ & H6 & H7 & H8 & H9 & _).
  rewrite Hp0 in Hp'. injection Hp' as <-.
  exists accounts, records, inquiries, sugg. repeat split; assumption.
Qed.

Lemma generateStaticViolations_flags h creditData p :
  generateStaticViolations h creditData = Return p ->
  success p = true
  /\ generateStaticSuggestions h creditData = Return (suggestions p)
  /\ fallbackUsed (tokenInfo p) = true
  /\ inputTokens (tokenInfo p) = 0
  /\ itemsAnalyzedWithAI (tokenInfo p) = 0%nat
  /\ itemsSkippedByTokens (tokenInfo p) = 0%nat.
Proof.
  intros Hp.
  destruct (generateStaticViolations_inv h creditData p Hp)
    as (accounts & records & inquiries & sugg & Ha & Hr & Hi & Hs & _).
  destruct (generateStaticViolations_Return _ _ _ _ _ _ Ha Hr Hi Hs)
    as (p' & Hp' & Hsg & _ & _ & _ & _ & _ & _ & _ & Hfb & Hsucc & Hin & Han & Hsk).
  rewrite Hp in Hp'. injection Hp' as <-. rewrite Hsg. auto 10.
Qed.

(** X7. In a static payload the four maps are aligned: an id has a
    violation list exactly when it has a suggestion list, a Metro 2 list
    and an FCRA/FDCPA list; no violation list and no suggestion list is
    empty; [affectedAccounts] and [tokenInfo.totalItemsProcessed] are the
    number of ids, which never exceeds the number of items of the
    breakdown. *)
Theorem static_payload_maps_aligned (h : Host) (creditData : JsValue) (p : ScanPayload) :
  generateStaticViolations h creditData = Return p ->
  (forall id, is_Some (violations p !! id) <-> is_Some (suggestions p !! id))
  /\ (forall id, is_Some (violations p !! id) <-> is_Some (metro2Violations p !! id))
  /\ (forall id, is_Some (violations p !! id) <-> is_Some (fcrFdcpaViolations p !! id))
  /\ (forall id l, violations p !! id = Some l -> l <> [])
  /\ (forall id l, suggestions p !! id = Some l -> l <> [])
  /\ affectedAccounts p = size (violations p)
  /\ totalItemsProcessed (tokenInfo p) = affectedAccounts p
  /\ (affectedAccounts p
      <= accounts (breakdown p) + publicRecords (breakdown p) + inquiries (breakdown p))%nat.
Proof.
  intros Hp.
  destruct (generateStaticViolations_inv h creditData p Hp)
    as (accounts & records & inquiries & sugg & Ha & Hr & Hi & Hs & Hsugg & Hv & Hm & Hf
        & Haff & Htot & Hbd & _).
  destruct (generateStaticSuggestions_inv h creditData sugg Hs)
    as (accounts' & records' & inquiries' & ws & Ha' & Hr' & Hi' & Hws & Hkeys & Hne).
  rewrite Ha in Ha'. rewrite Hr in Hr'. rewrite Hi in Hi'.
  injection Ha' as <-. injection Hr' as <-. injection Hi' as <-.
  split; [|split; [|split; [|split; [|split; [|split; [|split]]]]]].
  - intros id. rewrite Hv, Hsugg, Hws, lookup_fmap, fmap_is_Some, !assign_all_keys.
    rewrite Hkeys, staticWrites_keys. reflexivity.
  - intros id. rewrite Hm, lookup_fmap, fmap_is_Some. reflexivity.
  - intros id. rewrite Hf, lookup_fmap, fmap_is_Some. reflexivity.
  - intros id l. rewrite Hv, lookup_fmap.
    destruct (assign_all _ ∅ !! id) as [e|] eqn:E; [|discriminate].
    cbn. intros [= <-]. apply assign_all_lookup in E as [E|(w & Hw & _ & <-)];
      [rewrite lookup_empty in E; discriminate|].
    destruct (staticWrites_contents _ _ _ _ _ Hw) as [Hn _].
    intros Hnil. destruct (snd w) as [|s r] eqn:Es; [now apply Hn|].
    assert (Hin : In s (sortedUnique (s :: r))) by (apply sortedUnique_In; now left).
    rewrite Hnil in Hin. destruct Hin.
  - intros id l. rewrite Hsugg, Hws. intros E.
    apply assign_all_lookup in E as [E|(w & Hw & _ & <-)];
      [rewrite lookup_empty in E; discriminate|].
    rewrite List.Forall_forall in Hne. now apply Hne.
  - exact Haff.
  - now rewrite Htot, Haff.
  - rewrite Haff, Hv, Hbd, map_size_fmap.
    cbn [Routes.accounts Routes.publicRecords Routes.inquiries].
    pose proof (assign_all_size (ScanSpec.staticWrites h accounts records inquiries) ∅) as Hsz.
    rewrite map_size_empty in Hsz. unfold ScanSpec.staticWrites in Hsz at 2.
    rewrite !List.length_app, !length_imap in Hsz. lia.
Qed.

Lemma static_payload_maps_aligned_witness :
  exists p,
    generateStaticViolations Spec.exampleHost Examples.scanRequest = Return p
    /\ affectedAccounts p = 3%nat
    /\ is_Some (suggestions p !! "PR-9").
Proof.
  destruct (generateStaticViolations Spec.exampleHost Examples.scanRequest) as [p|] eqn:Hp;
    [|vm_compute in Hp; discriminate Hp].
  exists p. split; [reflexivity|].
  destruct (static_payload_maps_aligned Spec.exampleHost Examples.scanRequest p Hp)
    as (Hks & _ & _ & _ & _ & Haff & _).
  split.
  - rewrite Haff. injection Hp as <-. vm_compute. reflexivity.
  - apply Hks. injection Hp as <-. vm_compute. eexists. reflexivity.
Defined.

(** X8. In a static payload every string of a violation list other than
    the sentinel is filed in the Metro 2 list or in the FCRA/FDCPA list of
    the same id, and the two lists hold nothing but strings of the
    violation list. *)
Theorem static_payload_classified (h : Host) (creditData : JsValue) (p : ScanPayload)
    (id : string) (l : list string) :
  generateStaticViolations h creditData = Return p ->
  violations p !! id = Some l ->
  exists m2 ff,
    metro2Violations p !! id = Some m2
    /\ fcrFdcpaViolations p !! id = Some ff
    /\ (forall s, In s l -> s <> sentinel -> In s m2 \/ In s ff)
    /\ (forall s, In s m2 \/ In s ff -> In s l /\ s <> sentinel).
Proof.
  intros Hp Hl.
  destruct (generateStaticViolations_inv h creditData p Hp)
    as (accounts & records & inquiries & sugg & _ & _ & _ & _ & _ & Hv & Hm & Hf & _).
  rewrite Hm, Hf, !lookup_fmap, Hl. cbn.
  eexists _, _. split; [reflexivity|]. split; [reflexivity|].
  rewrite Hv, lookup_fmap in Hl.
  destruct (assign_all _ ∅ !! id) as [e|] eqn:E; [|discriminate].
  cbn in Hl. injection Hl as <-.
  apply assign_all_lookup in E as [E|(w & Hw & _ & <-)];
    [rewrite lookup_empty in E; discriminate|].
  destruct (staticWrites_contents _ _ _ _ _ Hw) as [_ Hc].
  split.
  - intros s Hs Hns. rewrite !filter_In.
    destruct (Hc s (proj1 (sortedUnique_In _ _) Hs)) as [->|[Hnot Htag]]; [contradiction|].
    destruct (includes s "Metro 2"); [left; tauto|]. right. tauto.
  - intros s Hs.
    assert (Hs' : In s (List.filter notSentinel (sortedUnique (snd w))))
      by (destruct Hs as [Hs|Hs]; now apply filter_In in Hs).
    apply filter_In in Hs' as [Hin Hnot]. split; [exact Hin|].
    intros ->. rewrite notSentinel_sentinel in Hnot. discriminate.
Qed.

Lemma static_payload_classified_witness :
  exists p l,
    generateStaticViolations Spec.exampleHost Examples.scanRequest = Return p
    /\ violations p !! "PR-9" = Some l
    /\ exists m2, metro2Violations p !! "PR-9" = Some m2 /\ m2 = l.
Proof.
  destruct (generateStaticViolations Spec.exampleHost Examples.scanRequest) as [p|] eqn:Hp;
    [|vm_compute in Hp; discriminate Hp].
  destruct (violations p !! "PR-9") as [l|] eqn:Hl;
    [|injection Hp as <-; vm_compute in Hl; discriminate Hl].
  exists p, l. split; [reflexivity|]. split; [exact Hl|].
  destruct (static_payload_classified Spec.exampleHost Examples.scanRequest p "PR-9" l Hp Hl)
    as (m2 & ff & Hm2 & _).
  exists m2. split; [exact Hm2|].
  injection Hp as <-. vm_compute in Hm2, Hl. congruence.
Defined.

End StaticPayloadClaims.

(* ===================================================================== *)
(** ** Further properties of the scan                                      *)
(* ===================================================================== *)

Section ScanOutcomeFacts.
Import Js Validator Routes.

Lemma staticAccountCheck_Throw h i a msg :
  staticAccountCheck h i a = Throw msg -> msg = typeError.
Proof.
  unfold staticAccountCheck.
  destruct (toStringC _) eqn:Ek; cbn [bind]; [|intros [= <-]; now apply toStringC_Throw in Ek].
  destruct (validateAccountC h a) eqn:Ev; cbn [bind]; [discriminate|].
  intros [= <-]. eapply validateAccountC_Throw, Ev.
Qed.

Lemma staticRecordCheck_Throw h i r msg :
  staticRecordCheck h i r = Throw msg -> msg = typeError.
Proof.
  unfold staticRecordCheck.
  destruct (toStringC _) eqn:Ek; cbn [bind]; [|intros [= <-]; now apply toStringC_Throw in Ek].
  destruct (validatePublicRecordC h r) eqn:Ev; cbn [bind]; [discriminate|].
  intros [= <-]. eapply validatePublicRecordC_Throw, Ev.
Qed.

Lemma staticInquiryCheck_Throw h i q msg :
  staticInquiryCheck h i q = Throw msg -> msg = typeError.
Proof.
  unfold staticInquiryCheck.
  destruct (toStringC _) eqn:Ek; cbn [bind]; [|intros [= <-]; now apply toStringC_Throw in Ek].
  destruct (validateInquiryC h q) eqn:Ev; cbn [bind]; [discriminate|].
  intros [= <-]. eapply validateInquiryC_Throw, Ev.
Qed.

(** The messages [generateStaticSuggestions] can throw with. *)
Lemma generateStaticSuggestions_Throw h creditData msg :
  generateStaticSuggestions h creditData = Throw msg ->
  msg = typeError \/ msg = "accountData.CreditorName?.toLowerCase is not a function".
Proof.
  unfold generateStaticSuggestions.
  destruct (as_items (field_or_empty creditData "CREDIT_LIABILITY")) as [accounts|] eqn:Ha;
    cbn [bind]; [|intros [= <-]; left; eapply as_items_Throw, Ha].
  destruct (mapM _ (imap _ accounts)) as [w1|] eqn:E1; cbn [bind].
  2:{ intros [= <-]. apply mapM_Throw in E1 as (x & _ & Hx).
      eapply accountSuggestion_Throw, Hx. }
  destruct (as_items (field_or_empty creditData "PUBLIC_RECORD")) as [records|] eqn:Hr;
    cbn [bind]; [|intros [= <-]; left; eapply as_items_Throw, Hr].
  destruct (mapM _ (imap _ records)) as [w2|] eqn:E2; cbn [bind].
  2:{ intros [= <-]. apply mapM_Throw in E2 as (x & _ & Hx).
      left. eapply recordSuggestion_Throw, Hx. }
  destruct (as_items (field_or_empty creditData "INQUIRY")) as [inquiries|] eqn:Hi;
    cbn [bind]; [|intros [= <-]; left; eapply as_items_Throw, Hi].
  destruct (mapM _ (imap _ inquiries)) as [w3|] eqn:E3; cbn [bind]; [discriminate|].
  intros [= <-]. apply mapM_Throw in E3 as (x & _ & Hx).
  left. eapply inquirySuggestion_Throw, Hx.
Qed.


Lemma generateStaticViolations_Throw h creditData msg :
  generateStaticViolations h creditData = Throw msg ->
  msg = typeError \/ msg = "accountData.CreditorName?.toLowerCase is not a function".
Proof.
  unfold generateStaticViolations.
  destruct (as_items (field_or_empty creditData "CREDIT_LIABILITY")) as [accounts|] eqn:Ha;
    cbn [bind]; [|intros [= <-]; left; eapply as_items_Throw, Ha].
  destruct (as_items (field_or_empty creditData "PUBLIC_RECORD")) as [records|] eqn:Hr;
    cbn [bind]; [|intros [= <-]; left; eapply as_items_Throw, Hr].
  destruct (as_items (field_or_empty creditData "INQUIRY")) as [inquiries|] eqn:Hi;
    cbn [bind]; [|intros [= <-]; left; eapply as_items_Throw, Hi].
  destruct (mapM _ (imap _ accounts)) eqn:E1; cbn [bind].
  2:{ intros [= <-]. apply mapM_Throw in E1 as (x & _ & Hx).
      left. eapply staticAccountCheck_Throw, Hx. }
  destruct (mapM _ (imap _ records)) eqn:E2; cbn [bind].
  2:{ intros [= <-]. apply mapM_Throw in E2 as (x & _ & Hx).
      left. eapply staticRecordCheck_Throw, Hx. }
  destruct (mapM _ (imap _ inquiries)) eqn:E3; cbn [bind].
  2:{ intros [= <-]. apply mapM_Throw in E3 as (x & _ & Hx).
      left. eapply staticInquiryCheck_Throw, Hx. }
  destruct (generateStaticSuggestions h creditData) eqn:Hs; cbn [bind]; [discriminate|].
  intros [= <-]. eapply generateStaticSuggestions_Throw, Hs.
Qed.


Lemma includes_typeError :
  includes typeError "INPUT_TOO_LARGE" = false
  /\ includes typeError "insufficient_quota" = false
  /\ includes "accountData.CreditorName?.toLowerCase is not a function" "INPUT_TOO_LARGE"
     = false
  /\ includes "accountData.CreditorName?.toLowerCase is not a function" "insufficient_quota"
     = false.
Proof. vm_compute. repeat split. Qed.

Lemma remainingPublicRecords_Throw creditData msg :
  remainingPublicRecords creditData = Throw msg -> msg = typeError.
Proof.
  unfold remainingPublicRecords.
  destruct (get_opt _ "PUBLIC_RECORD") as [| | | | |[|x r]|]; try discriminate.
  apply as_items_Throw.
Qed.

Lemma returns_itemIdChecks (items : list WorkItem) :
  returns (mapM (fun p => itemIdCheck (snd p) (fst p)) (imap (fun i x => (i, x)) items))
  = forallb (fun p => converts (aiItemId (snd p) (fst p))) (imap (fun i x => (i, x)) items).
Proof.
  rewrite returns_mapM. apply forallb_ext_in. intros p _.
  unfold itemIdCheck. rewrite returns_bind, returns_toStringC. apply andb_true_r.
Qed.

Lemma returns_remainingIdChecks (remaining : list JsValue) :
  returns (mapM (fun p => toStringC (remainingRecordId (fst p) (snd p)))
                (imap (fun i x => (i, x)) remaining))
  = forallb (fun p => converts (remainingRecordId (fst p) (snd p)))
            (imap (fun i x => (i, x)) remaining).
Proof.
  rewrite returns_mapM. apply forallb_ext_in. intros p _. apply returns_toStringC.
Qed.


End ScanOutcomeFacts.

Section ScanOutcomeClaims.
Import Js Validator Routes.

(** The messages [performAiScan] can throw with. *)
Lemma performAiScan_Throw h hasApiKey oracle creditData msg :
  performAiScan h hasApiKey oracle creditData = Throw msg ->
  (exists n, countTokens (stringify creditData) = Return n /\ n > MAX_INPUT_TOKENS
             /\ msg = "INPUT_TOO_LARGE: " +:+ toLocaleString h n +:+ " tokens exceeds limit")
  \/ ((forall n, countTokens (stringify creditData) = Return n -> n <= MAX_INPUT_TOKENS)
      /\ (msg = typeError
          \/ msg = "accountData.CreditorName?.toLowerCase is not a function")).
Proof.
  unfold performAiScan.
  destruct (countTokens (stringify creditData)) as [n|m] eqn:En; cbn [bind].
  2:{ intros [= <-]. right. split; [discriminate|]. left.
      destruct (stringify creditData); cbn in En; congruence. }
  destruct (n >? MAX_INPUT_TOKENS) eqn:E.
  { intros [= <-]. left. exists n. apply Z.gtb_lt in E.
    split; [reflexivity|]. split; [lia | reflexivity]. }
  intros H. right. split.
  { intros n' [= <-]. rewrite Z.gtb_ltb, Z.ltb_ge in E. exact E. }
  destruct hasApiKey; cbn [negb] in H; [|eapply generateStaticViolations_Throw, H].
  destruct (as_items (field_or_empty creditData "CREDIT_LIABILITY")) as [accounts|] eqn:Ha;
    cbn [bind] in H; [|injection H as <-; left; eapply as_items_Throw, Ha].
  destruct (as_items (field_or_empty creditData "PUBLIC_RECORD")) as [records|] eqn:Hr;
    cbn [bind] in H; [|injection H as <-; left; eapply as_items_Throw, Hr].
  destruct (as_items (field_or_empty creditData "INQUIRY")) as [inquiries|] eqn:Hi;
    cbn [bind] in H; [|injection H as <-; left; eapply as_items_Throw, Hi].
  destruct (mapM _ (imap _ (allItemsToProcess accounts records inquiries))) eqn:E1;
    cbn [bind] in H.
  2:{ injection H as <-. apply mapM_Throw in E1 as (x & _ & Hx). left.
      unfold itemIdCheck in Hx.
      destruct (toStringC _) eqn:Ek; cbn [bind] in Hx; [discriminate|].
      injection Hx as <-. now apply toStringC_Throw in Ek. }
  destruct (remainingPublicRecords creditData) as [rem|] eqn:Hrem; cbn [bind] in H.
  2:{ injection H as <-. left. eapply remainingPublicRecords_Throw, Hrem. }
  destruct (mapM _ (imap _ rem)) eqn:E2; cbn [bind] in H.
  2:{ injection H as <-. apply mapM_Throw in E2 as (x & _ & Hx). left.
      now apply toStringC_Throw in Hx. }
  destruct (generateStaticSuggestions h creditData) eqn:Hs; cbn [bind] in H; [discriminate|].
  injection H as <-. eapply generateStaticSuggestions_Throw, Hs.
Qed.



(** X10. The [/api/ai-scan] handler answers in one of three ways: 200 with
    the payload of a scan that returned; 413 with the INPUT_TOO_LARGE body
    when the token count is over the ceiling; 500 with the AI_SCAN_FAILED
    body when the scan threw for another reason. The 429 branch is never
    taken: a failure of the completion service is caught item by item and
    does not reach the handler. *)
Theorem scan_response_classified
    (h : Host) (hasApiKey : bool) (oracle : Oracle) (creditData : JsValue) :
  (exists p, performAiScan h hasApiKey oracle creditData = Return p
             /\ api_ai_scan h hasApiKey oracle creditData
                = {| status := 200; body := ScanBody p |})
  \/ (exists n, countTokens (stringify creditData) = Return n
                /\ n > MAX_INPUT_TOKENS
                /\ api_ai_scan h hasApiKey oracle creditData
                   = {| status := 413;
                        body := FailureBody
                                  {| err_success := false;
                                     err_error := "INPUT_TOO_LARGE";
                                     err_message := "Credit data is too large for AI analysis. Using static violations instead.";
                                     err_fallbackUsed := true |} |})
  \/ ((forall n, countTokens (stringify creditData) = Return n -> n <= MAX_INPUT_TOKENS)
      /\ (exists msg, performAiScan h hasApiKey oracle creditData = Throw msg)
      /\ api_ai_scan h hasApiKey oracle creditData
         = {| status := 500;
              body := FailureBody
                        {| err_success := false;
                           err_error := "AI_SCAN_FAILED";
                           err_message := "AI scan failed. Using static violations instead.";
                           err_fallbackUsed := true |} |}).
Proof.
  destruct (performAiScan h hasApiKey oracle creditData) as [p|msg] eqn:Hp.
  - left. exists p. split; [reflexivity|]. unfold api_ai_scan. now rewrite Hp.
  - right. pose proof includes_typeError as (I1 & I2 & I3 & I4).
    destruct (performAiScan_Throw _ _ _ _ _ Hp) as [(n & Hn & Hgt & _)|[Hle Hmsg]].
    + left. exists n. split; [exact Hn|]. split; [exact Hgt|].
      pose proof (performAiScan_too_large h hasApiKey oracle creditData n Hn Hgt) as Ht.
      assert (Hinc : includes ("INPUT_TOO_LARGE: " +:+ toLocaleString h n
                                  +:+ " tokens exceeds limit") "INPUT_TOO_LARGE" = true)
        by exact (includes_prefix "INPUT_TOO_LARGE"
                    (": " +:+ toLocaleString h n +:+ " tokens exceeds limit")).
      unfold api_ai_scan. rewrite Ht, Hinc. reflexivity.
    + right. split; [exact Hle|]. split; [now exists msg|].
      unfold api_ai_scan. rewrite Hp.
      destruct Hmsg as [-> | ->]; [rewrite I1, I2 | rewrite I3, I4]; reflexivity.
Qed.

End ScanOutcomeClaims.

Section AssistedPayloadFacts.
Import Js Validator Routes.



Lemma keys_length (m : gmap string (list string)) : List.length (keys m) = size m.
Proof. unfold keys. rewrite length_map. apply length_map_to_list. Qed.

Lemma count_true_le {A} (p : A -> bool) l : (count_true p l <= List.length l)%nat.
Proof.
  unfold count_true. induction l as [|x r IH]; [reflexivity|].
  cbn [List.filter]. destruct (p x); cbn [List.length]; lia.
Qed.

Lemma count_true_disjoint {A} (p q : A -> bool) l :
  Forall (fun x => p x = true -> q x = false) l ->
  (count_true p l + count_true q l <= List.length l)%nat.
Proof.
  unfold count_true. induction 1 as [|x r Hx _ IH]; [reflexivity|].
  cbn [List.filter List.length].
  destruct (p x); [rewrite Hx by reflexivity|destruct (q x)]; cbn [List.length]; lia.
Qed.

Lemma processItemWithAI_exclusive oracle w i :
  analyzedWithAI (processItemWithAI oracle w i) = true ->
  skippedByTokens (processItemWithAI oracle w i) = false.
Proof.
  rewrite processItemWithAI_expected.
  unfold ScanSpec.expectedResult, ScanSpec.answer. cbn [analyzedWithAI skippedByTokens].
  destruct (ScanSpec.summaryText w i); [|discriminate].
  destruct (ScanSpec.oversized w i); [discriminate | reflexivity].
Qed.

(** The payload of an assisted scan, field by field. *)
Lemma performAiScan_assisted_inv h oracle creditData p :
  performAiScan h true oracle creditData = Return p ->
  exists n accounts records inquiries remaining,
    countTokens (stringify creditData) = Return n
    /\ n <= MAX_INPUT_TOKENS
    /\ as_items (field_or_empty creditData "CREDIT_LIABILITY") = Return accounts
    /\ as_items (field_or_empty creditData "PUBLIC_RECORD") = Return records
    /\ as_items (field_or_empty creditData "INQUIRY") = Return inquiries
    /\ remainingPublicRecords creditData = Return remaining
    /\ generateStaticSuggestions h creditData = Return (suggestions p)
    /\ (forall i w, allItemsToProcess accounts records inquiries !! i = Some w ->
                    converts (aiItemId w i) = true)
    /\ (forall i r, remaining !! i = Some r -> converts (remainingRecordId i r) = true)
    /\ let results :=
         ScanSpec.itemResults oracle (allItemsToProcess accounts records inquiries) in
       let writes := map (fun r => (itemId r, itemViolations r)) results in
       violations p
       = addRemaining h (assigned_proto writes) (assign_all writes ∅) remaining
       /\ totalViolations p = List.length (flat_values (violations p))
       /\ affectedAccounts p = List.length (keys (violations p))
       /\ metro2Violations p = List.filter (fun v => includes v "Metro 2") <$> violations p
       /\ fcrFdcpaViolations p
          = List.filter (fun v => includes v "FCRA" || includes v "FDCPA") <$> violations p
       /\ breakdown p
          = {| accounts := count_true (fun id => startsWith id "TRADE") (keys (violations p));
               publicRecords :=
                 count_true (fun id => includes id "PUBLIC-RECORD") (keys (violations p));
               inquiries := count_true (fun id => includes id "INQUIRY") (keys (violations p)) |}
       /\ message p = Routes.scanMessage (Routes.accounts (breakdown p))
                                         (Routes.publicRecords (breakdown p))
                                         (Routes.inquiries (breakdown p))
       /\ tokenInfo p
          = {| inputTokens := n;
               itemsAnalyzedWithAI := count_true analyzedWithAI results;
               itemsSkippedByTokens := count_true skippedByTokens results;
               totalItemsProcessed := List.length results;
               fallbackUsed := false |}
       /\ success p = true.
Proof.
  intros Hp0. pose proof Hp0 as Hp. unfold performAiScan in Hp.
  destruct (countTokens (stringify creditData)) as [n|] eqn:Hn; cbn [bind] in Hp;
    [|discriminate].
  destruct (n >? MAX_INPUT_TOKENS) eqn:E; [discriminate|]. cbn [negb] in Hp.
  rewrite Z.gtb_ltb, Z.ltb_ge in E.
  destruct (as_items (field_or_empty creditData "CREDIT_LIABILITY")) as [accounts|] eqn:Ha;
    cbn [bind] in Hp; [|discriminate].
  destruct (as_items (field_or_empty creditData "PUBLIC_RECORD")) as [records|] eqn:Hr;
    cbn [bind] in Hp; [|discriminate].
  destruct (as_items (field_or_empty creditData "INQUIRY")) as [inquiries|] eqn:Hi;
    cbn [bind] in Hp; [|discriminate].
  pose proof (returns_itemIdChecks (allItemsToProcess accounts records inquiries)) as R1.
  destruct (mapM _ (imap _ (allItemsToProcess accounts records inquiries)));
    cbn [bind] in Hp; [|discriminate].
  destruct (remainingPublicRecords creditData) as [remaining|] eqn:Hrem; cbn [bind] in Hp;
    [|discriminate].
  pose proof (returns_remainingIdChecks remaining) as R2.
  destruct (mapM _ (imap _ remaining)); cbn [bind] in Hp; [|discriminate].
  destruct (generateStaticSuggestions h creditData) as [sugg|] eqn:Hs; cbn [bind] in Hp;
    [|discriminate].
  clear Hp. cbn [returns] in R1, R2. symmetry in R1, R2.
  pose proof (proj1 (forallb_imap_pair (fun i w => converts (aiItemId w i)) _) R1) as Hids.
  pose proof (proj1 (forallb_imap_pair (fun i r => converts (remainingRecordId i r)) _) R2)
    as Hrids.
  cbn beta in Hids, Hrids.
  destruct (performAiScan_assisted_Return h oracle creditData n accounts records inquiries
              remaining sugg Hn E Ha Hr Hi Hrem Hs Hids Hrids)
    as (p' & Hp' & Hv & Hm & Hf & Hsg & Htv & Haff & Hbd & Htok & Hmsg & Hsucc).
  rewrite Hp0 in Hp'. injection Hp' as <-.
  exists n, accounts, records, inquiries, remaining.
  rewrite Hsg. do 9 (split; [first [reflexivity | assumption]|]).
  cbv zeta. repeat split; assumption.
Qed.

End AssistedPayloadFacts.

Section AssistedPayloadClaims.
Import Js Validator Routes.



Lemma addRemaining_size h proto (m : gmap string (list string)) records :
  (size (addRemaining h proto m records) <= size m + List.length records)%nat.
Proof.
  unfold addRemaining.
  rewrite <- (length_imap (fun i x => (i, x)) records).
  generalize (imap (fun i x => (i, x)) records). intros l. revert m.
  induction l as [|q l IH]; intros m; [cbn; lia|].
  cbn [foldl List.length]. etransitivity; [apply IH|]. cbv zeta.
  destruct (bool_decide (is_Some (m !! _))) eqn:E; cbn [orb]; [lia|].
  destruct (inheritedTruthy _ _ _); [lia|].
  apply bool_decide_eq_false in E.
  rewrite map_size_insert_None; [lia|].
  destruct (m !! _) eqn:E'; [exfalso; apply E; eauto | reflexivity].
Qed.





(** X11. The counters of an assisted payload are consistent: the items
    analysed and the items skipped for their size are disjoint and together
    never exceed [totalItemsProcessed], which is the number of items of the
    request; [affectedAccounts] is the number of ids and is at most the
    number of items plus the number of remaining public records; no part of
    the breakdown exceeds it; [totalViolations] is the number of all listed
    strings; the Metro 2 and FCRA/FDCPA maps have the ids of the violation
    map. *)
Theorem assisted_payload_counts
    (h : Host) (oracle : Oracle) (creditData : JsValue) (p : ScanPayload) :
  performAiScan h true oracle creditData = Return p ->
  exists accts recs inqs remaining,
    as_items (field_or_empty creditData "CREDIT_LIABILITY") = Return accts
    /\ as_items (field_or_empty creditData "PUBLIC_RECORD") = Return recs
    /\ as_items (field_or_empty creditData "INQUIRY") = Return inqs
    /\ remainingPublicRecords creditData = Return remaining
    /\ totalItemsProcessed (tokenInfo p)
       = (List.length accts + List.length recs + List.length inqs)%nat
    /\ (itemsAnalyzedWithAI (tokenInfo p) + itemsSkippedByTokens (tokenInfo p)
        <= totalItemsProcessed (tokenInfo p))%nat
    /\ affectedAccounts p = size (violations p)
    /\ (affectedAccounts p <= totalItemsProcessed (tokenInfo p) + List.length remaining)%nat
    /\ (Routes.accounts (breakdown p) <= affectedAccounts p)%nat
    /\ (Routes.publicRecords (breakdown p) <= affectedAccounts p)%nat
    /\ (Routes.inquiries (breakdown p) <= affectedAccounts p)%nat
    /\ totalViolations p = List.length (flat_values (violations p))
    /\ (forall id, is_Some (violations p !! id) <-> is_Some (metro2Violations p !! id))
    /\ (forall id, is_Some (violations p !! id) <-> is_Some (fcrFdcpaViolations p !! id))
    /\ fallbackUsed (tokenInfo p) = false.
Proof.
  intros Hp.
  destruct (performAiScan_assisted_inv h oracle creditData p Hp)
    as (n & accts & recs & inqs & remaining & _ & _ & Ha & Hr & Hi & Hrem & _ & _ & _
        & Hv & Htv & Haff & Hm & Hf & Hbd & _ & Hti & _).
  exists accts, recs, inqs, remaining.
  do 4 (split; [assumption|]).
  assert (Hlen : List.length (ScanSpec.itemResults oracle (allItemsToProcess accts recs inqs))
                 = (List.length accts + List.length recs + List.length inqs)%nat).
  { unfold ScanSpec.itemResults, allItemsToProcess.
    rewrite length_imap, !List.length_app, !length_imap. lia. }
  rewrite Hti. cbn [totalItemsProcessed itemsAnalyzedWithAI itemsSkippedByTokens fallbackUsed].
  split; [exact Hlen|]. split.
  { apply count_true_disjoint. apply List.Forall_forall. intros r Hin.
    unfold ScanSpec.itemResults in Hin.
    apply list_elem_of_In, elem_of_lookup_imap in Hin as (i & w & -> & _).
    apply processItemWithAI_exclusive. }
  rewrite Haff, keys_length.
  split; [reflexivity|]. split.
  { rewrite Hv. etransitivity; [apply addRemaining_size|].
    pose proof (assign_all_size
                  (map (fun r => (itemId r, itemViolations r))
                       (ScanSpec.itemResults oracle (allItemsToProcess accts recs inqs)))
                  (∅ : gmap string (list string))) as Hsz.
    rewrite map_size_empty, length_map in Hsz. lia. }
  rewrite Hbd. cbn [Routes.accounts Routes.publicRecords Routes.inquiries].
  rewrite <- keys_length.
  do 3 (split; [apply count_true_le|]).
  split; [exact Htv|].
  split; [intros id; now rewrite Hm, lookup_fmap, fmap_is_Some|].
  split; [intros id; now rewrite Hf, lookup_fmap, fmap_is_Some|].
  reflexivity.
Qed.

Lemma assisted_payload_counts_witness :
  exists p,
    performAiScan Spec.exampleHost true Examples.flakyOracle Examples.scanRequest = Return p
    /\ totalItemsProcessed (tokenInfo p) = 3%nat
    /\ (itemsAnalyzedWithAI (tokenInfo p) <= 3)%nat.
Proof.
  destruct (performAiScan Spec.exampleHost true Examples.flakyOracle Examples.scanRequest)
    as [p|] eqn:Hp; [|vm_compute in Hp; discriminate Hp].
  exists p. split; [reflexivity|].
  destruct (assisted_payload_counts Spec.exampleHost Examples.flakyOracle
              Examples.scanRequest p Hp)
    as (accts & recs & inqs & remaining & Ha & Hr & Hi & _ & Htot & Hsum & _).
  vm_compute in Ha, Hr, Hi.
  injection Ha as <-. injection Hr as <-. injection Hi as <-.
  cbn [List.length] in Htot. split; [exact Htot | lia].
Defined.



End AssistedPayloadClaims.

Section RemainingRecords.
Import Js Validator Routes.




End RemainingRecords.

Section ParsedResponse.
Import Js Validator Routes.

Lemma replace_at_start s pat rep :
  String.prefix pat s = true ->
  replace s pat rep = rep +:+ drop_chars (String.length pat) s.
Proof. intros H. destruct s; cbn [replace]; now rewrite H. Qed.

Lemma startsWith_dash_append rep x :
  startsWith rep "- " = true -> startsWith (rep +:+ x) "- " = true.
Proof.
  unfold startsWith. destruct rep as [|a [|b rep]]; cbn [String.prefix].
  - discriminate.
  - destruct (ascii_dec _ a); discriminate.
  - change (String a (String b rep) +:+ x) with (String a (String b (rep +:+ x))).
    cbn [String.prefix]. destruct (ascii_dec _ a); [|discriminate].
    destruct (ascii_dec _ b); [|discriminate].
    intros _. now destruct (rep +:+ x).
Qed.

(** The lines [parseResponse] keeps. *)
Lemma parseResponse_lines (response line : string) :
  In line (parseResponse response) ->
  startsWith line "- " = true
  /\ (30 < String.length line)%nat
  /\ Forall (fun phrase => includes (toLowerCase line) phrase = false) More.rejectedPhrases
  /\ More.has_heading line = false.
Proof.
  unfold parseResponse. intros H.
  apply filter_In in H as [H Hkeep].
  apply in_map_iff in H as (raw & <- & Hraw).
  apply filter_In in Hraw as [_ Hb].
  apply andb_true_iff in Hb as [Hdash _].
  cbv beta in *.
  match goal with |- startsWith ?c _ = true /\ _ => set (converted := c) in * end.
  assert (Hstart : startsWith converted "- " = true).
  { subst converted.
    repeat match goal with
           | |- context [if ?b then _ else _] => destruct b
           end;
      try exact Hdash;
      rewrite (replace_at_start raw "- " _ Hdash);
      now apply startsWith_dash_append. }
  split; [exact Hstart|].
  cbv zeta in Hkeep.
  repeat match type of Hkeep with
         | _ && _ = true => apply andb_true_iff in Hkeep as [Hkeep ?]
         end.
  repeat match goal with
         | H : negb _ = true |- _ => apply negb_true_iff in H
         end.
  split.
  { pose proof (length16_le converted).
    match goal with H : (30 <? _) = true |- _ => apply Z.ltb_lt in H; lia end. }
  split.
  { unfold More.rejectedPhrases. repeat constructor; assumption. }
  clear - Hstart. unfold More.has_heading, startsWith in *.
  destruct converted as [|a r]; [discriminate Hstart|].
  cbn [String.prefix] in Hstart.
  destruct (ascii_dec "-" a) as [<-|]; [reflexivity|].
  destruct r; discriminate Hstart.
Qed.

(** X14. Every line [parseResponse] keeps from an answer of the completion
    service begins with a dash and a space, is longer than 30 characters
    and contains, in lower case, none of the seven rejected phrases. A kept
    line therefore never begins with a category heading itself. *)
Theorem parsed_lines_shape (response line : string) :
  In line (parseResponse response) ->
  startsWith line "- " = true
  /\ (30 < String.length line)%nat
  /\ Forall (fun phrase => includes (toLowerCase line) phrase = false) More.rejectedPhrases
  /\ More.has_heading line = false.
Proof. apply parseResponse_lines. Qed.

Lemma parsed_lines_shape_witness :
  startsWith "- Metro 2 Violation: Missing Date of First Delinquency [Field 30]" "- " = true
  /\ (30 < String.length
             "- Metro 2 Violation: Missing Date of First Delinquency [Field 30]")%nat.
Proof.
  destruct (parsed_lines_shape
              "- Metro 2 Violation: Missing Date of First Delinquency [Field 30]"
              "- Metro 2 Violation: Missing Date of First Delinquency [Field 30]"
              ltac:(vm_compute; left; reflexivity)) as (H1 & H2 & _).
  split; [exact H1 | exact H2].
Defined.

End ParsedResponse.

Section ScanModeClaims.
Import Js Validator Routes.

(** X15. Whatever the mode, a returned payload has [success] set, carries
    the suggestions of [generateStaticSuggestions] (the completion service
    contributes none) and has [tokenInfo.fallbackUsed] set exactly when no
    API key is configured. Without a key the payload is the static payload,
    the service is not consulted and the token counters are all reported
    as 0, although the input was counted for the size guard. *)
Theorem scan_mode_flags
    (h : Host) (hasApiKey : bool) (oracle : Oracle) (creditData : JsValue) (p : ScanPayload) :
  performAiScan h hasApiKey oracle creditData = Return p ->
  success p = true
  /\ fallbackUsed (tokenInfo p) = negb hasApiKey
  /\ generateStaticSuggestions h creditData = Return (suggestions p)
  /\ (hasApiKey = false ->
        generateStaticViolations h creditData = Return p
        /\ inputTokens (tokenInfo p) = 0
        /\ itemsAnalyzedWithAI (tokenInfo p) = 0%nat
        /\ itemsSkippedByTokens (tokenInfo p) = 0%nat)
  /\ (hasApiKey = true ->
        exists n, countTokens (stringify creditData) = Return n
                  /\ inputTokens (tokenInfo p) = n).
Proof.
  destruct hasApiKey; intros Hp.
  - destruct (performAiScan_assisted_inv h oracle creditData p Hp)
      as (n & accts & recs & inqs & remaining & Hn & _ & _ & _ & _ & _ & Hs & _ & _ & _
          & _ & _ & _ & _ & _ & _ & Hti & Hsucc).
    rewrite Hti. cbn [fallbackUsed inputTokens negb].
    split; [exact Hsucc|]. split; [reflexivity|]. split; [exact Hs|].
    split; [discriminate|]. intros _. now exists n.
  - assert (Hv : generateStaticViolations h creditData = Return p).
    { revert Hp. unfold performAiScan.
      destruct (countTokens (stringify creditData)) as [n|]; cbn [bind]; [|discriminate].
      destruct (n >? MAX_INPUT_TOKENS); [discriminate|]. cbn [negb]. auto. }
    destruct (generateStaticViolations_flags h creditData p Hv)
      as (Hsucc & Hs & Hfb & Hin & Han & Hsk).
    cbn [negb]. repeat split; try assumption; discriminate.
Qed.

Lemma scan_mode_flags_witness :
  exists p,
    performAiScan Spec.exampleHost false Examples.flakyOracle Examples.scanRequest = Return p
    /\ generateStaticViolations Spec.exampleHost Examples.scanRequest = Return p
    /\ fallbackUsed (tokenInfo p) = true.
Proof.
  destruct (performAiScan Spec.exampleHost false Examples.flakyOracle Examples.scanRequest)
    as [p|] eqn:Hp; [|vm_compute in Hp; discriminate Hp].
  destruct (scan_mode_flags Spec.exampleHost false Examples.flakyOracle
              Examples.scanRequest p Hp) as (_ & Hf & _ & Hstatic & _).
  exists p. split; [reflexivity|]. split; [exact (proj1 (Hstatic eq_refl)) | exact Hf].
Defined.

Lemma ceil_div4_over n : ceil_div4 n > MAX_INPUT_TOKENS <-> 400000 < n.
Proof.
  unfold ceil_div4, MAX_INPUT_TOKENS.
  pose proof (Z.div_mod (n + 3) 4 ltac:(lia)).
  pose proof (Z.mod_pos_bound (n + 3) 4 ltac:(lia)). lia.
Qed.

(** X16. The size guard works on the serialized request: for a request
    that serializes to [s], the scan throws INPUT_TOO_LARGE, and the
    handler answers 413, exactly when [s] is longer than 400000 UTF-16
    code units (four per token, rounded up, against the ceiling of 100000
    tokens). *)
Theorem input_guard_threshold
    (h : Host) (hasApiKey : bool) (oracle : Oracle) (creditData : JsValue) (s : string) :
  stringify creditData = Some s ->
  (performAiScan h hasApiKey oracle creditData
   = Throw ("INPUT_TOO_LARGE: "
            +:+ toLocaleString h (ceil_div4 (Z.of_nat (length16 s)))
            +:+ " tokens exceeds limit")
   <-> 400000 < Z.of_nat (length16 s))
  /\ (status (api_ai_scan h hasApiKey oracle creditData) = 413
      <-> 400000 < Z.of_nat (length16 s)).
Proof.
  intros Hs.
  assert (Hn : countTokens (stringify creditData)
               = Return (ceil_div4 (Z.of_nat (length16 s)))) by now rewrite Hs.
  pose proof (ceil_div4_over (Z.of_nat (length16 s))) as Hover.
  assert (Hinc : includes ("INPUT_TOO_LARGE: "
                           +:+ toLocaleString h (ceil_div4 (Z.of_nat (length16 s)))
                           +:+ " tokens exceeds limit") "INPUT_TOO_LARGE" = true)
    by exact (includes_prefix "INPUT_TOO_LARGE"
                (": " +:+ toLocaleString h (ceil_div4 (Z.of_nat (length16 s)))
                 +:+ " tokens exceeds limit")).
  pose proof includes_typeError as (I1 & I2 & I3 & I4).
  destruct (Z.ltb_spec 400000 (Z.of_nat (length16 s))) as [Hbig|Hsmall].
  - pose proof (performAiScan_too_large h hasApiKey oracle creditData _ Hn
                  (proj2 Hover Hbig)) as Ht.
    split; [tauto|]. unfold api_ai_scan. rewrite Ht, Hinc. cbn [status]. tauto.
  - assert (Hle : forall msg, performAiScan h hasApiKey oracle creditData = Throw msg ->
                    msg = typeError
                    \/ msg = "accountData.CreditorName?.toLowerCase is not a function").
    { intros msg Hm. destruct (performAiScan_Throw _ _ _ _ _ Hm)
        as [(n & Hn' & Hgt & _)|[_ Hmsg]]; [|exact Hmsg].
      rewrite Hn in Hn'. injection Hn' as <-. apply Hover in Hgt. lia. }
    split.
    + split; [|lia]. intros Ht. exfalso.
      destruct (Hle _ Ht) as [E|E]; rewrite E in Hinc;
        [rewrite I1 in Hinc | rewrite I3 in Hinc]; discriminate.
    + split; [|lia]. unfold api_ai_scan.
      destruct (performAiScan h hasApiKey oracle creditData) as [p|msg] eqn:Hp;
        [discriminate|].
      destruct (Hle msg eq_refl) as [-> | ->];
        [rewrite I1, I2 | rewrite I3, I4]; discriminate.
Qed.

Lemma input_guard_threshold_witness :
  status (api_ai_scan Spec.exampleHost true Examples.failingOracle Examples.scanRequest)
  <> 413.
Proof.
  destruct (input_guard_threshold Spec.exampleHost true Examples.failingOracle
              Examples.scanRequest _ eq_refl) as [_ H].
  intros E. apply H in E. vm_compute in E. discriminate E.
Defined.

End ScanModeClaims.

(* ===================================================================== *)
(** ** The batches of the assisted scan                                    *)
(* ===================================================================== *)

Section BatchClaims.
Import Js Routes Progress.

Lemma ceil_div_le n b k : (0 < b)%nat -> (ceil_div n b <= k)%nat <-> (n <= k * b)%nat.
Proof.
  intros Hb. unfold ceil_div. split.
  - intros H. pose proof (Nat.div_mod_eq (n + b - 1) b) as E.
    pose proof (Nat.mod_upper_bound (n + b - 1) b ltac:(lia)) as Hm. nia.
  - intros H. apply Nat.lt_succ_r. apply Nat.Div0.div_lt_upper_bound. nia.
Qed.

Lemma batchNotices_spec {A} (items : list A) b :
  (0 < b)%nat ->
  forall fuel k,
    (List.length items - k * b <= fuel)%nat ->
    batchNotices fuel items b (k * b)
    = map (fun j => {| batchNumber := (j + 1)%nat;
                       batchCount := ceil_div (List.length items) b;
                       batchItems := Nat.min b (List.length items - j * b) |})
          (seq k (ceil_div (List.length items) b - k)).
Proof.
  intros Hb. induction fuel as [|fuel IH]; intros k Hfuel.
  - assert (Hc : (ceil_div (List.length items) b <= k)%nat) by (apply ceil_div_le; lia).
    replace (ceil_div (List.length items) b - k)%nat with 0%nat by lia. reflexivity.
  - cbn [batchNotices]. destruct (k * b <? List.length items)%nat eqn:E.
    + apply Nat.ltb_lt in E.
      assert (Hc : (k < ceil_div (List.length items) b)%nat).
      { apply Nat.nle_gt. intros Hle. apply ceil_div_le in Hle; lia. }
      replace (ceil_div (List.length items) b - k)%nat
        with (S (ceil_div (List.length items) b - S k)) by lia.
      cbn [seq map]. f_equal.
      * f_equal.
        -- now rewrite Nat.div_mul by lia.
        -- rewrite length_take, length_drop. reflexivity.
      * change (k * b + b)%nat with (k * b + b)%nat.
        replace (k * b + b)%nat with (S k * b)%nat by lia.
        apply IH. lia.
    + apply Nat.ltb_ge in E.
      assert (Hc : (ceil_div (List.length items) b <= k)%nat) by (apply ceil_div_le; lia).
      replace (ceil_div (List.length items) b - k)%nat with 0%nat by lia. reflexivity.
Qed.

Lemma batchNotices_total {A} (items : list A) b :
  (0 < b)%nat ->
  forall fuel i,
    (List.length items - i <= fuel)%nat ->
    list_sum (map batchItems (batchNotices fuel items b i)) = (List.length items - i)%nat.
Proof.
  intros Hb. induction fuel as [|fuel IH]; intros i Hfuel.
  - cbn. lia.
  - cbn [batchNotices]. destruct (i <? List.length items)%nat eqn:E.
    + apply Nat.ltb_lt in E. cbn [map].
      match goal with
      | |- list_sum (?a :: ?l) = _ => change (list_sum (a :: l)) with (a + list_sum l)%nat
      end.
      rewrite IH by lia. cbn [batchItems]. rewrite length_take, length_drop. lia.
    + apply Nat.ltb_ge in E. cbn. lia.
Qed.

(** X17. The loop of [processInBatches] announces ceil(n / 5) batches for
    [n] items, numbered 1, 2, ... in order, each with the same total; every
    batch has between 1 and 5 items, all but the last have 5, and the sizes
    add up to [n], the number of results the loop returns. *)
Theorem batches_cover_all_items (oracle : Oracle) (items : list WorkItem) :
  let n := List.length items in
  let notices := progressNotices items MAX_CONCURRENT_REQUESTS in
  List.length notices = ceil_div n 5
  /\ (forall j notice, notices !! j = Some notice ->
        batchNumber notice = (j + 1)%nat
        /\ batchCount notice = ceil_div n 5
        /\ batchItems notice = Nat.min 5 (n - j * 5)
        /\ (1 <= batchItems notice <= 5)%nat
        /\ ((j + 1 < ceil_div n 5)%nat -> batchItems notice = 5%nat))
  /\ list_sum (map batchItems notices) = n
  /\ List.length (processInBatches oracle items MAX_CONCURRENT_REQUESTS) = n.
Proof.
  intros n notices.
  pose proof (eq_refl : n = List.length items) as Hndef.
  assert (Hspec : notices
                  = map (fun j => {| batchNumber := (j + 1)%nat;
                                     batchCount := ceil_div n 5;
                                     batchItems := Nat.min 5 (n - j * 5) |})
                        (seq 0 (ceil_div n 5))).
  { subst notices n. unfold progressNotices, MAX_CONCURRENT_REQUESTS.
    pose proof (batchNotices_spec items 5 ltac:(lia) (List.length items) 0 ltac:(lia)) as E.
    change (0 * 5)%nat with 0%nat in E. rewrite E. now rewrite Nat.sub_0_r. }
  split; [rewrite Hspec; now rewrite length_map, length_seq|]. split.
  - intros j notice Hj. rewrite Hspec in Hj.
    rewrite lookup_map in Hj.
    destruct (seq 0 (ceil_div n 5) !! j) as [j'|] eqn:Ej; [|discriminate].
    apply lookup_seq in Ej as [-> Hlt].
    change (Some {| batchNumber := (j + 1)%nat; batchCount := ceil_div n 5;
                    batchItems := Nat.min 5 (n - j * 5) |} = Some notice) in Hj.
    assert (Hnotice : notice = {| batchNumber := (j + 1)%nat; batchCount := ceil_div n 5;
                                  batchItems := Nat.min 5 (n - j * 5) |}) by congruence.
    clear Hj. subst notice. unfold batchNumber, batchCount, batchItems.
    assert (Hn : (j * 5 < n)%nat).
    { apply Nat.nle_gt. intros Hle. apply (ceil_div_le n 5 j) in Hle; lia. }
    do 3 (split; [reflexivity|]). split; [lia|].
    intros Hnext.
    assert (((j + 1) * 5 < n)%nat); [|lia].
    apply Nat.nle_gt. intros Hle. apply (ceil_div_le n 5 (j + 1)) in Hle; lia.
  - split.
    + subst notices n. unfold progressNotices, MAX_CONCURRENT_REQUESTS.
      rewrite (batchNotices_total items 5 ltac:(lia)) by lia. lia.
    + rewrite processInBatches_all. apply length_imap.
Qed.

End BatchClaims.

(* ===================================================================== *)
(** ** The client                                                          *)
(* ===================================================================== *)

Section ClientFilterClaims.
Import Js JsDate Validator.

Ltac filter_branches H :=
  unfold Client.isNegativeAccount; cbv zeta in *;
  repeat match goal with
         | |- (if ?c then _ else _) = true => destruct c eqn:?; [reflexivity|]
         end;
  exfalso;
  repeat match goal with
         | E : _ || _ = false |- _ => apply orb_false_iff in E; destruct E
         end;
  repeat match goal with
         | E : ?x = false |- _ => rewrite E in H
         end;
  rewrite ?andb_false_r in H; cbn [andb orb] in H; discriminate H.

(** X18. The filter the client applies before it sends a report keeps
    every account on which one of these five rules fires: missing date of
    first delinquency, status against payment rating, outdated negative
    account, misrepresented collection balance, activity on a charged-off
    debt. (The other four fixed rules read fields the filter does not
    look at.) *)
Theorem client_filter_keeps_flagged_accounts
    (h : Host) (account : JsValue) (v : ValidatedViolation) :
  In v [missingDofdViolation; statusRatingViolation; outdatedAccountViolation;
        misrepresentViolation; chargeoffActivityViolation] ->
  In v (violations (validateAccount h account)) ->
  Client.isNegativeAccount account = true.
Proof.
  intros Hv Hin.
  rewrite validateAccount_violations_iff in Hin.
  rewrite accountViolations_fixed in Hin
    by (cbn [In] in Hv; repeat (destruct Hv as [<-|Hv]; [discriminate|]); destruct Hv).
  cbn [In] in Hv.
  destruct Hv as [<-|[<-|[<-|[<-|[<-|[]]]]]]; rule_cases Hin.
  - unfold Spec.fires_missingDofd in Hin. filter_branches Hin.
  - unfold Spec.fires_statusRating in Hin. filter_branches Hin.
  - unfold Spec.fires_outdatedAccount in Hin. filter_branches Hin.
  - unfold Spec.fires_misrepresent in Hin. filter_branches Hin.
  - unfold Spec.fires_chargeoffActivity in Hin. filter_branches Hin.
Qed.

Lemma client_filter_keeps_flagged_accounts_witness :
  Client.isNegativeAccount Examples.derogatoryAccount = true.
Proof.
  apply (client_filter_keeps_flagged_accounts Spec.exampleHost Examples.derogatoryAccount
           missingDofdViolation).
  - now left.
  - vm_compute. tauto.
Defined.

End ClientFilterClaims.

Section ClientScanClaims.
Import Js JsDate Validator Routes.





(** X20. What the user sees after a scan (the request reaches the handler
    as the client built it). If the request can be built and the scan
    returns, the client shows the violations, suggestions and the
    two totals of the payload and marks the scan completed at 100%. In
    every other case (the report cannot be filtered, or the server answers
    413 or 500) it shows an empty violation map with both totals 0, keeps
    the suggestions and the completion mark it had, and resets the progress
    to 0: no static result takes the place of the failed scan. In both
    cases the summary is shown and the scan is no longer running. *)
Theorem client_state_after_scan
    (h : Host) (monthsAgo : Z) (hasApiKey : bool) (oracle : Oracle)
    (creditData : JsValue) (st : Client.ScanUiState) :
  let st' := Client.handleAiScan h monthsAgo (api_ai_scan h hasApiKey oracle) creditData st in
  Client.showAiSummary st' = true
  /\ Client.isAiScanning st' = false
  /\ ((exists request p,
         Client.requestPayload h monthsAgo creditData = Return request
         /\ performAiScan h hasApiKey oracle request = Return p
         /\ Client.aiViolations st' = violations p
         /\ Client.aiSuggestions st' = suggestions p
         /\ Client.summaryTotalViolations st' = totalViolations p
         /\ Client.summaryAffectedAccounts st' = affectedAccounts p
         /\ Client.aiScanCompleted st' = true
         /\ Client.scanProgress st' = 100)
      \/ (((exists msg, Client.requestPayload h monthsAgo creditData = Throw msg)
           \/ (exists request,
                 Client.requestPayload h monthsAgo creditData = Return request
                 /\ (status (api_ai_scan h hasApiKey oracle request) = 413
                     \/ status (api_ai_scan h hasApiKey oracle request) = 500)))
          /\ st' = Client.handleScanError st
          /\ Client.aiViolations st' = ∅
          /\ Client.summaryTotalViolations st' = 0%nat
          /\ Client.summaryAffectedAccounts st' = 0%nat
          /\ Client.aiSuggestions st' = Client.aiSuggestions st
          /\ Client.aiScanCompleted st' = Client.aiScanCompleted st
          /\ Client.scanProgress st' = 0)).
Proof.
  intros st'. subst st'. unfold Client.handleAiScan.
  destruct (Client.requestPayload h monthsAgo creditData) as [request|msg] eqn:Hreq.
  2:{ split; [reflexivity|]. split; [reflexivity|]. right.
      split; [left; now exists msg|]. repeat split; reflexivity. }
  destruct (performAiScan h hasApiKey oracle request) as [p|msg] eqn:Hp.
  - assert (Hr : api_ai_scan h hasApiKey oracle request
                 = {| status := 200; body := ScanBody p |})
      by (unfold api_ai_scan; now rewrite Hp).
    rewrite Hr. cbn. split; [reflexivity|]. split; [reflexivity|].
    left. exists request, p. repeat split; first [reflexivity | assumption].
  - pose proof includes_typeError as (I1 & I2 & I3 & I4).
    assert (Hst : status (api_ai_scan h hasApiKey oracle request) = 413
                  \/ status (api_ai_scan h hasApiKey oracle request) = 500).
    { destruct (performAiScan_Throw _ _ _ _ _ Hp) as [(n & Hn & Hgt & _)|[_ Hmsg]].
      - left. pose proof (performAiScan_too_large h hasApiKey oracle request n Hn Hgt) as Ht.
        assert (Hinc : includes ("INPUT_TOO_LARGE: " +:+ toLocaleString h n
                                    +:+ " tokens exceeds limit") "INPUT_TOO_LARGE" = true)
          by exact (includes_prefix "INPUT_TOO_LARGE"
                      (": " +:+ toLocaleString h n +:+ " tokens exceeds limit")).
        unfold api_ai_scan. rewrite Ht, Hinc. reflexivity.
      - right. unfold api_ai_scan. rewrite Hp.
        destruct Hmsg as [-> | ->]; [rewrite I1, I2 | rewrite I3, I4]; reflexivity. }
    assert (Hok : Client.response_ok (api_ai_scan h hasApiKey oracle request) = false)
      by (unfold Client.response_ok; destruct Hst as [-> | ->]; reflexivity).
    rewrite Hok. split; [reflexivity|]. split; [reflexivity|]. right.
    split; [right; exists request; split; [reflexivity | exact Hst]|].
    repeat split; reflexivity.
Qed.

End ClientScanClaims.

(* ===================================================================== *)
(** ** Items that share an id                                              *)
(* ===================================================================== *)

Section SharedIdClaims.
Import Js Validator Routes.

(** X21. Ids are not checked for clashes: in the static scan the list
    filed under an id other than ["__proto__"] is the normalized list of
    the last item written under it, in the order accounts, public records,
    inquiries. An item sent both as an account and as a public record under
    one id is therefore reported with the public-record rules only. Under
    ["__proto__"] nothing is filed. *)
Theorem static_scan_last_write_wins
    (h : Host) (creditData : JsValue) (p : ScanPayload)
    (accts recs inqs : list JsValue) (i : nat) (w : JsValue * list string) :
  generateStaticViolations h creditData = Return p ->
  as_items (field_or_empty creditData "CREDIT_LIABILITY") = Return accts ->
  as_items (field_or_empty creditData "PUBLIC_RECORD") = Return recs ->
  as_items (field_or_empty creditData "INQUIRY") = Return inqs ->
  ScanSpec.staticWrites h accts recs inqs !! i = Some w ->
  toString (fst w) <> "__proto__" ->
  (forall j w', (i < j)%nat -> ScanSpec.staticWrites h accts recs inqs !! j = Some w' ->
                toString (fst w') <> toString (fst w)) ->
  violations p !! toString (fst w) = Some (sortedUnique (snd w))
  /\ violations p !! "__proto__" = None.
Proof.
  intros Hp Ha Hr Hi Hw Hproto Hlast.
  destruct (generateStaticViolations_inv h creditData p Hp)
    as (accts' & recs' & inqs' & sugg & Ha' & Hr' & Hi' & _ & _ & Hv & _).
  rewrite Ha in Ha'. rewrite Hr in Hr'. rewrite Hi in Hi'.
  injection Ha' as <-. injection Hr' as <-. injection Hi' as <-.
  rewrite Hv, !lookup_fmap, assign_all_proto, lookup_empty.
  destruct w as [id e]. cbn [fst snd] in *.
  now rewrite (assign_all_last _ ∅ i id e Hw Hproto Hlast).
Qed.

Lemma static_scan_last_write_wins_witness :
  exists p,
    generateStaticViolations Spec.exampleHost Examples.sharedIdRequest = Return p
    /\ In missingDofdViolation
          (Validator.violations (validateAccount Spec.exampleHost Examples.sharedItem))
    /\ violations p !! "A1" = Some [sentinel].
Proof.
  destruct (generateStaticViolations Spec.exampleHost Examples.sharedIdRequest)
    as [p|] eqn:Hp; [|vm_compute in Hp; discriminate Hp].
  exists p. split; [reflexivity|]. split; [vm_compute; tauto|].
  refine (proj1 (static_scan_last_write_wins Spec.exampleHost Examples.sharedIdRequest p
                   [Examples.sharedItem] [Examples.sharedItem] [] 1
                   (VStr "A1", [sentinel]) Hp eq_refl eq_refl eq_refl eq_refl _ _)).
  - vm_compute. discriminate.
  - intros j w' Hj Hw'. destruct j as [|[|j]]; [lia | lia | discriminate Hw'].
Defined.

End SharedIdClaims.

(* ===================================================================== *)
(** ** The knowledge sources                                               *)
(* ===================================================================== *)

Section KnowledgeClaims.
Import Js Knowledge.

Lemma append_assoc_s (a b c : string) : (a +:+ b) +:+ c = a +:+ (b +:+ c).
Proof.
  induction a as [|x a IH]; [reflexivity|].
  change (String x a +:+ b) with (String x (a +:+ b)).
  change (String x (a +:+ b) +:+ c) with (String x ((a +:+ b) +:+ c)).
  change (String x a +:+ (b +:+ c)) with (String x (a +:+ (b +:+ c))).
  now rewrite IH.
Qed.

Lemma prefix_split p s : String.prefix p s = true -> exists b, s = p +:+ b.
Proof.
  revert s. induction p as [|x p IH]; intros s; [now exists s|].
  destruct s as [|y s]; cbn [String.prefix]; [discriminate|].
  destruct (ascii_dec x y) as [<-|]; [|discriminate].
  intros H. destruct (IH s H) as [b ->]. now exists b.
Qed.

Lemma prefix_nil s : String.prefix "" s = true.
Proof. now destruct s. Qed.

Lemma includes_iff s p : includes s p = true <-> exists a b, s = a +:+ (p +:+ b).
Proof.
  split.
  - induction s as [|c s IH]; cbn [includes].
    + destruct (String.prefix p "") eqn:E; [|discriminate].
      intros _. apply prefix_split in E as [b E]. now exists "", b.
    + destruct (String.prefix p (String c s)) eqn:E.
      * intros _. apply prefix_split in E as [b E]. now exists "", b.
      * intros H. destruct (IH H) as (a & b & ->). now exists (String c a), b.
  - intros (a & b & ->). induction a as [|c a IH].
    + change ("" +:+ (p +:+ b)) with (p +:+ b).
      pose proof (prefix_append p b) as H.
      destruct (p +:+ b); cbn [includes]; now rewrite H.
    + change (String c a +:+ (p +:+ b)) with (String c (a +:+ (p +:+ b))).
      cbn [includes]. rewrite IH. now destruct (String.prefix _ _).
Qed.

Lemma includes_trans s t u :
  includes s t = true -> includes t u = true -> includes s u = true.
Proof.
  rewrite !includes_iff. intros (a & b & ->) (a' & b' & ->).
  exists (a +:+ a'), (b' +:+ b). now rewrite !append_assoc_s.
Qed.

Lemma includes_nil s : includes s "" = true.
Proof. destruct s; cbn [includes]; now rewrite prefix_nil. Qed.

Lemma lowerChar_idem c : lowerChar (lowerChar c) = lowerChar c.
Proof. destruct c as [[] [] [] [] [] [] [] []]; reflexivity. Qed.

Lemma toLowerCase_idem s : toLowerCase (toLowerCase s) = toLowerCase s.
Proof.
  induction s as [|c s IH]; [reflexivity|].
  cbn [toLowerCase]. now rewrite lowerChar_idem, IH.
Qed.

Lemma filter_sublist {A} (f : A -> bool) l : sublist (List.filter f l) l.
Proof.
  induction l as [|x l IH]; [constructor|].
  cbn [List.filter]. destruct (f x); now constructor.
Qed.

(** X22. [searchKnowledge] ignores the case of the topic, returns sources
    of the collection in the order of the collection, returns all of them
    for the empty topic, and never returns more when the topic is extended:
    a source found for a topic is found for every part of that topic. *)
Theorem searchKnowledge_properties (topic : string) :
  searchKnowledge (toLowerCase topic) = searchKnowledge topic
  /\ sublist (searchKnowledge topic) getAllSources
  /\ searchKnowledge "" = getAllSources
  /\ (forall part source,
        includes (toLowerCase topic) (toLowerCase part) = true ->
        In source (searchKnowledge topic) -> In source (searchKnowledge part)).
Proof.
  unfold searchKnowledge, getAllSources.
  split; [now rewrite toLowerCase_idem|].
  split; [apply filter_sublist|].
  split.
  { apply forallb_filter_id. apply forallb_forall. intros x _.
    cbn [toLowerCase]. now rewrite includes_nil. }
  intros part source Hpart Hin.
  apply filter_In in Hin as [Hin Hm]. apply filter_In. split; [exact Hin|].
  apply orb_true_iff in Hm as [Hm|Hm]; apply orb_true_iff; [left|right];
    eapply includes_trans; eauto.
Qed.

End KnowledgeClaims.

(* ===================================================================== *)
(** ** Which suggestions a result can hold                                 *)
(* ===================================================================== *)

Section SuggestionClaims.
Import Js Validator.

Lemma suggestion_of_violation vs s :
  In s (Validator.suggestions (formatValidationResult vs)) ->
  exists v, In v (Validator.violations (formatValidationResult vs))
            /\ generateValidatedSuggestions [v] = [s].
Proof.
  unfold formatValidationResult.
  cbn [Validator.suggestions Validator.violations].
  rewrite removeDuplicateSuggestions_spec. intros H.
  apply (proj1 (proj2 (proj2 (normalize_shape (fun x : string => x) _)))) in H.
  destruct (0 <? Z.of_nat (List.length (removeDuplicatesAndSort vs))); [|destruct H].
  unfold generateValidatedSuggestions in H. apply in_flat_map in H as (v & Hv & Hs).
  exists v. split; [exact Hv|].
  unfold generateValidatedSuggestions. cbn [flat_map]. rewrite app_nil_r.
  repeat match type of Hs with
         | context [if ?c then _ else _] => destruct c
         end;
    cbn [In] in Hs; first [destruct Hs as [<-|[]]; reflexivity | destruct Hs].
Qed.

(** X23. Every suggestion of a validation result is the suggestion of one
    of its reported violations. The text of the duplicate-account rule
    does not contain the word the suggestion table looks for, so the
    duplicate-account suggestion is never produced; for a public record or
    an inquiry the only suggestion there can be is the one for outdated
    information. *)
Theorem suggestions_come_from_violations (h : Host) (item : JsValue) (s : string) :
  (forall r,
      In r [validateAccount h item; validatePublicRecord h item; validateInquiry h item] ->
      In s (Validator.suggestions r) ->
      exists v, In v (Validator.violations r) /\ generateValidatedSuggestions [v] = [s])
  /\ ~ In More.duplicateSuggestion (Validator.suggestions (validateAccount h item))
  /\ (In s (Validator.suggestions (validatePublicRecord h item))
      \/ In s (Validator.suggestions (validateInquiry h item)) ->
      s = More.outdatedSuggestion).
Proof.
  split; [|split].
  - intros r [<-|[<-|[<-|[]]]]; apply suggestion_of_violation.
  - intros H. apply suggestion_of_violation in H as (v & Hv & Hs).
    apply validateAccount_violations_iff, account_catalog in Hv.
    unfold Spec.catalog, Spec.crcTexts in Hv. cbn [map app In] in Hv.
    repeat (destruct Hv as [<-|Hv]; [vm_compute in Hs; discriminate Hs|]).
    destruct Hv.
  - intros [H|H]; apply suggestion_of_violation in H as (v & Hv & Hs).
    + apply validatePublicRecord_violations_iff in Hv.
      rewrite publicRecordViolations_rules, In_fired in Hv.
      cbn [In Spec.record_rules] in Hv.
      destruct Hv as [Hv|[Hv|[]]]; injection Hv as <- _;
        vm_compute in Hs; [injection Hs as <-; reflexivity | discriminate Hs].
    + apply validateInquiry_violations_iff in Hv.
      rewrite inquiryViolations_rules, In_fired in Hv.
      cbn [In Spec.inquiry_rules] in Hv.
      destruct Hv as [Hv|[Hv|[]]]; injection Hv as <- _;
        vm_compute in Hs; [injection Hs as <-; reflexivity | discriminate Hs].
Qed.

End SuggestionClaims.

(* ===================================================================== *)
(** ** Where the lists of an assisted payload come from                    *)
(* ===================================================================== *)

Section AssistedListClaims.
Import Js Validator Routes.




End AssistedListClaims.
